(** * cpu-usage-stats: the log retention and aggregation pipeline of [main.py]

    A shallow embedding of [CPUUsageMonitor]: the allow list built in
    [__init__], [save_logs], [_human_readable_time], [parse_log],
    [aggregate_cpu_usage], [clear_previous_logs], the hours computed in
    [generate_graph] and [send_metrics] up to the rows of its table,
    with the Python built-ins they rest on modelled next to them:
    text-mode line reading, [str.strip], [str.split], [float] on a
    string, float arithmetic with [/], [//] and [%], [int] and
    [list.sort].  What the program prints, the settings it reads from
    the environment, and what the plotting, table and messaging
    libraries do with the values is left out.

    Text is ASCII: a character is an [ascii] code unit, which is what
    the accounting tool and the account registry produce.  Floats are
    binary64 values with the exact result of each operation rounded to
    nearest, ties to even; the arithmetic is checked against the
    kernel's primitive floats on the values of the examples. *)

From Stdlib Require Import ZArith Lia Ascii String List.
From Stdlib Require PrimFloat SpecFloat FloatOps.
From stdpp Require Import base decidable option list sorting gmap strings pretty fin_maps fin_sets.

Local Open Scope string_scope.
Local Open Scope list_scope.

(** ** Exceptions and results *)

Inductive pyexn : Type :=
| ValueError
| OverflowError
| ZeroDivisionError
| IndexError
| FileNotFoundError
| IsADirectoryError.

(** A Python call either raises or returns. *)
Inductive result (A : Type) : Type :=
| Raise (e : pyexn)
| Return (a : A).
Arguments Raise {A} e.
Arguments Return {A} a.

#[global] Instance result_ret : MRet result := fun A a => Return a.
#[global] Instance result_bind : MBind result := fun A B k r =>
  match r with
  | Raise e => Raise e
  | Return a => k a
  end.

Definition returns {A} (r : result A) : Prop := ∃ a, r = Return a.

(** ** Python strings *)

Module PyStr.

(** [str.isspace] on ASCII: TAB, LF, VT, FF, CR, the four separators
    FS GS RS US, and the space. *)
Definition isspace (c : ascii) : bool :=
  let n := nat_of_ascii c in
  ((9 <=? n)%nat && (n <=? 13)%nat) || ((28 <=? n)%nat && (n <=? 32)%nat).

Fixpoint lstrip (s : string) : string :=
  match s with
  | EmptyString => EmptyString
  | String c s' => if isspace c then lstrip s' else s
  end.

(** Truth value of a string: non-empty. *)
Definition truthy (s : string) : bool :=
  match s with EmptyString => false | _ => true end.

Fixpoint rstrip (s : string) : string :=
  match s with
  | EmptyString => EmptyString
  | String c s' =>
      let r := rstrip s' in
      if truthy r then String c r
      else if isspace c then EmptyString else String c EmptyString
  end.

(** [s.strip()] *)
Definition strip (s : string) : string := rstrip (lstrip s).

(** One-character string. *)
Definition chr (c : ascii) : string := String c EmptyString.

(** [s.split()]: the maximal runs of non-whitespace. [cur] is the run
    being read. *)
Fixpoint split_go (cur : string) (s : string) : list string :=
  match s with
  | EmptyString =>
      if truthy cur then [cur] else []
  | String c s' =>
      if isspace c
      then (if truthy cur then [cur] else []) ++ split_go EmptyString s'
      else split_go (cur +:+ chr c) s'
  end.

Definition split (s : string) : list string := split_go EmptyString s.

(** [s.split(sep)] for a one-character separator: always at least one
    field, empty fields kept. *)
Fixpoint split_on_go (sep : ascii) (cur : string) (s : string) : list string :=
  match s with
  | EmptyString => [cur]
  | String c s' =>
      if Ascii.eqb c sep
      then cur :: split_on_go sep EmptyString s'
      else split_on_go sep (cur +:+ chr c) s'
  end.

Definition split_on (sep : ascii) (s : string) : list string :=
  split_on_go sep EmptyString s.

(** [s.startswith(p)] *)
Fixpoint startswith (p s : string) : bool :=
  match p, s with
  | EmptyString, _ => true
  | String a p', String b s' => Ascii.eqb a b && startswith p' s'
  | String _ _, EmptyString => false
  end.

(** [p in s] *)
Fixpoint contains (p s : string) : bool :=
  startswith p s ||
  match s with
  | EmptyString => false
  | String _ s' => contains p s'
  end.

(** [s[:n]] *)
Fixpoint take (n : nat) (s : string) : string :=
  match n, s with
  | S n', String c s' => String c (take n' s')
  | _, _ => EmptyString
  end.

Definition LF : ascii := ascii_of_nat 10.
Definition CR : ascii := ascii_of_nat 13.
Definition nl : string := String LF EmptyString.

(** Universal-newline translation applied by a text-mode read
    ([open(path, "r")]): CR LF and a lone CR both become LF. *)
Fixpoint universal_newlines (s : string) : string :=
  match s with
  | EmptyString => EmptyString
  | String c s' =>
      if Ascii.eqb c CR then
        match s' with
        | String c' s'' =>
            if Ascii.eqb c' LF then String LF (universal_newlines s'')
            else String LF (universal_newlines s')
        | EmptyString => String LF EmptyString
        end
      else String c (universal_newlines s')
  end.

(** Lines of a decoded text, each with its terminating LF (the last one
    possibly without). [cur] is the line being read. *)
Fixpoint lines_go (cur : string) (s : string) : list string :=
  match s with
  | EmptyString => if truthy cur then [cur] else []
  | String c s' =>
      if Ascii.eqb c LF
      then (cur +:+ chr c) :: lines_go EmptyString s'
      else lines_go (cur +:+ chr c) s'
  end.

(** [file.readlines()] on a file opened in text mode. *)
Definition readlines (content : string) : list string :=
  lines_go EmptyString (universal_newlines content).

End PyStr.

(** ** Python floats

    A Python [float] is an IEEE-754 binary64 value.  A finite value is
    [(-1)^neg * m * 2^e] with [0 <= m < 2^53] and [-1074 <= e <= 971];
    every arithmetic operation returns the exact result rounded to the
    nearest such value, ties to even. *)

Module PyFloat.

Local Open Scope Z_scope.

Inductive pyfloat : Type :=
| Fnan
| Finf (neg : bool)
| Ffin (neg : bool) (m : Z) (e : Z).

#[global] Instance pyfloat_eq_dec : EqDecision pyfloat.
Proof. solve_decision. Defined.

Definition emin : Z := -1074.
Definition emax : Z := 971.
Definition prec : Z := 53.

(** Canonical binary64 values: the mantissa has 53 bits exactly, or the
    exponent is the least one (subnormals and zeros). *)
Definition is_binary64 (x : pyfloat) : bool :=
  match x with
  | Ffin _ m e =>
      (0 <=? m) && (m <? 2 ^ prec) && (emin <=? e) && (e <=? emax)
      && ((e =? emin) || (2 ^ (prec - 1) <=? m))
  | _ => true
  end.

Definition zero : pyfloat := Ffin false 0 emin.

(** Round the integer ratio [num / den] half to even. *)
Definition div_half_even (num den : Z) : Z :=
  let q := num / den in
  let r := num mod den in
  if 2 * r <? den then q
  else if den <? 2 * r then q + 1
  else if Z.even q then q else q + 1.

(** [n / (d * 2^e)] as a ratio of integers. *)
Definition scaled_num (n e : Z) : Z := n * 2 ^ Z.max 0 (- e).
Definition scaled_den (d e : Z) : Z := d * 2 ^ Z.max 0 e.

(** The binary64 value nearest to [(-1)^neg * n / d], for [0 <= n] and
    [0 < d]. *)
Definition round (neg : bool) (n d : Z) : pyfloat :=
  if n =? 0 then Ffin neg 0 emin
  else
    let e1 := Z.max (Z.log2 n - Z.log2 d - prec) emin in
    let e :=
      if scaled_num n e1 / scaled_den d e1 <? 2 ^ prec then e1 else e1 + 1 in
    let m := div_half_even (scaled_num n e) (scaled_den d e) in
    let '(m, e) := if m =? 2 ^ prec then (2 ^ (prec - 1), e + 1) else (m, e) in
    if emax <? e then Finf neg else Ffin neg m e.

(** The exact value of a finite float as numerator and denominator. *)
Definition num (m e : Z) : Z := m * 2 ^ Z.max 0 e.
Definition den (e : Z) : Z := 2 ^ Z.max 0 (- e).

Definition of_Z (z : Z) : pyfloat := round (z <? 0) (Z.abs z) 1.

Definition neg (x : pyfloat) : pyfloat :=
  match x with
  | Fnan => Fnan
  | Finf s => Finf (negb s)
  | Ffin s m e => Ffin (negb s) m e
  end.

Definition signed (s : bool) (m : Z) : Z := if s then - m else m.

(** [x + y] *)
Definition add (x y : pyfloat) : pyfloat :=
  match x, y with
  | Fnan, _ | _, Fnan => Fnan
  | Finf s1, Finf s2 => if Bool.eqb s1 s2 then Finf s1 else Fnan
  | Finf s, Ffin _ _ _ | Ffin _ _ _, Finf s => Finf s
  | Ffin s1 m1 e1, Ffin s2 m2 e2 =>
      let e := Z.min e1 e2 in
      let M := signed s1 (m1 * 2 ^ (e1 - e)) + signed s2 (m2 * 2 ^ (e2 - e)) in
      if M =? 0 then Ffin (s1 && s2) 0 emin
      else round (M <? 0) (num (Z.abs M) e) (den e)
  end.

(** [x - y] *)
Definition sub (x y : pyfloat) : pyfloat := add x (neg y).

(** [x / y] of C; Python checks for a zero divisor before it divides. *)
Definition div (x y : pyfloat) : pyfloat :=
  match x, y with
  | Fnan, _ | _, Fnan => Fnan
  | Finf _, Finf _ => Fnan
  | Finf s1, Ffin s2 _ _ => Finf (xorb s1 s2)
  | Ffin s1 _ _, Finf s2 => Ffin (xorb s1 s2) 0 emin
  | Ffin s1 m1 e1, Ffin s2 m2 e2 =>
      if m2 =? 0 then (if m1 =? 0 then Fnan else Finf (xorb s1 s2))
      else round (xorb s1 s2) (num m1 e1 * den e2) (den e1 * num m2 e2)
  end.

(** C [fmod]: the remainder has the sign of [x] and is exact. *)
Definition fmod (x y : pyfloat) : pyfloat :=
  match x, y with
  | Fnan, _ | _, Fnan => Fnan
  | Finf _, _ => Fnan
  | Ffin _ _ _, Finf _ => x
  | Ffin s1 m1 e1, Ffin _ m2 e2 =>
      if m2 =? 0 then Fnan
      else
        let e := Z.min e1 e2 in
        let r := (m1 * 2 ^ (e1 - e)) mod (m2 * 2 ^ (e2 - e)) in
        round s1 (num r e) (den e)
  end.

(** C [floor] *)
Definition floor (x : pyfloat) : pyfloat :=
  match x with
  | Ffin s m e =>
      let z := signed s (num m e) / den e in
      if z =? 0 then Ffin s 0 emin else of_Z z
  | _ => x
  end.

(** [copysign(x, y)] *)
Definition copysign (x y : pyfloat) : pyfloat :=
  match x, y with
  | Fnan, _ => Fnan
  | Finf _, (Finf s | Ffin s _ _) => Finf s
  | Ffin _ m e, (Finf s | Ffin s _ _) => Ffin s m e
  | _, Fnan => x
  end.

(** [x < y]; false when either side is a NaN. *)
Definition ltb (x y : pyfloat) : bool :=
  match x, y with
  | Fnan, _ | _, Fnan => false
  | Finf s1, Finf s2 => s1 && negb s2
  | Finf s, Ffin _ _ _ => s
  | Ffin _ _ _, Finf s => negb s
  | Ffin s1 m1 e1, Ffin s2 m2 e2 =>
      signed s1 (num m1 e1) * den e2 <? signed s2 (num m2 e2) * den e1
  end.

(** [x <= y] *)
Definition leb (x y : pyfloat) : bool :=
  match x, y with
  | Fnan, _ | _, Fnan => false
  | Finf s1, Finf s2 => s1 || negb s2
  | Finf s, Ffin _ _ _ => s
  | Ffin _ _ _, Finf s => negb s
  | Ffin s1 m1 e1, Ffin s2 m2 e2 =>
      signed s1 (num m1 e1) * den e2 <=? signed s2 (num m2 e2) * den e1
  end.

(** Truth value of a C double: anything but a zero. *)
Definition nonzero (x : pyfloat) : bool :=
  match x with
  | Ffin _ m _ => negb (m =? 0)
  | _ => true
  end.

Definition half : pyfloat := Ffin false (2 ^ 52) (-53).
Definition one : pyfloat := Ffin false (2 ^ 52) (-52).

(** [int(x)]: truncation towards zero. *)
Definition to_int (x : pyfloat) : result Z :=
  match x with
  | Fnan => Raise ValueError
  | Finf _ => Raise OverflowError
  | Ffin s m e => Return (signed s (num m e / den e))
  end.

(** CPython's [_float_div_mod], which [//] on floats returns the first
    component of. *)
Definition float_div_mod (vx wx : pyfloat) : pyfloat * pyfloat :=
  let mod_ := fmod vx wx in
  let div_ := div (sub vx mod_) wx in
  let '(mod_, div_) :=
    if nonzero mod_ then
      if negb (Bool.eqb (ltb wx zero) (ltb mod_ zero))
      then (add mod_ wx, sub div_ one)
      else (mod_, div_)
    else (copysign zero wx, div_) in
  let floordiv :=
    if nonzero div_ then
      let f := floor div_ in
      if ltb half (sub div_ f) then add f one else f
    else copysign zero (div vx wx) in
  (floordiv, mod_).

(** [vx // wx] *)
Definition floordiv (vx wx : pyfloat) : result pyfloat :=
  if nonzero wx then Return (fst (float_div_mod vx wx))
  else Raise ZeroDivisionError.

(** [vx % wx] (CPython's [float_rem]) *)
Definition rem (vx wx : pyfloat) : result pyfloat :=
  if nonzero wx then
    let mod_ := fmod vx wx in
    Return (if nonzero mod_ then
              if negb (Bool.eqb (ltb wx zero) (ltb mod_ zero))
              then add mod_ wx else mod_
            else copysign zero wx)
  else Raise ZeroDivisionError.

(** *** [float(s)] on a string

    CPython strips surrounding whitespace, checks and removes
    underscores (allowed between two digits only), and then reads either
    an infinity or NaN or a decimal numeral; the whole string must be
    consumed. *)

Definition digit_val (c : ascii) : option Z :=
  let n := nat_of_ascii c in
  if ((48 <=? n)%nat && (n <=? 57)%nat)%bool then Some (Z.of_nat n - 48) else None.

Definition is_digit (c : ascii) : bool :=
  match digit_val c with Some _ => true | None => false end.

Definition underscore : ascii := ascii_of_nat 95.

Fixpoint strip_underscores (prev : option ascii) (s : string) : option string :=
  match s with
  | EmptyString =>
      match prev with
      | Some p => if Ascii.eqb p underscore then None else Some EmptyString
      | None => Some EmptyString
      end
  | String c s' =>
      if Ascii.eqb c underscore then
        match prev with
        | Some p => if is_digit p then strip_underscores (Some c) s' else None
        | None => None
        end
      else
        match prev with
        | Some p =>
            if (Ascii.eqb p underscore && negb (is_digit c))%bool then None
            else String c <$> strip_underscores (Some c) s'
        | None => String c <$> strip_underscores (Some c) s'
        end
  end.

(** ASCII lower case *)
Definition tolower (c : ascii) : ascii :=
  let n := nat_of_ascii c in
  if ((65 <=? n)%nat && (n <=? 90)%nat)%bool then ascii_of_nat (n + 32) else c.

Fixpoint lower (s : string) : string :=
  match s with
  | EmptyString => EmptyString
  | String c s' => String (tolower c) (lower s')
  end.

(** An optional sign; [true] for a minus. *)
Definition read_sign (s : string) : bool * string :=
  match s with
  | String c s' =>
      if Ascii.eqb c "-"%char then (true, s')
      else if Ascii.eqb c "+"%char then (false, s')
      else (false, s)
  | EmptyString => (false, s)
  end.

(** A run of digits: the number read on top of [acc], how many digits,
    and the rest. *)
Fixpoint read_digits (acc cnt : Z) (s : string) : Z * Z * string :=
  match s with
  | String c s' =>
      match digit_val c with
      | Some d => read_digits (10 * acc + d) (cnt + 1) s'
      | None => (acc, cnt, s)
      end
  | EmptyString => (acc, cnt, s)
  end.

(** An optional exponent part; without digits after the [e] nothing is
    consumed. *)
Definition read_exponent (s : string) : Z * string :=
  match s with
  | String c s' =>
      if Ascii.eqb (tolower c) "e"%char then
        let '(sg, s1) := read_sign s' in
        let '(x, cnt, s2) := read_digits 0 0 s1 in
        if 0 <? cnt then (signed sg x, s2) else (0, s)
      else (0, s)
  | EmptyString => (0, s)
  end.

Definition parse_inf_or_nan (s : string) : option pyfloat :=
  let '(sg, s1) := read_sign s in
  let l := lower s1 in
  if String.eqb l "inf" || String.eqb l "infinity" then Some (Finf sg)
  else if String.eqb l "nan" then Some Fnan
  else None.

Definition parse_decimal (s : string) : option pyfloat :=
  let '(sg, s1) := read_sign s in
  let '(ip, icnt, s2) := read_digits 0 0 s1 in
  let '(mant, fcnt, s3) :=
    match s2 with
    | String c s2' =>
        if Ascii.eqb c "."%char then read_digits ip 0 s2' else (ip, 0, s2)
    | EmptyString => (ip, 0, s2)
    end in
  if 0 <? icnt + fcnt then
    let '(x, s4) := read_exponent s3 in
    match s4 with
    | EmptyString =>
        Some (round sg (mant * 10 ^ Z.max 0 (x - fcnt)) (10 ^ Z.max 0 (fcnt - x)))
    | String _ _ => None
    end
  else None.

(** [float(s)] *)
Definition of_string (s : string) : result pyfloat :=
  match strip_underscores None s with
  | None => Raise ValueError
  | Some s' =>
      let t := PyStr.strip s' in
      match parse_inf_or_nan t with
      | Some x => Return x
      | None =>
          match parse_decimal t with
          | Some x => Return x
          | None => Raise ValueError
          end
      end
  end.

End PyFloat.

(** ** The monitor *)

Import PyFloat.

Definition IGNORANT_USERS : list string :=
  ["root"; "_apt"; "sshd"; "man"; "fwupd-re"; "www-data"].

(** A per-user mapping to CPU seconds: the [user_cpu] dict of [parse_log]
    and [self.total_usage]. *)
Abbreviation usage := (gmap string pyfloat).

(** The fields of [self] the pipeline reads and writes. *)
Record CPUUsageMonitor : Type := {
  ALIVE_USERS : list string;
  total_usage : usage
}.

(** *** [__init__]: the allow list

    [isdir] is [os.path.isdir] on the host; [passwd] is the content of
    [/etc/passwd]. *)

Definition scan_passwd_line (isdir : string → bool) (alive : list string)
    (line : string) : result (list string) :=
  let parts := PyStr.split_on ":"%char line in
  match parts !! 0%nat, parts !! 5%nat with
  | Some username, Some home_directory =>
      if isdir home_directory && PyStr.contains "home" home_directory
      then Return (alive ++ [PyStr.take 8 username])
      else Return alive
  | _, _ => Raise IndexError
  end.

Fixpoint scan_passwd (isdir : string → bool) (alive : list string)
    (lines : list string) : result (list string) :=
  match lines with
  | [] => Return alive
  | line :: rest =>
      alive' ← scan_passwd_line isdir alive line;
      scan_passwd isdir alive' rest
  end.

Definition __init__ (isdir : string → bool) (passwd : string) : result CPUUsageMonitor :=
  alive ← scan_passwd isdir [] (PyStr.readlines passwd);
  Return {| ALIVE_USERS := alive; total_usage := ∅ |}.

(** *** The log directory

    All three file operations work on the one directory
    [/var/log/user_cpu_usage]; an entry is named by its file name, the
    path being [os.path.join(log_dir, name)].  The list is in
    [os.listdir] order, which the operating system chooses.  A missing
    directory is [None]. *)

Inductive entry : Type :=
| File (content : string)
| Directory.

Abbreviation logdir := (list (string * entry)).

Definition listdir (d : logdir) : list string := d.*1.

Fixpoint lookup_entry (name : string) (d : logdir) : option entry :=
  match d with
  | [] => None
  | (n, e) :: d' => if String.eqb n name then Some e else lookup_entry name d'
  end.

Fixpoint write_entry (name content : string) (d : logdir) : option logdir :=
  match d with
  | [] => Some [(name, File content)]
  | (n, e) :: d' =>
      if String.eqb n name then
        match e with
        | File _ => Some ((n, File content) :: d')
        | Directory => None
        end
      else cons (n, e) <$> write_entry name content d'
  end.

(** File-system actions: they read and change the directory, and return
    or raise.  The state is kept when an action raises, since what was
    done before stays done. *)
Definition io (A : Type) : Type := option logdir → result A * option logdir.

#[global] Instance io_ret : MRet io := fun A a fs => (Return a, fs).
#[global] Instance io_bind : MBind io := fun A B k m fs =>
  match m fs with
  | (Return a, fs') => k a fs'
  | (Raise e, fs') => (Raise e, fs')
  end.

Definition raise {A} (e : pyexn) : io A := fun fs => (Raise e, fs).

(** A computation that does not touch the file system. *)
Definition pure_result {A} (r : result A) : io A := fun fs => (r, fs).

(** [os.makedirs(log_dir, exist_ok=True)] *)
Definition os_makedirs : io unit := fun fs => (Return (), Some (default [] fs)).

(** [os.listdir(log_dir)] *)
Definition os_listdir : io (list string) := fun fs =>
  match fs with
  | Some d => (Return (listdir d), fs)
  | None => (Raise FileNotFoundError, fs)
  end.

(** [os.path.isfile(path)] *)
Definition os_path_isfile (name : string) : io bool := fun fs =>
  match fs ≫= lookup_entry name with
  | Some (File _) => (Return true, fs)
  | _ => (Return false, fs)
  end.

(** [open(path, "r")] and reading the whole file *)
Definition read_file (name : string) : io string := fun fs =>
  match fs with
  | Some d =>
      match lookup_entry name d with
      | Some (File content) => (Return content, fs)
      | Some Directory => (Raise IsADirectoryError, fs)
      | None => (Raise FileNotFoundError, fs)
      end
  | None => (Raise FileNotFoundError, fs)
  end.

(** [open(path, "w")] and one [write] *)
Definition write_file (name content : string) : io unit := fun fs =>
  match fs with
  | Some d =>
      match write_entry name content d with
      | Some d' => (Return (), Some d')
      | None => (Raise IsADirectoryError, fs)
      end
  | None => (Raise FileNotFoundError, fs)
  end.

(** [os.remove(path)] *)
Definition os_remove (name : string) : io unit := fun fs =>
  match fs with
  | Some d =>
      match lookup_entry name d with
      | Some (File _) => (Return (), Some (filter (λ ne, ne.1 ≠ name) d))
      | Some Directory => (Raise IsADirectoryError, fs)
      | None => (Raise FileNotFoundError, fs)
      end
  | None => (Raise FileNotFoundError, fs)
  end.

(** *** [save_logs] *)

Record date : Type := { year : nat; month : nat; day : nat }.

Definition digit_char (n : nat) : ascii := ascii_of_nat (48 + n mod 10).

(** [str(today)]: [YYYY-MM-DD] *)
Definition isoformat (t : date) : string :=
  String (digit_char (year t / 1000)) (String (digit_char (year t / 100))
  (String (digit_char (year t / 10)) (String (digit_char (year t))
  (String "-"%char
  (String (digit_char (month t / 10)) (String (digit_char (month t))
  (String "-"%char
  (String (digit_char (day t / 10)) (String (digit_char (day t)) EmptyString))))))))).

(** What [subprocess.run(["sudo", "sa", "-u"], capture_output=True,
    text=True)] does: it raises when the program cannot be started, and
    otherwise returns the exit status and the decoded standard output.
    No [check=True] is passed. *)
Inductive run_outcome : Type :=
| CannotStart (e : pyexn)
| Completed (returncode : Z) (stdout : string).

Definition subprocess_run (run : run_outcome) : io (Z * string) :=
  match run with
  | CannotStart e => raise e
  | Completed returncode stdout => mret (returncode, stdout)
  end.

Definition log_entry (today : date) (stdout : string) : string :=
  "Date: " +:+ isoformat today +:+ PyStr.nl +:+ stdout +:+ PyStr.nl.

Definition log_file (today : date) : string := isoformat today +:+ ".log".

(** [today] is [datetime.date.today()] and [run] the behaviour of the
    accounting command on this call. *)
Definition save_logs (today : date) (run : run_outcome) : io unit :=
  _ ← os_makedirs;
  result ← subprocess_run run;
  write_file (log_file today) (log_entry today result.2).

(** *** [_human_readable_time] *)

Definition _human_readable_time (seconds : pyfloat) : result string :=
  h ← floordiv seconds (of_Z 3600);
  hours ← to_int h;
  r ← rem seconds (of_Z 3600);
  m ← floordiv r (of_Z 60);
  minutes ← to_int m;
  Return (pretty hours +:+ " hours " +:+ pretty minutes +:+ " minutes").

(** *** [parse_log] *)

(** The body of the loop over the lines, on the dict built so far. *)
Definition parse_line (self : CPUUsageMonitor) (user_cpu : usage)
    (line : string) : result usage :=
  if PyStr.truthy (PyStr.strip line) && negb (PyStr.startswith "Date:" line) then
    match PyStr.split line with
    | user :: field :: _ =>
        if negb (bool_decide (user ∈ ALIVE_USERS self))
           || bool_decide (user ∈ IGNORANT_USERS)
        then Return user_cpu
        else
          cpu_time ← of_string field;
          Return (<[user := add (default zero (user_cpu !! user)) cpu_time]> user_cpu)
    | _ => Return user_cpu
    end
  else Return user_cpu.

Fixpoint parse_lines (self : CPUUsageMonitor) (user_cpu : usage)
    (lines : list string) : result usage :=
  match lines with
  | [] => Return user_cpu
  | line :: rest =>
      user_cpu' ← parse_line self user_cpu line;
      parse_lines self user_cpu' rest
  end.

(** [parse_log] on the content of the file. *)
Definition parse_text (self : CPUUsageMonitor) (content : string) : result usage :=
  parse_lines self ∅ (PyStr.readlines content).

Definition parse_log (self : CPUUsageMonitor) (file_path : string) : io usage :=
  content ← read_file file_path;
  pure_result (parse_text self content).

(** *** [aggregate_cpu_usage] *)

(** The inner loop: [total[user] = total.get(user, 0) + cpu_time] for
    every item of [daily]. *)
Definition add_daily (total daily : usage) : usage :=
  foldl (λ tot uc, <[uc.1 := add (default zero (tot !! uc.1)) uc.2]> tot)
        total (map_to_list daily).

(** The outer loop over the listing, on the total so far. *)
Fixpoint aggregate_files (self : CPUUsageMonitor) (total : usage)
    (files : list string) : io usage :=
  match files with
  | [] => mret total
  | file_name :: rest =>
      is_file ← os_path_isfile file_name;
      if is_file : bool then
        daily_usage ← parse_log self file_name;
        aggregate_files self (add_daily total daily_usage) rest
      else aggregate_files self total rest
  end.

(** Returns the new [self] (with [total_usage] set) and the total. *)
Definition aggregate_cpu_usage (self : CPUUsageMonitor)
    : io (CPUUsageMonitor * usage) :=
  files ← os_listdir;
  total ← aggregate_files self ∅ files;
  mret ({| ALIVE_USERS := ALIVE_USERS self; total_usage := total |}, total).

(** The merge of a sequence of parsed records, in the order given: what
    [aggregate_cpu_usage] computes from the records of the files it
    lists. *)
Definition aggregate (records : list usage) : usage :=
  foldl add_daily ∅ records.

(** *** [clear_previous_logs] *)

Fixpoint remove_all (names : list string) : io unit :=
  match names with
  | [] => mret ()
  | file :: rest => _ ← os_remove file; remove_all rest
  end.

(** [files.sort()] on strings: code-point lexical order. *)
Definition sort_names (files : list string) : list string :=
  merge_sort String.le files.

Definition clear_previous_logs : io unit :=
  files ← os_listdir;
  if (7 <? length files)%nat then
    let files := sort_names files in
    remove_all (take (length files - 7) files)
  else mret ().


(** *** [generate_graph] *)

(** The heights of the bars: [cpu_time / 3600] for every item of
    [self.total_usage].  Drawing the chart and saving it is the plotting
    library's work. *)
Definition cpu_time_in_hours (total_usage : usage) : usage :=
  (λ cpu_time, div cpu_time (of_Z 3600)) <$> total_usage.

(** *** [send_metrics] *)

(** One turn of the loop that fills the table: the row of the item [uc]
    added to the rows so far. *)
Definition add_row (rows : gmap string string) (uc : string * pyfloat)
    : result (gmap string string) :=
  cell ← _human_readable_time uc.2;
  Return (<[uc.1 := cell]> rows).

Fixpoint add_rows (rows : gmap string string) (items : list (string * pyfloat))
    : result (gmap string string) :=
  match items with
  | [] => Return rows
  | uc :: rest => rows' ← add_row rows uc; add_rows rows' rest
  end.

(** The rows of the table, by user: the dict is walked item by item,
    and the first time that does not render ends the loop. *)
Definition table_rows (total_usage : usage) : result (gmap string string) :=
  add_rows ∅ (map_to_list total_usage).

(** [send_metrics] up to the table: the three steps on the log directory
    and the rows.  Laying the table out and sending it with the chart is
    the libraries' work. *)
Definition send_metrics (self : CPUUsageMonitor) (today : date) (run : run_outcome)
    : io (CPUUsageMonitor * gmap string string) :=
  _ ← clear_previous_logs;
  _ ← save_logs today run;
  st ← aggregate_cpu_usage self;
  rows ← pure_result (table_rows st.2);
  mret (st.1, rows).


(** * Vocabulary of the properties *)

Local Open Scope nat_scope.

(** ** The store *)

Definition isfile (e : entry) : bool :=
  match e with File _ => true | Directory => false end.

(** The directory holds snapshot files only, each name once. *)
Definition snapshot_store (d : logdir) : Prop :=
  NoDup (listdir d) ∧ Forall (λ ne, isfile ne.2 = true) d.

(** What a run of [clear_previous_logs] over a snapshot store leaves:
    the entries whose names are not among the first [length - 7] of the
    sorted listing. *)
Definition survivors (d : logdir) : logdir :=
  if (7 <? length (listdir d))%nat then
    let files := sort_names (listdir d) in
    filter (λ ne, ne.1 ∉ take (length files - 7) files) d
  else d.

(** ** Lines *)

(** AllowSet minus DenySet. *)
Definition allowed (self : CPUUsageMonitor) (user : string) : Prop :=
  user ∈ ALIVE_USERS self ∧ user ∉ IGNORANT_USERS.

#[global] Instance allowed_dec self user : Decision (allowed self user).
Proof. unfold allowed. apply _. Defined.

(** A data line: not blank, not a [Date:] line, and with two fields at
    least; its first two fields. *)
Definition data_line (line : string) : option (string * string) :=
  if PyStr.truthy (PyStr.strip line) && negb (PyStr.startswith "Date:" line) then
    match PyStr.split line with
    | user :: field :: _ => Some (user, field)
    | _ => None
    end
  else None.

(** The second field of a data line of [user]. *)
Definition field_of (user : string) (line : string) : option string :=
  match data_line line with
  | Some (u, field) => if decide (u = user) then Some field else None
  | None => None
  end.

Definition to_option {A} (r : result A) : option A :=
  match r with Return a => Some a | Raise _ => None end.

(** The CPU-seconds values of the data lines of [user], in line order. *)
Definition readings (user : string) (lines : list string) : list pyfloat :=
  omap (λ line, field_of user line ≫= λ field, to_option (of_string field)) lines.

(** Some character is not whitespace. *)
Fixpoint has_graph (s : string) : bool :=
  match s with
  | EmptyString => false
  | String c s' => negb (PyStr.isspace c) || has_graph s'
  end.

(** No character is a line terminator. *)
Fixpoint one_line (s : string) : bool :=
  match s with
  | EmptyString => true
  | String c s' =>
      negb (Ascii.eqb c PyStr.CR) && negb (Ascii.eqb c PyStr.LF) && one_line s'
  end.

(** ** Values *)

(** [start + v1 + v2 + ...], summed from the left as Python does. *)
Definition fsum (start : pyfloat) (vs : list pyfloat) : pyfloat :=
  foldl add start vs.

(** [x >= 0] *)
Definition nonneg (x : pyfloat) : Prop := leb zero x = true.

(** [x < 0] *)
Definition negative (x : pyfloat) : Prop := ltb x zero = true.

(** [self] with [total_usage] set. *)
Definition with_total (self : CPUUsageMonitor) (total : usage) : CPUUsageMonitor :=
  {| ALIVE_USERS := ALIVE_USERS self; total_usage := total |}.

(** [x] is a finite non-negative float below [2^53] whose value is [v]
    units of [2^-1074]. *)
Definition rep (x : pyfloat) (v : Z) : Prop :=
  ∃ m e, x = Ffin false m e ∧ (0 <= m < 2 ^ 53)%Z ∧ (emin <= e <= 0)%Z
         ∧ v = (m * 2 ^ (e + 1074))%Z.

(** The exact whole hours of a float: the floor of its value, the ratio
    of [num] and [den], divided by 3600. *)
Definition whole_hours (x : pyfloat) : Z :=
  match x with
  | Ffin s m e => (signed s (num m e) / (3600 * den e))%Z
  | _ => 0%Z
  end.

(** The exact whole minutes left: the floor of the value modulo 3600,
    divided by 60. *)
Definition whole_minutes (x : pyfloat) : Z :=
  match x with
  | Ffin s m e => ((signed s (num m e) mod (3600 * den e)) / (60 * den e))%Z
  | _ => 0%Z
  end.

(** 2^53 *)
Definition two_53 : pyfloat := Ffin false (2 ^ 52) 1.

(** The sum of the whole-number values of [user] over the days. *)
Definition int_total (user : string) (days : list (gmap string Z)) : Z :=
  foldr (λ day acc, (default 0 (day !! user) + acc)%Z) 0%Z days.

(** The record of a day of whole-number values. *)
Definition int_record (day : gmap string Z) : usage := of_Z <$> day.

(** ** The kernel's binary64

    The primitive floats of the kernel are the binary64 of the machine;
    [to_prim] and [of_prim] carry a [pyfloat] there and back, to check
    the arithmetic above against them. *)

Definition to_prim (x : pyfloat) : PrimFloat.float :=
  match x with
  | Fnan => PrimFloat.nan
  | Finf s => if s then PrimFloat.neg_infinity else PrimFloat.infinity
  | Ffin s m e =>
      match m with
      | Zpos p => FloatOps.SF2Prim (SpecFloat.S754_finite s p e)
      | _ => if s then PrimFloat.neg_zero else PrimFloat.zero
      end
  end.

Definition of_prim (f : PrimFloat.float) : pyfloat :=
  match FloatOps.Prim2SF f with
  | SpecFloat.S754_zero s => Ffin s 0 emin
  | SpecFloat.S754_infinity s => Finf s
  | SpecFloat.S754_nan => Fnan
  | SpecFloat.S754_finite s m e => Ffin s (Zpos m) e
  end.

(** ** Example data *)

Definition alice_bob : CPUUsageMonitor :=
  {| ALIVE_USERS := ["alice"; "bob"]; total_usage := ∅ |}.

Definition only_alice : CPUUsageMonitor :=
  {| ALIVE_USERS := ["alice"]; total_usage := ∅ |}.

(** The floats the examples meet, named by the text [float] reads them
    from. *)
Definition f0_1 : pyfloat := Ffin false 7205759403792794 (-56).
Definition f0_2 : pyfloat := Ffin false 7205759403792794 (-55).
Definition f0_3 : pyfloat := Ffin false 5404319552844595 (-54).
Definition f0_6 : pyfloat := Ffin false 5404319552844595 (-53).
Definition f0_6_up : pyfloat := Ffin false 5404319552844596 (-53).
Definition f3600 : pyfloat := Ffin false 7916483719987200 (-41).
Definition f5400 : pyfloat := Ffin false 5937362789990400 (-40).
Definition f1e30 : pyfloat := Ffin false 7105427357601002 47.
Definition minus_five : pyfloat := Ffin true 5629499534213120 (-50).

Definition one_file (content : string) : option logdir :=
  Some [("2024-01-01.log", File content)].

(** A well-formed line and a malformed one: [alice 3600] and
    [bob notanumber]. *)
Definition malformed_snapshot : string :=
  "alice 3600" +:+ PyStr.nl +:+ "bob notanumber" +:+ PyStr.nl.

(** A snapshot with a negative reading. *)
Definition negative_snapshot : string := "alice -5" +:+ PyStr.nl.

(** Two lines for one user. *)
Definition twice_1800 : string :=
  "alice 1800" +:+ PyStr.nl +:+ "alice 1800" +:+ PyStr.nl.

Definition march_7 : date := {| year := 2024; month := 3; day := 7 |}.

(** Two lines of accounting output. *)
Definition sa_output : string :=
  "alice 3600.00 cpu 1024k mem" +:+ PyStr.nl +:+
  "root 12.50 cpu 512k mem" +:+ PyStr.nl.

(** Three daily snapshots of one user, and the same files listed in the
    opposite order. *)
Definition three_days : logdir :=
  [("2024-01-01.log", File ("alice 0.1" +:+ PyStr.nl));
   ("2024-01-02.log", File ("alice 0.2" +:+ PyStr.nl));
   ("2024-01-03.log", File ("alice 0.3" +:+ PyStr.nl))].

Definition three_days_reversed : logdir := reverse three_days.

(** Nine daily snapshots, listed in no particular order. *)
Definition nine_days : logdir :=
  (λ n, (n, File EmptyString)) <$>
  ["2024-01-09.log"; "2024-01-01.log"; "2024-01-03.log"; "2024-01-02.log";
   "2024-01-05.log"; "2024-01-04.log"; "2024-01-07.log"; "2024-01-06.log";
   "2024-01-08.log"].

(** Two accounts with a home directory, one of them with a long name,
    and [root]. *)
Definition passwd_example : string :=
  "alice:x:1000:1000::/home/alice:/bin/bash" +:+ PyStr.nl +:+
  "averylongusername:x:1001:1001::/home/avery:/bin/sh" +:+ PyStr.nl +:+
  "root:x:0:0:root:/root:/bin/bash" +:+ PyStr.nl.

Definition registry_example : CPUUsageMonitor :=
  {| ALIVE_USERS := ["alice"; "averylon"]; total_usage := ∅ |}.

Definition long_name_snapshot : logdir :=
  [("2024-01-01.log",
    File ("Date: 2024-01-01" +:+ PyStr.nl +:+ "alice 3600" +:+ PyStr.nl +:+
          "averylongusername 60" +:+ PyStr.nl))].

(** ** The registry *)

(** How many times [c] occurs in [s]. *)
Fixpoint count_char (c : ascii) (s : string) : nat :=
  match s with
  | EmptyString => 0
  | String a s' => (if Ascii.eqb a c then 1 else 0) + count_char c s'
  end.

(** ** Dates *)

(** The dates a [datetime.date] can hold, as far as their digits go. *)
Definition valid_date (t : date) : Prop :=
  1 ≤ year t < 10 * 1000 ∧ 1 ≤ month t ≤ 12 ∧ 1 ≤ day t ≤ 31.

(** [a] is a day before [b]. *)
Definition earlier (a b : date) : Prop :=
  year a < year b
  ∨ year a = year b
    ∧ (month a < month b ∨ month a = month b ∧ day a < day b).

(** Nine entries, the second oldest of which is a sub-directory. *)
Definition nine_with_folder : logdir :=
  [("2024-01-09.log", File EmptyString); ("2024-01-01.log", File EmptyString);
   ("2024-01-03.log", File EmptyString); ("2024-01-02.log", Directory);
   ("2024-01-05.log", File EmptyString); ("2024-01-04.log", File EmptyString);
   ("2024-01-07.log", File EmptyString); ("2024-01-06.log", File EmptyString);
   ("2024-01-08.log", File EmptyString)].

(** The days of [nine_days], in its order. *)
Definition nine_dates : list date :=
  (λ n, {| year := 2024; month := 1; day := n |}) <$> [9; 1; 3; 2; 5; 4; 7; 6; 8].

(** ** Files and their records *)

(** The text of an entry that is a regular file. *)
Definition file_content (e : entry) : option string :=
  match e with File content => Some content | Directory => None end.

(** The texts of the regular files among [files], in that order. *)
Definition contents_of (d : logdir) (files : list string) : list string :=
  omap (λ name, lookup_entry name d ≫= file_content) files.

(** The texts parsed one after the other, each record added to the
    total so far. *)
Fixpoint merge_texts (self : CPUUsageMonitor) (total : usage)
    (texts : list string) : result usage :=
  match texts with
  | [] => Return total
  | content :: rest =>
      daily ← parse_text self content;
      merge_texts self (add_daily total daily) rest
  end.

(** Two snapshots and a sub-directory between them. *)
Definition two_days_and_folder : logdir :=
  [("2024-01-01.log", File ("alice 0.1" +:+ PyStr.nl));
   ("old", Directory);
   ("2024-01-02.log", File ("alice 0.2" +:+ PyStr.nl))].

(** ** Finite floats *)

(** Neither a NaN nor an infinity. *)
Definition finite (x : pyfloat) : bool :=
  match x with Ffin _ _ _ => true | _ => false end.

(** The magnitude of a finite float, in units of [2^-1074]. *)
Definition mag (x : pyfloat) : Z :=
  match x with Ffin _ m e => (m * 2 ^ (e + 1074))%Z | _ => 0%Z end.

(** A finite float whose mantissa and exponent are those of a binary64
    value. *)
Definition in_range (x : pyfloat) : Prop :=
  ∃ s m e, x = Ffin s m e ∧ (0 <= m < 2 ^ 53)%Z ∧ (emin <= e <= emax)%Z.

(** The largest finite binary64 value, a whole number. *)
Definition max_float : Z := ((2 ^ 53 - 1) * 2 ^ 971)%Z.

(** The value of a finite float with its sign, in units of [2^-1074]. *)
Definition smag (x : pyfloat) : Z :=
  match x with Ffin s m e => signed s (m * 2 ^ (e + 1074))%Z | _ => 0%Z end.

(** ** The specification's data lines *)

(** A well-formed data line in the words of the specification: a data
    line whose second field is a valid number, finite and not negative;
    its identity and its value. *)
Definition spec_well_formed (line : string) : option (string * pyfloat) :=
  match data_line line with
  | Some (user, field) =>
      match of_string field with
      | Return x => if finite x && leb zero x then Some (user, x) else None
      | Raise _ => None
      end
  | None => None
  end.

(** The values of the well-formed data lines of [user], in line order. *)
Definition spec_readings (user : string) (lines : list string) : list pyfloat :=
  omap (λ line, spec_well_formed line ≫= λ ux,
                if decide (ux.1 = user) then Some ux.2 else None) lines.

(** A reading that is not a number, and a good line followed by a bad
    one for the same user. *)
Definition nan_snapshot : string := "alice nan" +:+ PyStr.nl.

Definition half_malformed_snapshot : string :=
  "alice 1800" +:+ PyStr.nl +:+ "alice oops" +:+ PyStr.nl.

(** ** The records of a directory *)

(** The records of the regular files of the directory, one for each
    file that parses, in listing order. *)
Definition records_of (self : CPUUsageMonitor) (d : logdir) : list usage :=
  omap (λ content, to_option (parse_text self content))
       (contents_of d (listdir d)).


(** * Properties *)

(** ** The float model against the kernel's binary64

    On the values the examples below use, the model computes what the
    machine computes. *)

Example float_reads :
  of_string "0.1" = Return f0_1 ∧ of_string "0.2" = Return f0_2
  ∧ of_string "0.3" = Return f0_3 ∧ of_string "0.6" = Return f0_6
  ∧ of_string "0.6000000000000001" = Return f0_6_up
  ∧ of_string "3600" = Return f3600 ∧ of_string "5400" = Return f5400
  ∧ of_string "1e30" = Return f1e30 ∧ of_string "-5" = Return minus_five
  ∧ of_string "9007199254740992" = Return two_53.
Proof. repeat split; vm_compute; reflexivity. Qed.

Example float_rejects :
  of_string "notanumber" = Raise ValueError
  ∧ of_string "1__0" = Raise ValueError ∧ of_string "1e" = Raise ValueError
  ∧ of_string "0x10" = Raise ValueError ∧ of_string "." = Raise ValueError
  ∧ of_string EmptyString = Raise ValueError.
Proof. repeat split; vm_compute; reflexivity. Qed.

Example add_agrees_0_1_0_2 :
  of_prim (PrimFloat.add (to_prim f0_1) (to_prim f0_2)) = add f0_1 f0_2.
Proof. vm_compute. reflexivity. Qed.

Example add_agrees_0_3_0_3 :
  of_prim (PrimFloat.add (to_prim (add f0_1 f0_2)) (to_prim f0_3))
  = add (add f0_1 f0_2) f0_3.
Proof. vm_compute. reflexivity. Qed.

Example add_agrees_0_5_0_1 :
  of_prim (PrimFloat.add (to_prim (add f0_3 f0_2)) (to_prim f0_1))
  = add (add f0_3 f0_2) f0_1.
Proof. vm_compute. reflexivity. Qed.

Example sub_agrees_1e30 :
  of_prim (PrimFloat.sub (to_prim f1e30) (to_prim (fmod f1e30 (of_Z 3600))))
  = sub f1e30 (fmod f1e30 (of_Z 3600)).
Proof. vm_compute. reflexivity. Qed.

Example div_agrees_1e30 :
  of_prim (PrimFloat.div (to_prim (sub f1e30 (fmod f1e30 (of_Z 3600))))
                         (to_prim (of_Z 3600)))
  = div (sub f1e30 (fmod f1e30 (of_Z 3600))) (of_Z 3600).
Proof. vm_compute. reflexivity. Qed.

Example div_agrees_5400 :
  of_prim (PrimFloat.div (to_prim f5400) (to_prim (of_Z 3600)))
  = div f5400 (of_Z 3600).
Proof. vm_compute. reflexivity. Qed.

(** ** Retention: [clear_previous_logs] *)


Lemma lookup_entry_file (d : logdir) name :
  Forall (λ ne, isfile ne.2 = true) d → name ∈ listdir d →
  ∃ content, lookup_entry name d = Some (File content).
Proof.
  induction d as [|[n e] d IH]; intros Hall Hin.
  - inversion Hin.
  - inversion Hall as [|? ? He Hd]; subst. simpl in *.
    destruct (String.eqb n name) eqn:Hn.
    + destruct e as [c|]; [eauto | discriminate].
    + apply String.eqb_neq in Hn.
      apply elem_of_cons in Hin as [->|Hin]; [done | auto].
Qed.

Lemma listdir_filter (P : string → Prop) `{!∀ x, Decision (P x)} (d : logdir) :
  listdir (filter (λ ne, P ne.1) d) = filter P (listdir d).
Proof.
  unfold listdir. induction d as [|[n e] d IH]; [done|].
  rewrite filter_cons, fmap_cons, filter_cons. simpl.
  destruct (decide (P n)); [rewrite fmap_cons; simpl; f_equal|]; exact IH.
Qed.

Lemma remove_all_spec (names : list string) (d : logdir) :
  Forall (λ ne, isfile ne.2 = true) d → NoDup names → names ⊆ listdir d →
  remove_all names (Some d)
  = (Return (), Some (filter (λ ne, ne.1 ∉ names) d)).
Proof.
  revert d. induction names as [|name names IH]; intros d Hall Hnd Hsub.
  - simpl. unfold mret, io_ret. do 2 f_equal.
    symmetry. induction d as [|x d IHd]; [done|].
    rewrite filter_cons_True; [|apply not_elem_of_nil].
    f_equal. apply IHd; [by inversion Hall | set_solver].
  - apply NoDup_cons in Hnd as [Hnotin Hnd].
    destruct (lookup_entry_file d name Hall) as [c Hc]; [set_solver|].
    cbn [remove_all]. unfold mbind, io_bind, os_remove. rewrite Hc.
    rewrite IH; [| | done |].
    2:{ apply Forall_forall. intros x [_ Hx]%list_elem_of_filter.
        by eapply Forall_forall in Hall. }
    + do 2 f_equal. rewrite list_filter_filter.
      apply list_filter_iff. intros [n e]. simpl.
      rewrite not_elem_of_cons. tauto.
    + intros x Hx.
      pose proof (listdir_filter (λ n, n ≠ name) d) as Hf. simpl in Hf.
      rewrite Hf. apply list_elem_of_filter. set_solver.
Qed.

Lemma sort_names_perm files : sort_names files ≡ₚ files.
Proof. apply merge_sort_Permutation. Qed.

Lemma sort_names_sorted files : StronglySorted String.le (sort_names files).
Proof. apply StronglySorted_merge_sort; apply _. Qed.

Lemma clear_previous_logs_run (d : logdir) :
  snapshot_store d →
  clear_previous_logs (Some d) = (Return (), Some (survivors d)).
Proof.
  intros [Hnd Hall]. unfold clear_previous_logs, survivors, mbind, io_bind. simpl.
  destruct (7 <? length (listdir d))%nat eqn:Hlen; [|done].
  apply remove_all_spec; [done|..].
  - eapply NoDup_Permutation_proper in Hnd; [|apply sort_names_perm].
    rewrite <- (take_drop (length (sort_names (listdir d)) - 7)) in Hnd.
    by apply NoDup_app in Hnd as [? _].
  - intros x Hx. apply subseteq_take in Hx.
    by rewrite sort_names_perm in Hx.
Qed.

Lemma survivors_length (d : logdir) :
  NoDup (listdir d) → length (survivors d) = Nat.min 7 (length d).
Proof.
  intros Hnd. unfold survivors.
  assert (length (listdir d) = length d) as Hl
    by (unfold listdir; apply length_fmap).
  destruct (7 <? length (listdir d))%nat eqn:Hlen.
  2:{ apply Nat.ltb_ge in Hlen. lia. }
  apply Nat.ltb_lt in Hlen.
  set (files := sort_names (listdir d)).
  assert (length files = length d) as Hfl.
  { unfold files. rewrite sort_names_perm. done. }
  assert (NoDup files) as Hndf by (unfold files; by rewrite sort_names_perm).
  assert (length (filter (λ n, n ∉ take (length files - 7) files) (listdir d)) = 7%nat) as H7.
  { assert (filter (λ n, n ∉ take (length files - 7) files) (listdir d)
            ≡ₚ drop (length files - 7) files) as ->.
    { apply NoDup_Permutation.
      - by apply NoDup_filter.
      - rewrite <- (take_drop (length files - 7) files) in Hndf.
        by apply NoDup_app in Hndf as (_ & _ & ?).
      - intros x. rewrite list_elem_of_filter.
        rewrite <- (take_drop (length files - 7) files) in Hndf.
        apply NoDup_app in Hndf as (_ & Hdisj & _).
        assert (x ∈ listdir d ↔ x ∈ take (length files - 7) files ∨ x ∈ drop (length files - 7) files) as ->.
        { rewrite <- elem_of_app, take_drop. unfold files. by rewrite sort_names_perm. }
        split; [intros [? [?|?]]; done | intros ?; split; [|by right]].
        intros ?. by eapply Hdisj. }
    rewrite length_drop. lia. }
  pose proof (listdir_filter (λ n, n ∉ take (length files - 7) files) d) as Hf.
  simpl in Hf. rewrite <- Hf in H7.
  unfold listdir in H7. rewrite length_fmap in H7. rewrite H7. lia.
Qed.

Lemma survivors_newest (d : logdir) x y :
  NoDup (listdir d) →
  x ∈ listdir d → x ∉ listdir (survivors d) → y ∈ listdir (survivors d) →
  String.le x y ∧ x ≠ y.
Proof.
  intros Hnd Hx Hxs Hy. unfold survivors in *.
  destruct (7 <? length (listdir d))%nat eqn:Hlen; [|done].
  set (files := sort_names (listdir d)) in *.
  pose proof (listdir_filter (λ n, n ∉ take (length files - 7) files) d) as Hf.
  simpl in Hf. rewrite Hf in Hxs, Hy.
  assert (x ∈ take (length files - 7) files) as Hxt.
  { destruct (decide (x ∈ take (length files - 7) files)); [done|].
    exfalso. apply Hxs. by apply list_elem_of_filter. }
  apply list_elem_of_filter in Hy as [Hyt Hyd].
  assert (y ∈ drop (length files - 7) files) as Hyd'.
  { assert (y ∈ files) as Hyf by (unfold files; by rewrite sort_names_perm).
    rewrite <- (take_drop (length files - 7) files) in Hyf.
    apply elem_of_app in Hyf as [?|?]; done. }
  split; [|by intros ->].
  pose proof (sort_names_sorted (listdir d)) as Hs. fold files in Hs.
  rewrite <- (take_drop (length files - 7) files) in Hs.
  by eapply StronglySorted_app_1_elem_of.
Qed.


Lemma survivors_sublist (d : logdir) : survivors d `sublist_of` d.
Proof.
  unfold survivors. destruct (7 <? length (listdir d))%nat; [|done].
  apply sublist_filter.
Qed.

Lemma survivors_store (d : logdir) : snapshot_store d → snapshot_store (survivors d).
Proof.
  intros [Hnd Hall]. pose proof (survivors_sublist d) as Hsub. split.
  - eapply sublist_NoDup; [exact Hnd|]. unfold listdir. by apply fmap_sublist.
  - apply Forall_forall. intros x Hx.
    eapply Forall_forall in Hall; [exact Hall|]. by eapply elem_of_sublist.
Qed.

Lemma survivors_small (d : logdir) : (length d ≤ 7)%nat → survivors d = d.
Proof.
  intros Hlen. unfold survivors, listdir. rewrite length_fmap.
  destruct (7 <? length d)%nat eqn:H7; [|done].
  apply Nat.ltb_lt in H7. lia.
Qed.

Ltac by_evaluation := apply (bool_decide_unpack _); vm_compute; exact I.

(** C2: on a directory of snapshot files, [clear_previous_logs] returns
    and leaves at most 7 files, namely [min 7 n] of the [n] it found,
    unchanged; every file it removed is lexically strictly below every
    file it kept, so the survivors are the 7 lexically greatest; and a
    directory of at most 7 files is left as it is. *)
Theorem clear_previous_logs_keeps_newest (d : logdir) :
  snapshot_store d →
  ∃ d', clear_previous_logs (Some d) = (Return (), Some d')
    ∧ (length d' ≤ 7)%nat
    ∧ length d' = Nat.min 7 (length d)
    ∧ d' `sublist_of` d
    ∧ (∀ x y, x ∈ listdir d → x ∉ listdir d' → y ∈ listdir d' →
              String.le x y ∧ x ≠ y)
    ∧ ((length d ≤ 7)%nat → d' = d).
Proof.
  intros Hs. exists (survivors d). destruct Hs as [Hnd Hall].
  pose proof (survivors_length d Hnd) as Hlen.
  split; [by apply clear_previous_logs_run|].
  split; [lia|]. split; [done|]. split; [apply survivors_sublist|].
  split; [|apply survivors_small].
  intros x y ???. by apply (survivors_newest d).
Qed.

Lemma clear_previous_logs_keeps_newest_witness :
  ∃ d', clear_previous_logs (Some nine_days) = (Return (), Some d')
    ∧ (length d' ≤ 7)%nat
    ∧ length d' = Nat.min 7 (length nine_days)
    ∧ d' `sublist_of` nine_days
    ∧ (∀ x y, x ∈ listdir nine_days → x ∉ listdir d' → y ∈ listdir d' →
              String.le x y ∧ x ≠ y)
    ∧ ((length nine_days ≤ 7)%nat → d' = nine_days).
Proof.
  apply (clear_previous_logs_keeps_newest nine_days).
  split; by_evaluation.
Defined.

(** C7: on a directory of snapshot files, a second run of
    [clear_previous_logs] right after a first one returns and leaves
    the directory exactly as the first run left it. *)
Theorem clear_previous_logs_idempotent (d : logdir) :
  snapshot_store d →
  ∃ d', clear_previous_logs (Some d) = (Return (), Some d')
    ∧ clear_previous_logs (Some d') = (Return (), Some d').
Proof.
  intros Hs. exists (survivors d). split; [by apply clear_previous_logs_run|].
  rewrite clear_previous_logs_run by (by apply survivors_store).
  do 2 f_equal. apply survivors_small.
  destruct Hs as [Hnd _]. rewrite survivors_length by done. lia.
Qed.

Lemma clear_previous_logs_idempotent_witness :
  ∃ d', clear_previous_logs (Some nine_days) = (Return (), Some d')
    ∧ clear_previous_logs (Some d') = (Return (), Some d').
Proof.
  apply (clear_previous_logs_idempotent nine_days).
  split; by_evaluation.
Defined.

(** ** Parsing: [parse_log] *)

Lemma parse_line_unfold self m line :
  parse_line self m line =
  match data_line line with
  | Some (user, field) =>
      if decide (allowed self user) then
        cpu_time ← of_string field;
        Return (<[user := add (default zero (m !! user)) cpu_time]> m)
      else Return m
  | None => Return m
  end.
Proof.
  unfold parse_line, data_line.
  destruct (PyStr.truthy _ && negb _); [|done].
  destruct (PyStr.split line) as [|user [|field rest]]; [done..|].
  unfold allowed. destruct (decide (user ∈ ALIVE_USERS self ∧ user ∉ IGNORANT_USERS)) as [[Ha Hi]|Hn].
  - rewrite (bool_decide_eq_true_2 _ Ha), (bool_decide_eq_false_2 _ Hi). done.
  - destruct (decide (user ∈ ALIVE_USERS self)) as [Ha|Ha].
    + rewrite (bool_decide_eq_true_2 _ Ha).
      destruct (decide (user ∈ IGNORANT_USERS)) as [Hi|Hi]; [|tauto].
      by rewrite (bool_decide_eq_true_2 _ Hi).
    + by rewrite (bool_decide_eq_false_2 _ Ha).
Qed.

Lemma returns_Return {A} (a : A) : returns (Return a).
Proof. by exists a. Qed.

Lemma returns_Raise {A} (e : pyexn) : ¬ returns (@Raise A e).
Proof. by intros [a ?]. Qed.

(** [parse_lines] returns exactly when [float] accepts the second field
    of every data line of an allowed user. *)
Lemma parse_lines_returns self m0 lines :
  returns (parse_lines self m0 lines) ↔
  ∀ line user field,
    line ∈ lines → data_line line = Some (user, field) → allowed self user →
    returns (of_string field).
Proof.
  revert m0. induction lines as [|line lines IH]; intros m0.
  - split; [intros _ ? ? ? []%elem_of_nil | intros; apply returns_Return].
  - cbn [parse_lines]. rewrite parse_line_unfold.
    destruct (data_line line) as [[user field]|] eqn:Hd.
    + destruct (decide (allowed self user)) as [Ha|Ha].
      * destruct (of_string field) as [e|x] eqn:Hf; simpl.
        -- split; [by intros ?%returns_Raise|].
           intros H. exfalso. eapply (returns_Raise (A:=pyfloat)).
           rewrite <- Hf. eapply H; [apply list_elem_of_here|done..].
        -- rewrite IH. split; intros H l u f Hin Hl Hu.
           ++ apply elem_of_cons in Hin as [->|Hin]; [|eauto].
              rewrite Hd in Hl. injection Hl as <- <-. rewrite Hf. apply returns_Return.
           ++ eapply H; [by apply list_elem_of_further|done..].
      * simpl. rewrite IH. split; intros H l u f Hin Hl Hu.
        -- apply elem_of_cons in Hin as [->|Hin]; [|eauto].
           rewrite Hd in Hl. injection Hl as <- <-. done.
        -- eapply H; [by apply list_elem_of_further|done..].
    + simpl. rewrite IH. split; intros H l u f Hin Hl Hu.
      * apply elem_of_cons in Hin as [->|Hin]; [|eauto]. congruence.
      * eapply H; [by apply list_elem_of_further|done..].
Qed.

(** The value [parse_lines] leaves for a user: untouched for a user that
    is not allowed or has no data line, and otherwise the left-to-right
    sum of its readings on top of what was there. *)
Lemma parse_lines_lookup self m0 lines m user :
  parse_lines self m0 lines = Return m →
  m !! user =
  if decide (allowed self user) then
    match readings user lines with
    | [] => m0 !! user
    | vs => Some (fsum (default zero (m0 !! user)) vs)
    end
  else m0 !! user.
Proof.
  destruct (decide (allowed self user)) as [Hu|Hu];
    revert m0; induction lines as [|line lines IH]; intros m0 Hp.
  1,3: simpl in Hp; by injection Hp as <-.
  all: cbn [parse_lines] in Hp; rewrite parse_line_unfold in Hp;
    unfold readings in *; cbn [omap list_omap]; try unfold field_of at 1;
    (destruct (data_line line) as [[u field]|] eqn:Hd; simpl;
     [|simpl in Hp; by apply IH]);
    (destruct (decide (allowed self u)) as [Ha|Ha];
     [destruct (of_string field) as [e|x] eqn:Hf; [done|]|]);
    simpl in Hp; apply IH in Hp; rewrite Hp; clear Hp.
  - destruct (decide (u = user)) as [->|Hne]; simpl.
    + rewrite Hf. simpl. rewrite lookup_insert_eq. simpl.
      by destruct (omap _ lines).
    + by rewrite lookup_insert_ne.
  - destruct (decide (u = user)) as [->|Hne]; simpl; done.
  - destruct (decide (u = user)) as [->|Hne]; [done|].
    by rewrite lookup_insert_ne.
  - done.
Qed.

Lemma parse_log_inv self file_path fs m fs' :
  parse_log self file_path fs = (Return m, fs') →
  fs' = fs ∧ ∃ d content,
    fs = Some d ∧ lookup_entry file_path d = Some (File content)
    ∧ parse_text self content = Return m.
Proof.
  unfold parse_log, mbind, io_bind, read_file, pure_result.
  destruct fs as [d|]; [|done].
  destruct (lookup_entry file_path d) as [[content|]|] eqn:Hl; [|done..].
  intros [= Hp <-]. eauto 10.
Qed.

Lemma parse_log_file self file_path d content :
  lookup_entry file_path d = Some (File content) →
  parse_log self file_path (Some d) = (parse_text self content, Some d).
Proof.
  intros Hl. unfold parse_log, mbind, io_bind, read_file, pure_result.
  by rewrite Hl.
Qed.

(** Every key of a parsed record is an allowed user. *)
Lemma parse_text_allowed self content m user :
  parse_text self content = Return m → is_Some (m !! user) → allowed self user.
Proof.
  intros Hp Hs. rewrite (parse_lines_lookup _ _ _ _ user Hp) in Hs.
  destruct (decide (allowed self user)); [done|].
  rewrite lookup_empty in Hs. by destruct Hs.
Qed.

(** ** The allow list: [__init__] *)

Lemma take_length n s : String.length (PyStr.take n s) ≤ n.
Proof.
  revert s. induction n as [|n IH]; intros [|c s]; simpl; try lia.
  specialize (IH s). lia.
Qed.

Lemma scan_passwd_truncated isdir alive lines alive' :
  Forall (λ user, String.length user ≤ 8) alive →
  scan_passwd isdir alive lines = Return alive' →
  Forall (λ user, String.length user ≤ 8) alive'.
Proof.
  revert alive. induction lines as [|line lines IH]; intros alive Ha Hs.
  - by injection Hs as <-.
  - cbn [scan_passwd] in Hs. unfold scan_passwd_line in Hs.
    destruct (PyStr.split_on _ line !! 0%nat) as [username|]; [|done].
    destruct (PyStr.split_on _ line !! 5%nat) as [home|]; [|done].
    destruct (isdir home && PyStr.contains "home" home);
      cbn [mbind result_bind] in Hs.
    + eapply IH; [|exact Hs]. apply Forall_app. split; [done|].
      apply Forall_singleton, take_length.
    + by eapply IH.
Qed.

Lemma init_truncated isdir passwd self :
  __init__ isdir passwd = Return self →
  Forall (λ user, String.length user ≤ 8) (ALIVE_USERS self).
Proof.
  unfold __init__. destruct (scan_passwd isdir [] _) as [e|alive] eqn:Hs; [done|].
  simpl. intros [= <-]. simpl. by eapply scan_passwd_truncated.
Qed.

(** C9: when [self] is what [__init__] built from the account registry,
    every name of its allow list has at most 8 characters, every key of
    a mapping [parse_log] returns is a name of that list and so has at
    most 8 characters, and a user name of more than 8 characters is
    never a key of the result. *)
Theorem parse_log_users_at_most_8 isdir passwd self file_path fs m fs' :
  __init__ isdir passwd = Return self →
  parse_log self file_path fs = (Return m, fs') →
  Forall (λ user, String.length user ≤ 8) (ALIVE_USERS self)
  ∧ (∀ user, is_Some (m !! user) →
       user ∈ ALIVE_USERS self ∧ String.length user ≤ 8)
  ∧ (∀ user, 8 < String.length user → m !! user = None).
Proof.
  intros Hi Hp. pose proof (init_truncated _ _ _ Hi) as Ht.
  apply parse_log_inv in Hp as (_ & d & content & _ & _ & Hp).
  assert (∀ user, is_Some (m !! user) →
            user ∈ ALIVE_USERS self ∧ String.length user ≤ 8) as Hk.
  { intros user Hs. apply (parse_text_allowed _ _ _ _ Hp) in Hs as [Ha _].
    split; [done|]. by eapply Forall_forall in Ht. }
  split; [done|]. split; [done|].
  intros user Hlen. destruct (m !! user) eqn:Hm; [|done].
  destruct (Hk user) as [_ ?]; [by rewrite Hm|lia].
Qed.

Lemma parse_log_users_at_most_8_witness :
  Forall (λ user, String.length user ≤ 8) (ALIVE_USERS registry_example)
  ∧ (∀ user, is_Some (({[ "alice" := Ffin false 7916483719987200 (-41) ]} : usage) !! user) →
       user ∈ ALIVE_USERS registry_example ∧ String.length user ≤ 8)
  ∧ (∀ user, 8 < String.length user →
       ({[ "alice" := Ffin false 7916483719987200 (-41) ]} : usage) !! user = None).
Proof.
  apply (parse_log_users_at_most_8 (λ _, true) passwd_example registry_example
           "2024-01-01.log" (Some long_name_snapshot) _ (Some long_name_snapshot)).
  - vm_compute. reflexivity.
  - vm_compute. reflexivity.
Defined.

(** ** Aggregation: [aggregate_cpu_usage] *)

Lemma add_items_lookup (items : list (string * pyfloat)) (total : usage) user :
  NoDup items.*1 →
  foldl (λ tot uc, <[uc.1 := add (default zero (tot !! uc.1)) uc.2]> tot)
        total items !! user
  = match (list_to_map items : usage) !! user with
    | Some cpu_time => Some (add (default zero (total !! user)) cpu_time)
    | None => total !! user
    end.
Proof.
  revert total. induction items as [|[k c] items IH]; intros total Hnd.
  - done.
  - rewrite fmap_cons in Hnd. apply NoDup_cons in Hnd as [Hk Hnd].
    cbn [foldl list_to_map]. rewrite IH by done. simpl.
    destruct (decide (k = user)) as [->|Hne].
    + rewrite (not_elem_of_list_to_map_1 _ _ Hk).
      by rewrite !lookup_insert_eq.
    + by rewrite !lookup_insert_ne.
Qed.

(** One day added to the total: a user of the day gets its value added
    to what it had (or to 0), the others keep theirs. *)
Lemma add_daily_lookup (total daily : usage) user :
  add_daily total daily !! user
  = match daily !! user with
    | Some cpu_time => Some (add (default zero (total !! user)) cpu_time)
    | None => total !! user
    end.
Proof.
  unfold add_daily. rewrite add_items_lookup by apply NoDup_fst_map_to_list.
  by rewrite list_to_map_to_list.
Qed.

Lemma add_daily_is_Some (total daily : usage) user :
  is_Some (add_daily total daily !! user)
  ↔ is_Some (total !! user) ∨ is_Some (daily !! user).
Proof.
  rewrite add_daily_lookup. destruct (daily !! user) as [c|].
  - split; [intros _; right; eauto | eauto].
  - split; [by left | intros [?|[? ?]]; done].
Qed.

(** The value of a user in the merge of [records] on top of [total]:
    its values in the records that mention it, added from the left. *)
Lemma foldl_add_daily_lookup (records : list usage) (total : usage) user :
  foldl add_daily total records !! user
  = match omap (.!! user) records with
    | [] => total !! user
    | vs => Some (fsum (default zero (total !! user)) vs)
    end.
Proof.
  revert total. induction records as [|r records IH]; intros total; [done|].
  cbn [foldl omap list_omap]. rewrite IH, add_daily_lookup.
  destruct (r !! user) as [c|]; simpl; [|done].
  by destruct (omap _ records).
Qed.

Lemma aggregate_files_spec self files total fs t fs' :
  aggregate_files self total files fs = (Return t, fs') →
  fs' = fs ∧ ∃ records,
    t = foldl add_daily total records
    ∧ Forall (λ r, ∃ file_path, parse_log self file_path fs = (Return r, fs)) records.
Proof.
  revert total. induction files as [|file_name files IH]; intros total Ha.
  - injection Ha as <- <-. split; [done|]. by exists [].
  - cbn [aggregate_files] in Ha. unfold mbind at 1, io_bind at 1 in Ha.
    unfold os_path_isfile in Ha.
    destruct (fs ≫= lookup_entry file_name) as [[c|]|].
    2,3: apply IH in Ha as (-> & records & -> & Hr); by eauto.
    unfold mbind at 1, io_bind at 1 in Ha.
    destruct (parse_log self file_name fs) as [[e|daily] fs1] eqn:Hp; [done|].
    apply parse_log_inv in Hp as Hp'. destruct Hp' as [-> _].
    apply IH in Ha as (-> & records & -> & Hr).
    split; [done|]. exists (daily :: records). split; [done|].
    constructor; eauto.
Qed.

Lemma aggregate_cpu_usage_spec self fs self' total fs' :
  aggregate_cpu_usage self fs = (Return (self', total), fs') →
  fs' = fs ∧ total_usage self' = total ∧ ALIVE_USERS self' = ALIVE_USERS self
  ∧ ∃ records,
      total = aggregate records
      ∧ Forall (λ r, ∃ file_path, parse_log self file_path fs = (Return r, fs)) records.
Proof.
  unfold aggregate_cpu_usage, mbind at 1, io_bind at 1, os_listdir.
  destruct fs as [d|]; [|done].
  unfold mbind, io_bind.
  destruct (aggregate_files self ∅ (listdir d) (Some d)) as [[e|t] fs1] eqn:Ha; [done|].
  intros [= <- <- <-]. apply aggregate_files_spec in Ha as (-> & records & -> & Hr).
  eauto 10.
Qed.

Lemma foldl_add_daily_allowed self (records : list usage) (total : usage) user :
  Forall (λ r, ∃ file_path fs fs',
            parse_log self file_path fs = (Return r, fs')) records →
  is_Some (foldl add_daily total records !! user) →
  is_Some (total !! user) ∨ allowed self user.
Proof.
  intros Hr. revert total.
  induction Hr as [|r records (path & fs & fs' & Hp) Hr IH]; intros total Hs;
    [by left|].
  cbn [foldl] in Hs. apply IH in Hs as [Hs|?]; [|by right].
  apply add_daily_is_Some in Hs as [?|Hs]; [by left|right].
  apply parse_log_inv in Hp as (_ & d & content & _ & _ & Hp).
  by eapply parse_text_allowed.
Qed.

Lemma aggregate_allowed self (records : list usage) user :
  Forall (λ r, ∃ file_path fs fs',
            parse_log self file_path fs = (Return r, fs')) records →
  is_Some (aggregate records !! user) → allowed self user.
Proof.
  intros Hr Hs. apply (foldl_add_daily_allowed self) in Hs as [Hs|?]; [|done..].
  rewrite lookup_empty in Hs. by destruct Hs.
Qed.

Lemma readings_nonempty user lines :
  readings user lines ≠ [] ↔
  ∃ line field x, line ∈ lines ∧ data_line line = Some (user, field)
                  ∧ of_string field = Return x.
Proof.
  unfold readings. induction lines as [|line lines IH].
  - split; [done|]. by intros (? & ? & ? & []%elem_of_nil & _).
  - cbn [omap list_omap]. unfold field_of at 1.
    destruct (data_line line) as [[u field]|] eqn:Hd; simpl.
    2:{ rewrite IH. split; intros (l & f & x & Hin & Hl & Hx).
        - exists l, f, x. split; [by apply list_elem_of_further|done].
        - apply elem_of_cons in Hin as [->|Hin]; [congruence|eauto 10]. }
    destruct (decide (u = user)) as [->|Hne]; simpl.
    + destruct (of_string field) as [e|x] eqn:Hf; simpl.
      * rewrite IH. split; intros (l & f & y & Hin & Hl & Hx).
        -- exists l, f, y. split; [by apply list_elem_of_further|done].
        -- apply elem_of_cons in Hin as [->|Hin]; [congruence|eauto 10].
      * split; [|done]. intros _. exists line, field, x.
        split; [apply list_elem_of_here|done].
    + rewrite IH. split; intros (l & f & x & Hin & Hl & Hx).
      * exists l, f, x. split; [by apply list_elem_of_further|done].
      * apply elem_of_cons in Hin as [->|Hin]; [congruence|eauto 10].
Qed.

(** ** Facts on floats *)

Section FloatFacts.
Local Open Scope Z_scope.

Lemma signed_mul s m p : signed s (m * p) = signed s m * p.
Proof. destruct s; simpl; lia. Qed.

Lemma nonneg_fin s m e : nonneg (Ffin s m e) ↔ 0 <= signed s m.
Proof.
  unfold nonneg, PyFloat.leb, zero, num, den.
  rewrite Z.leb_le, !signed_mul. simpl (signed false 0).
  assert (0 < 2 ^ Z.max 0 e) as Hp by (apply Z.pow_pos_nonneg; lia).
  assert (0 < 2 ^ Z.max 0 (- emin)) as Hq by (apply Z.pow_pos_nonneg; lia).
  revert Hp Hq. generalize (2 ^ Z.max 0 e) (2 ^ Z.max 0 (- emin)) (signed s m).
  intros p q x Hp Hq. rewrite !Z.mul_0_l.
  split; intros Hx; [|repeat apply Z.mul_nonneg_nonneg; lia].
  destruct (decide (0 <= x)); [done|].
  assert (x * p * q < 0); [|lia].
  apply Z.mul_neg_pos; [|done]. apply Z.mul_neg_pos; lia.
Qed.

Lemma zero_nonneg : nonneg zero.
Proof. by apply nonneg_fin. Qed.

Lemma div_half_even_nonneg n d : 0 <= n → 0 < d → 0 <= div_half_even n d.
Proof.
  intros Hn Hd. unfold div_half_even.
  assert (0 <= n / d) by (apply Z.div_pos; lia).
  repeat case_match; lia.
Qed.

Lemma round_nonneg n d : 0 <= n → 0 < d → nonneg (round false n d).
Proof.
  intros Hn Hd. unfold round.
  destruct (n =? 0); [by apply nonneg_fin|].
  set (e1 := Z.max _ emin).
  set (e := if _ <? 2 ^ prec then e1 else e1 + 1).
  assert (0 <= div_half_even (scaled_num n e) (scaled_den d e)) as Hm.
  { apply div_half_even_nonneg; unfold scaled_num, scaled_den.
    - apply Z.mul_nonneg_nonneg; [done|]. apply Z.pow_nonneg. lia.
    - apply Z.mul_pos_pos; [done|]. apply Z.pow_pos_nonneg; lia. }
  destruct (_ =? 2 ^ prec); destruct (emax <? _); try done;
    apply nonneg_fin; simpl; [|done]. by compute.
Qed.

(** A sum of two non-negative floats is non-negative. *)
Lemma add_nonneg x y : nonneg x → nonneg y → nonneg (add x y).
Proof.
  destruct x as [|s1|s1 m1 e1], y as [|s2|s2 m2 e2]; try done.
  - unfold nonneg. simpl. destruct s1, s2; done.
  - intros Hx Hy. apply nonneg_fin in Hx, Hy. unfold add.
    set (e := Z.min e1 e2).
    assert (0 <= signed s1 (m1 * 2 ^ (e1 - e))) as H1.
    { rewrite signed_mul. apply Z.mul_nonneg_nonneg; [done|]. apply Z.pow_nonneg. lia. }
    assert (0 <= signed s2 (m2 * 2 ^ (e2 - e))) as H2.
    { rewrite signed_mul. apply Z.mul_nonneg_nonneg; [done|]. apply Z.pow_nonneg. lia. }
    destruct (_ =? 0) eqn:H0; [apply nonneg_fin; by destruct (s1 && s2)|].
    replace (_ <? 0) with false by (symmetry; apply Z.ltb_ge; lia).
    apply round_nonneg; unfold num, den.
    + apply Z.mul_nonneg_nonneg; [lia|]. apply Z.pow_nonneg. lia.
    + apply Z.pow_pos_nonneg; lia.
Qed.

Lemma fsum_nonneg start vs :
  nonneg start → Forall nonneg vs → nonneg (fsum start vs).
Proof.
  intros Hs Hv. revert start Hs. unfold fsum.
  induction Hv as [|v vs Hv _ IH]; intros start Hs; [done|].
  simpl. apply IH. by apply add_nonneg.
Qed.

End FloatFacts.

(** [float] raises nothing but [ValueError]. *)
Lemma of_string_raises field e : of_string field = Raise e → e = ValueError.
Proof.
  unfold of_string. repeat case_match; congruence.
Qed.

Lemma parse_lines_raises self m0 lines e :
  parse_lines self m0 lines = Raise e → e = ValueError.
Proof.
  revert m0. induction lines as [|line lines IH]; intros m0; [done|].
  cbn [parse_lines]. rewrite parse_line_unfold.
  destruct (data_line line) as [[user field]|]; [|by apply IH].
  destruct (decide (allowed self user)); [|by apply IH].
  destruct (of_string field) as [e'|x] eqn:Hf; [|by apply IH].
  intros [= <-]. by eapply of_string_raises.
Qed.

Lemma readings_elem user lines x :
  x ∈ readings user lines →
  ∃ line field, line ∈ lines ∧ data_line line = Some (user, field)
                ∧ of_string field = Return x.
Proof.
  unfold readings. intros (line & Hin & Hx)%list_elem_of_omap.
  unfold field_of in Hx. destruct (data_line line) as [[u field]|] eqn:Hd; [|done].
  destruct (decide (u = user)) as [->|]; [|done]. simpl in Hx.
  destruct (of_string field) as [|y] eqn:Hf; [done|]. injection Hx as ->.
  eauto 10.
Qed.

(** ** Malformed lines (C1) *)

(** C1, as stated, fails: with [alice] and [bob] both allowed, the
    second field of [bob notanumber] reaches [float], which raises
    [ValueError], and [parse_log] raises with it instead of returning
    [{alice: 3600}]. *)
Lemma parse_log_malformed_raises :
  parse_log alice_bob "2024-01-01.log" (one_file malformed_snapshot)
  = (Raise ValueError, one_file malformed_snapshot).
Proof. vm_compute. reflexivity. Qed.

(** C1, amended: on an existing file [parse_log] either returns a
    mapping or raises [ValueError], and leaves the directory as it is;
    it returns exactly when [float] accepts the second field of every
    data line whose first field is in AllowSet and not in DenySet; a
    line that is blank, starts with [Date:], has fewer than two fields
    or names a user that is not allowed is skipped whatever else it
    holds; so with [alice] alone allowed the lines [alice 3600] and
    [bob notanumber] parse to [{alice: 3600.0}]. *)
Theorem parse_log_skips_or_raises self file_path d content :
  lookup_entry file_path d = Some (File content) →
  (parse_log self file_path (Some d) = (Raise ValueError, Some d)
   ∨ ∃ m, parse_log self file_path (Some d) = (Return m, Some d))
  ∧ ((∃ m, parse_log self file_path (Some d) = (Return m, Some d)) ↔
     ∀ line user field,
       line ∈ PyStr.readlines content → data_line line = Some (user, field) →
       allowed self user → returns (of_string field))
  ∧ (∀ m line, data_line line = None → parse_line self m line = Return m)
  ∧ (∀ m line user field,
       data_line line = Some (user, field) → ¬ allowed self user →
       parse_line self m line = Return m)
  ∧ parse_log only_alice "2024-01-01.log" (one_file malformed_snapshot)
    = (Return {[ "alice" := f3600 ]}, one_file malformed_snapshot).
Proof.
  intros Hl. rewrite (parse_log_file _ _ _ _ Hl). unfold parse_text.
  split.
  { destruct (parse_lines self ∅ (PyStr.readlines content)) as [e|m] eqn:Hp; [|eauto].
    left. by rewrite (parse_lines_raises _ _ _ _ Hp). }
  split.
  { rewrite <- (parse_lines_returns self ∅). unfold returns.
    split; intros [m Hm]; exists m; congruence. }
  split.
  { intros m line Hd. rewrite parse_line_unfold. by rewrite Hd. }
  split.
  { intros m line user field Hd Ha. rewrite parse_line_unfold, Hd.
    by rewrite decide_False. }
  vm_compute. reflexivity.
Qed.

Lemma parse_log_skips_or_raises_witness :
  (∃ m, parse_log only_alice "2024-01-01.log" (one_file malformed_snapshot)
        = (Return m, one_file malformed_snapshot)) ↔
  ∀ line user field,
    line ∈ PyStr.readlines malformed_snapshot → data_line line = Some (user, field) →
    allowed only_alice user → returns (of_string field).
Proof.
  refine (proj1 (proj2 (parse_log_skips_or_raises only_alice "2024-01-01.log"
            [("2024-01-01.log", File malformed_snapshot)] malformed_snapshot _))).
  reflexivity.
Defined.

(** ** Signs (C3) *)

(** C3, as stated, fails: [float] accepts a minus sign, and nothing
    checks the sign of what it returns, so the line [alice -5] parses
    to [{alice: -5.0}], and the total over a directory holding that
    file alone is [{alice: -5.0}]. *)
Lemma parse_log_negative_value :
  parse_log only_alice "2024-01-01.log" (one_file negative_snapshot)
  = (Return {[ "alice" := minus_five ]}, one_file negative_snapshot)
  ∧ aggregate_cpu_usage only_alice (one_file negative_snapshot)
    = (Return ({| ALIVE_USERS := ["alice"];
                  total_usage := {[ "alice" := minus_five ]} |},
               {[ "alice" := minus_five ]}),
       one_file negative_snapshot)
  ∧ negative minus_five ∧ ¬ nonneg minus_five.
Proof. repeat split; [vm_compute; reflexivity..|]. by vm_compute. Qed.

Lemma parse_log_nonneg self file_path fs m fs' content :
  parse_log self file_path fs = (Return m, fs') →
  read_file file_path fs = (Return content, fs) →
  (∀ line user field x,
     line ∈ PyStr.readlines content → data_line line = Some (user, field) →
     allowed self user → of_string field = Return x → nonneg x) →
  ∀ user cpu_time, m !! user = Some cpu_time → nonneg cpu_time.
Proof.
  intros Hp Hr Hnn user cpu_time Hm.
  apply parse_log_inv in Hp as (-> & d & content' & -> & Hl & Hp).
  unfold read_file in Hr. rewrite Hl in Hr. injection Hr as ->.
  unfold parse_text in Hp.
  rewrite (parse_lines_lookup _ _ _ _ user Hp), lookup_empty in Hm.
  destruct (decide (allowed self user)) as [Ha|]; [|done].
  destruct (readings user (PyStr.readlines content)) as [|v vs] eqn:Hrd; [done|].
  change (default zero None) with zero in Hm.
  assert (cpu_time = fsum zero (v :: vs)) as -> by congruence.
  apply fsum_nonneg; [apply zero_nonneg|].
  apply Forall_forall. intros x Hx. rewrite <- Hrd in Hx.
  apply readings_elem in Hx as (line & field & Hin & Hd & Hf). eauto.
Qed.

Lemma aggregate_nonneg (records : list usage) :
  Forall (λ r : usage, ∀ user cpu_time, r !! user = Some cpu_time → nonneg cpu_time)
         records →
  ∀ user cpu_time, aggregate records !! user = Some cpu_time → nonneg cpu_time.
Proof.
  intros Hr user cpu_time Hm. unfold aggregate in Hm.
  rewrite foldl_add_daily_lookup, lookup_empty in Hm.
  destruct (omap (.!! user) records) as [|v vs] eqn:Ho; [done|].
  change (default zero None) with zero in Hm.
  assert (cpu_time = fsum zero (v :: vs)) as -> by congruence.
  apply fsum_nonneg; [apply zero_nonneg|].
  apply Forall_forall. intros x Hx. rewrite <- Ho in Hx.
  apply list_elem_of_omap in Hx as (r & Hin & Hx).
  eapply Forall_forall in Hr; eauto.
Qed.

(** C3, amended: when [parse_log] returns a mapping for a file in which
    every second field [float] accepted on a data line of an allowed
    user is a number [>= 0], all its values are [>= 0]; the merge of
    records whose values are all [>= 0] has values [>= 0] only; and so
    has the total [aggregate_cpu_usage] returns over a directory whose
    files hold such fields only. *)
Theorem usage_nonneg_when_readings_nonneg self :
  (∀ file_path fs m fs' content,
     parse_log self file_path fs = (Return m, fs') →
     read_file file_path fs = (Return content, fs) →
     (∀ line user field x,
        line ∈ PyStr.readlines content → data_line line = Some (user, field) →
        allowed self user → of_string field = Return x → nonneg x) →
     ∀ user cpu_time, m !! user = Some cpu_time → nonneg cpu_time)
  ∧ (∀ records : list usage,
       Forall (λ r : usage, ∀ user cpu_time, r !! user = Some cpu_time → nonneg cpu_time)
              records →
       ∀ user cpu_time, aggregate records !! user = Some cpu_time → nonneg cpu_time)
  ∧ (∀ d self' total fs',
       aggregate_cpu_usage self (Some d) = (Return (self', total), fs') →
       (∀ name content line user field x,
          lookup_entry name d = Some (File content) →
          line ∈ PyStr.readlines content → data_line line = Some (user, field) →
          allowed self user → of_string field = Return x → nonneg x) →
       ∀ user cpu_time, total !! user = Some cpu_time → nonneg cpu_time).
Proof.
  split; [apply parse_log_nonneg|]. split; [apply aggregate_nonneg|].
  intros d self' total fs' Ha Hnn.
  apply aggregate_cpu_usage_spec in Ha as (_ & _ & _ & records & -> & Hr).
  apply aggregate_nonneg. eapply Forall_impl; [exact Hr|].
  intros r [path Hp]. simpl in Hp.
  pose proof Hp as Hp'.
  apply parse_log_inv in Hp' as (_ & d' & content & [= <-] & Hl & _).
  eapply parse_log_nonneg; [exact Hp| |].
  - unfold read_file. by rewrite Hl.
  - intros line user field x. by apply (Hnn path content).
Qed.

Lemma usage_nonneg_when_readings_nonneg_witness :
  parse_log only_alice "2024-01-01.log" (one_file twice_1800)
  = (Return {[ "alice" := f3600 ]}, one_file twice_1800)
  ∧ nonneg f3600.
Proof.
  assert (parse_log only_alice "2024-01-01.log" (one_file twice_1800)
          = (Return {[ "alice" := f3600 ]}, one_file twice_1800)) as Hp
    by (vm_compute; reflexivity).
  split; [exact Hp|].
  apply (proj1 (usage_nonneg_when_readings_nonneg only_alice)
            "2024-01-01.log" (one_file twice_1800) {[ "alice" := f3600 ]} (one_file twice_1800)
            twice_1800 Hp) with (user := "alice").
  - reflexivity.
  - clear Hp. intros line user field x Hin Hd Ha Hf. vm_compute in Hin.
    apply elem_of_cons in Hin as [->|Hin];
      [|apply elem_of_cons in Hin as [->|Hin]; [|by apply elem_of_nil in Hin]];
      vm_compute in Hd; injection Hd as <- <-;
      vm_compute in Hf; injection Hf as <-; reflexivity.
  - apply lookup_singleton_eq.
Defined.


(** ** Filtering and summing (C4) *)

Lemma spec_well_formed_inv line user x :
  spec_well_formed line = Some (user, x) →
  ∃ field, data_line line = Some (user, field) ∧ of_string field = Return x
           ∧ finite x = true ∧ nonneg x.
Proof.
  unfold spec_well_formed.
  destruct (data_line line) as [[u field]|]; [|done].
  destruct (of_string field) as [e|y] eqn:Hf; [done|].
  destruct (finite y) eqn:Hfin; [|done].
  destruct (leb zero y) eqn:Hle; [|done].
  intros [= <- <-]. by exists field.
Qed.

Lemma spec_well_formed_is_Some line user field :
  data_line line = Some (user, field) → is_Some (spec_well_formed line) →
  ∃ x, spec_well_formed line = Some (user, x) ∧ of_string field = Return x.
Proof.
  intros Hd [[u x] Hs]. pose proof Hs as Hs'.
  apply spec_well_formed_inv in Hs' as (field' & Hd' & Hf & _).
  rewrite Hd in Hd'. injection Hd' as <- <-. eauto.
Qed.

(** When the data lines of the allowed users are all well-formed, the
    values the code adds up for a user are those of its well-formed
    lines. *)
Lemma readings_well_formed self user lines :
  allowed self user →
  (∀ line u field, line ∈ lines → data_line line = Some (u, field) →
                   allowed self u → is_Some (spec_well_formed line)) →
  readings user lines = spec_readings user lines.
Proof.
  intros Ha. unfold readings, spec_readings.
  induction lines as [|line lines IH]; intros Hwf; [done|].
  cbn [omap list_omap]. rewrite IH by (intros; eapply Hwf; [by right|done..]).
  assert ((field_of user line ≫= λ field, to_option (of_string field))
          = (spec_well_formed line ≫= λ ux,
             if decide (ux.1 = user) then Some ux.2 else None)) as ->; [|done].
  unfold field_of. destruct (data_line line) as [[u field]|] eqn:Hd.
  2:{ unfold spec_well_formed. by rewrite Hd. }
  destruct (decide (u = user)) as [->|Hne].
  - destruct (spec_well_formed_is_Some line user field Hd) as (x & Hs & Hf).
    { eapply Hwf; [left|done..]. }
    rewrite Hs. cbn [mbind option_bind fst snd]. rewrite Hf, decide_True by done.
    reflexivity.
  - destruct (spec_well_formed line) as [[u' x]|] eqn:Hs; [|done].
    apply spec_well_formed_inv in Hs as (field' & Hd' & _).
    rewrite Hd in Hd'. injection Hd' as <- <-. simpl. by rewrite decide_False.
Qed.

Lemma spec_readings_nonneg user lines : Forall nonneg (spec_readings user lines).
Proof.
  apply Forall_forall. intros x (line & _ & Hx)%list_elem_of_omap.
  destruct (spec_well_formed line) as [[u y]|] eqn:Hs; [|done]. simpl in Hx.
  destruct (decide (u = user)); [|done]. injection Hx as <-.
  by apply spec_well_formed_inv in Hs as (_ & _ & _ & _ & ?).
Qed.

(** C4, as stated, fails: the code does not tell a well-formed data
    line from another.  The second field of [alice -5] is negative and
    that of [alice nan] is no number, so neither line is well-formed,
    and yet [alice] is a key of the mapping, with the value [-5.0] or
    a NaN; and after the well-formed line [alice 1800] the line
    [alice oops] makes [parse_log] raise [ValueError], where the claim
    has it return [{alice: 1800}]. *)
Lemma parse_log_counts_ill_formed_fields :
  spec_well_formed ("alice -5" +:+ PyStr.nl) = None
  ∧ parse_log only_alice "2024-01-01.log" (one_file negative_snapshot)
    = (Return {[ "alice" := minus_five ]}, one_file negative_snapshot)
  ∧ spec_well_formed ("alice nan" +:+ PyStr.nl) = None
  ∧ parse_log only_alice "2024-01-01.log" (one_file nan_snapshot)
    = (Return {[ "alice" := Fnan ]}, one_file nan_snapshot)
  ∧ spec_well_formed ("alice 1800" +:+ PyStr.nl)
    = Some ("alice", Ffin false 7916483719987200 (-42))
  ∧ spec_well_formed ("alice oops" +:+ PyStr.nl) = None
  ∧ parse_log only_alice "2024-01-01.log" (one_file half_malformed_snapshot)
    = (Raise ValueError, one_file half_malformed_snapshot).
Proof. repeat split; vm_compute; reflexivity. Qed.

(** C4, amended: on an existing file [parse_log] returns a mapping or
    raises [ValueError], and it returns exactly when [float] accepts the
    second field of every data line (not blank, not starting with
    [Date:], two fields at least) whose first field is in AllowSet and
    not in DenySet.  The mapping it returns has as keys exactly those
    first fields, whatever the sign of the numbers, each mapped to the
    sum of its second fields, added as floats from the left starting at
    0.  When every data line of such a user is well-formed, its second
    field a valid number that is finite and not negative, [parse_log]
    does return, the keys are exactly the allowed identities of the
    well-formed lines, and each is mapped to the sum of the values of
    its well-formed lines, which is not negative; the two lines
    [alice 1800] and [alice 1800] give [{alice: 3600.0}].  No user
    outside AllowSet or inside DenySet is a key of the result, of the
    merge of any such results, or of what [aggregate_cpu_usage]
    returns. *)
Theorem parse_log_filters_and_sums self file_path d content :
  lookup_entry file_path d = Some (File content) →
  (parse_log self file_path (Some d) = (Raise ValueError, Some d)
   ∨ ∃ m, parse_log self file_path (Some d) = (Return m, Some d))
  ∧ ((∃ m, parse_log self file_path (Some d) = (Return m, Some d)) ↔
     ∀ line user field,
       line ∈ PyStr.readlines content → data_line line = Some (user, field) →
       allowed self user → returns (of_string field))
  ∧ (∀ m, parse_log self file_path (Some d) = (Return m, Some d) →
       (∀ user, is_Some (m !! user) ↔
          allowed self user
          ∧ ∃ line field, line ∈ PyStr.readlines content
                          ∧ data_line line = Some (user, field))
       ∧ (∀ user cpu_time, m !! user = Some cpu_time →
            cpu_time = fsum zero (readings user (PyStr.readlines content))))
  ∧ ((∀ line user field,
        line ∈ PyStr.readlines content → data_line line = Some (user, field) →
        allowed self user → is_Some (spec_well_formed line)) →
     ∃ m, parse_log self file_path (Some d) = (Return m, Some d)
       ∧ (∀ user, is_Some (m !! user) ↔
            allowed self user
            ∧ ∃ line x, line ∈ PyStr.readlines content
                        ∧ spec_well_formed line = Some (user, x))
       ∧ (∀ user cpu_time, m !! user = Some cpu_time →
            cpu_time = fsum zero (spec_readings user (PyStr.readlines content))
            ∧ nonneg cpu_time))
  ∧ parse_text only_alice twice_1800 = Return {[ "alice" := f3600 ]}
  ∧ (∀ records user,
       Forall (λ r, ∃ file_path fs fs',
                 parse_log self file_path fs = (Return r, fs')) records →
       is_Some (aggregate records !! user) → allowed self user)
  ∧ (∀ fs self' total fs' user,
       aggregate_cpu_usage self fs = (Return (self', total), fs') →
       is_Some (total !! user) → allowed self user).
Proof.
  intros Hl. rewrite (parse_log_file _ _ _ _ Hl). unfold parse_text.
  set (lines := PyStr.readlines content).
  assert (∀ m, parse_lines self ∅ lines = Return m →
            (∀ user, is_Some (m !! user) ↔
               allowed self user
               ∧ ∃ line field, line ∈ lines ∧ data_line line = Some (user, field))
            ∧ (∀ user cpu_time, m !! user = Some cpu_time →
                 cpu_time = fsum zero (readings user lines))) as Hkeys.
  { intros m Hp.
    assert (∀ line user field,
              line ∈ lines → data_line line = Some (user, field) →
              allowed self user → returns (of_string field)) as Hall.
    { apply parse_lines_returns with (m0 := ∅). rewrite Hp. apply returns_Return. }
    split.
    - intros user. rewrite (parse_lines_lookup _ _ _ _ user Hp), lookup_empty.
      destruct (decide (allowed self user)) as [Ha|Ha].
      + pose proof (readings_nonempty user lines) as Hr.
        destruct (readings user lines) as [|v vs].
        * split; [by intros []|]. intros (_ & line & field & Hin & Hd).
          destruct (Hall _ _ _ Hin Hd Ha) as [x Hx].
          exfalso. apply Hr; [eauto 10|done].
        * split; [|eauto]. intros _. split; [done|].
          destruct Hr as [(line & field & x & ? & ? & ?) _]; [done|eauto].
      + split; [by intros []|tauto].
    - intros user cpu_time Hm.
      rewrite (parse_lines_lookup _ _ _ _ user Hp), lookup_empty in Hm.
      destruct (decide (allowed self user)); [|done].
      destruct (readings user lines); [done|].
      change (default zero None) with zero in Hm. congruence. }
  split.
  { destruct (parse_lines self ∅ lines) as [e|m] eqn:Hp; [|eauto].
    left. by rewrite (parse_lines_raises _ _ _ _ Hp). }
  split.
  { rewrite <- (parse_lines_returns self ∅). unfold returns.
    split; intros [m Hm]; exists m; congruence. }
  split.
  { intros m [= Hp]. by apply Hkeys. }
  split.
  { intros Hwf.
    assert (returns (parse_lines self ∅ lines)) as [m Hp].
    { apply parse_lines_returns. intros line user field Hin Hd Ha.
      destruct (spec_well_formed_is_Some line user field Hd) as (x & _ & ->);
        [by eapply Hwf|apply returns_Return]. }
    exists m. split; [by rewrite Hp|]. destruct (Hkeys m Hp) as [Hk Hv]. split.
    - intros user. rewrite Hk. split; intros (Ha & line & y & Hin & Hy).
      + split; [done|].
        destruct (spec_well_formed_is_Some line user y Hy) as (x & Hs & _);
          [by eapply Hwf|eauto].
      + split; [done|].
        apply spec_well_formed_inv in Hy as (field & Hd & _). eauto.
    - intros user cpu_time Hm.
      assert (allowed self user) as Ha by (apply Hk; by rewrite Hm).
      rewrite (Hv _ _ Hm), (readings_well_formed self user lines Ha Hwf).
      split; [done|].
      apply fsum_nonneg; [apply zero_nonneg | apply spec_readings_nonneg]. }
  split; [vm_compute; reflexivity|]. split.
  { intros records user. apply aggregate_allowed. }
  intros fs1 self' total fs2 user Hagg Hs.
  apply aggregate_cpu_usage_spec in Hagg as (_ & _ & _ & records & -> & Hr).
  eapply aggregate_allowed; [|exact Hs].
  eapply Forall_impl; [exact Hr|]. intros r [path ?]. eauto.
Qed.

Lemma parse_log_filters_and_sums_witness :
  ∃ m, parse_log only_alice "2024-01-01.log" (one_file twice_1800)
       = (Return m, one_file twice_1800)
    ∧ (∀ user, is_Some (m !! user) ↔
         allowed only_alice user
         ∧ ∃ line x, line ∈ PyStr.readlines twice_1800
                     ∧ spec_well_formed line = Some (user, x))
    ∧ (∀ user cpu_time, m !! user = Some cpu_time →
         cpu_time = fsum zero (spec_readings user (PyStr.readlines twice_1800))
         ∧ nonneg cpu_time).
Proof.
  refine (proj1 (proj2 (proj2 (proj2
            (parse_log_filters_and_sums only_alice "2024-01-01.log"
               [("2024-01-01.log", File twice_1800)] twice_1800 _)))) _).
  - reflexivity.
  - intros line user field Hin _ _. vm_compute in Hin.
    apply elem_of_cons in Hin as [->|Hin];
      [|apply elem_of_cons in Hin as [->|Hin]; [|by apply elem_of_nil in Hin]];
      exists ("alice", Ffin false 7916483719987200 (-42)); vm_compute; reflexivity.
Defined.

(** ** Lines and fields *)

Lemma truthy_rstrip s : PyStr.truthy (PyStr.rstrip s) = has_graph s.
Proof.
  induction s as [|c s IH]; [done|]. cbn [PyStr.rstrip has_graph].
  rewrite <- IH. destruct (PyStr.truthy (PyStr.rstrip s)); simpl.
  - by rewrite orb_true_r.
  - rewrite orb_false_r. by destruct (PyStr.isspace c).
Qed.

Lemma has_graph_lstrip s : has_graph (PyStr.lstrip s) = has_graph s.
Proof.
  induction s as [|c s IH]; [done|]. simpl.
  destruct (PyStr.isspace c) eqn:Hc; simpl; [done|]. by rewrite Hc.
Qed.

Lemma truthy_strip s : PyStr.truthy (PyStr.strip s) = has_graph s.
Proof. unfold PyStr.strip. by rewrite truthy_rstrip, has_graph_lstrip. Qed.

Lemma has_graph_snoc_nl s : has_graph (s +:+ PyStr.nl) = has_graph s.
Proof. induction s as [|c s IH]; [done|]. simpl. by rewrite IH. Qed.

Lemma startswith_snoc_nl p s :
  one_line p = true →
  PyStr.startswith p (s +:+ PyStr.nl) = PyStr.startswith p s.
Proof.
  revert s. induction p as [|a p IH]; intros s Hp; [by destruct s|].
  simpl in Hp. apply andb_true_iff in Hp as [Ha Hp].
  apply andb_true_iff in Ha as [_ Ha]. destruct s as [|b s]; simpl.
  - apply negb_true_iff in Ha. by rewrite Ha.
  - by rewrite IH.
Qed.

Lemma string_app_cons c (a b : string) : String c a +:+ b = String c (a +:+ b).
Proof. reflexivity. Qed.

Lemma string_app_assoc (a b c : string) : (a +:+ b) +:+ c = a +:+ (b +:+ c).
Proof. induction a as [|x a IH]; [done|]. by rewrite !string_app_cons, IH. Qed.

Lemma split_go_snoc_nl cur s :
  PyStr.split_go cur (s +:+ PyStr.nl) = PyStr.split_go cur s.
Proof.
  revert cur. induction s as [|c s IH]; intros cur.
  - simpl. by rewrite app_nil_r.
  - simpl. destruct (PyStr.isspace c); by rewrite IH.
Qed.

(** A line reads the same with a line feed added at its end. *)
Lemma data_line_snoc_nl line : data_line (line +:+ PyStr.nl) = data_line line.
Proof.
  unfold data_line, PyStr.split.
  by rewrite !truthy_strip, has_graph_snoc_nl, startswith_snoc_nl, split_go_snoc_nl.
Qed.

Lemma data_line_blank line : has_graph line = false → data_line line = None.
Proof. intros H. unfold data_line. by rewrite truthy_strip, H. Qed.

Lemma data_line_date line :
  PyStr.startswith "Date:" line = true → data_line line = None.
Proof. intros H. unfold data_line. rewrite H. by rewrite andb_false_r. Qed.

Lemma parse_line_snoc_nl self m line :
  parse_line self m (line +:+ PyStr.nl) = parse_line self m line.
Proof. by rewrite !parse_line_unfold, data_line_snoc_nl. Qed.

Lemma universal_newlines_app a b :
  one_line a = true →
  PyStr.universal_newlines (a +:+ b) = a +:+ PyStr.universal_newlines b.
Proof.
  induction a as [|c a IH]; intros Ha; [done|].
  simpl in Ha. apply andb_true_iff in Ha as [Hc Ha].
  apply andb_true_iff in Hc as [Hc _]. apply negb_true_iff in Hc.
  simpl. rewrite Hc. by rewrite IH.
Qed.

Lemma lines_go_one_line cur a rest :
  one_line a = true →
  PyStr.lines_go cur (a +:+ String PyStr.LF rest)
  = (cur +:+ a +:+ PyStr.nl) :: PyStr.lines_go EmptyString rest.
Proof.
  revert cur. induction a as [|c a IH]; intros cur Ha.
  - simpl. done.
  - simpl in Ha. apply andb_true_iff in Ha as [Hc Ha].
    apply andb_true_iff in Hc as [_ Hc]. apply negb_true_iff in Hc.
    rewrite string_app_cons. cbn [PyStr.lines_go]. rewrite Hc, IH by done.
    unfold PyStr.chr. by rewrite string_app_assoc.
Qed.

(** Adding a line feed at the end of a text changes no data line. *)
Lemma parse_lines_go_snoc_nl self cur t m :
  parse_lines self m (PyStr.lines_go cur (t +:+ PyStr.nl))
  = parse_lines self m (PyStr.lines_go cur t).
Proof.
  revert cur m. induction t as [|c t IH]; intros cur m.
  - change (EmptyString +:+ PyStr.nl) with (String PyStr.LF EmptyString).
    cbn [PyStr.lines_go]. rewrite Ascii.eqb_refl.
    change (PyStr.chr PyStr.LF) with PyStr.nl. cbn [parse_lines].
    rewrite parse_line_snoc_nl. destruct cur as [|a cur].
    + rewrite parse_line_unfold. by rewrite data_line_blank.
    + simpl. by destruct (parse_line self m (String a cur)).
  - rewrite string_app_cons. cbn [PyStr.lines_go].
    destruct (Ascii.eqb c PyStr.LF).
    + cbn [parse_lines]. destruct (parse_line _ _ _); simpl; [done|]. apply IH.
    + apply IH.
Qed.

Lemma universal_newlines_snoc_nl s :
  PyStr.universal_newlines (s +:+ PyStr.nl) = PyStr.universal_newlines s +:+ PyStr.nl
  ∨ PyStr.universal_newlines (s +:+ PyStr.nl) = PyStr.universal_newlines s.
Proof.
  set (Q := λ s, PyStr.universal_newlines (s +:+ PyStr.nl)
                   = PyStr.universal_newlines s +:+ PyStr.nl
                 ∨ PyStr.universal_newlines (s +:+ PyStr.nl)
                   = PyStr.universal_newlines s).
  enough (Q s ∧ ∀ c, Q (String c s)) as [? _] by done.
  induction s as [|c s [IH1 IH2]].
  - split; [by left|]. intros c. unfold Q.
    change (String c EmptyString +:+ PyStr.nl) with (String c (String PyStr.LF EmptyString)).
    cbn [PyStr.universal_newlines]. rewrite Ascii.eqb_refl.
    destruct (Ascii.eqb c PyStr.CR); [by right|by left].
  - split; [apply IH2|]. intros c'. specialize (IH2 c). unfold Q in *.
    rewrite !string_app_cons in *.
    cbn [PyStr.universal_newlines] in *.
    destruct (Ascii.eqb c' PyStr.CR).
    + destruct (Ascii.eqb c PyStr.LF).
      * destruct IH1 as [->| ->]; [by left|by right].
      * destruct (Ascii.eqb c PyStr.CR);
          (destruct IH2 as [->| ->]; [by left|by right]).
    + destruct (Ascii.eqb c PyStr.CR);
        (destruct IH2 as [->| ->]; [by left|by right]).
Qed.

Lemma parse_text_snoc_nl self stdout :
  parse_text self (stdout +:+ PyStr.nl) = parse_text self stdout.
Proof.
  unfold parse_text, PyStr.readlines.
  destruct (universal_newlines_snoc_nl stdout) as [->| ->]; [|done].
  apply parse_lines_go_snoc_nl.
Qed.

(** ** Writing and reading back a snapshot *)

Lemma digit_char_one_line n :
  negb (Ascii.eqb (digit_char n) PyStr.CR)
  && negb (Ascii.eqb (digit_char n) PyStr.LF) = true.
Proof.
  unfold digit_char. pose proof (Nat.mod_upper_bound n 10) as H.
  destruct (n mod 10) as [|[|[|[|[|[|[|[|[|[|k]]]]]]]]]]; try reflexivity. lia.
Qed.

Lemma isoformat_one_line today : one_line ("Date: " +:+ isoformat today) = true.
Proof.
  unfold isoformat. rewrite !string_app_cons.
  change (EmptyString +:+ ?s) with s. cbn [one_line].
  rewrite !digit_char_one_line. reflexivity.
Qed.

Lemma log_entry_split today stdout :
  log_entry today stdout
  = ("Date: " +:+ isoformat today) +:+ String PyStr.LF (stdout +:+ PyStr.nl).
Proof. unfold log_entry. by rewrite !string_app_assoc. Qed.

Lemma readlines_log_entry today stdout :
  PyStr.readlines (log_entry today stdout)
  = ("Date: " +:+ isoformat today +:+ PyStr.nl)
      :: PyStr.readlines (stdout +:+ PyStr.nl).
Proof.
  rewrite log_entry_split. unfold PyStr.readlines.
  rewrite universal_newlines_app by apply isoformat_one_line.
  cbn [PyStr.universal_newlines].
  replace (Ascii.eqb PyStr.LF PyStr.CR) with false by reflexivity.
  rewrite lines_go_one_line by apply isoformat_one_line.
  by rewrite string_app_assoc.
Qed.

(** The metadata line and the line feed [save_logs] adds contribute
    nothing. *)
Lemma parse_text_log_entry self today stdout :
  parse_text self (log_entry today stdout) = parse_text self stdout.
Proof.
  unfold parse_text at 1. rewrite readlines_log_entry. cbn [parse_lines].
  rewrite parse_line_unfold, data_line_date by reflexivity.
  apply parse_text_snoc_nl.
Qed.

Lemma write_entry_lookup name content d d' :
  write_entry name content d = Some d' →
  lookup_entry name d' = Some (File content)
  ∧ ∀ other, other ≠ name → lookup_entry other d' = lookup_entry other d.
Proof.
  revert d'. induction d as [|[n e] d IH]; intros d' Hw.
  - injection Hw as <-. simpl. rewrite String.eqb_refl. split; [done|].
    intros other Ho%not_eq_sym. simpl. by apply String.eqb_neq in Ho as ->.
  - simpl in Hw. destruct (String.eqb n name) eqn:Hn.
    + apply String.eqb_eq in Hn as ->. destruct e as [c|]; [|done].
      injection Hw as <-. simpl. rewrite String.eqb_refl. split; [done|].
      intros other Ho%not_eq_sym. simpl. by apply String.eqb_neq in Ho as ->.
    + destruct (write_entry name content d) as [d1|]; [|done].
      injection Hw as <-. destruct (IH d1 eq_refl) as [H1 H2].
      simpl. rewrite Hn. split; [done|]. intros other Ho.
      destruct (String.eqb n other); [done|]. by apply H2.
Qed.

Lemma write_entry_succeeds name content d :
  lookup_entry name d ≠ Some Directory → is_Some (write_entry name content d).
Proof.
  induction d as [|[n e] d IH]; intros Hl; [by eexists|].
  simpl in *. destruct (String.eqb n name).
  - destruct e; [by eexists|done].
  - destruct (IH Hl) as [d' ->]. by eexists.
Qed.

Lemma save_logs_completed today returncode stdout fs fs' :
  save_logs today (Completed returncode stdout) fs = (Return (), fs') →
  ∃ d', fs' = Some d'
        ∧ write_entry (log_file today) (log_entry today stdout) (default [] fs) = Some d'.
Proof.
  unfold save_logs, mbind, io_bind, os_makedirs, subprocess_run, mret, io_ret,
    write_file. simpl.
  destruct (write_entry _ _ _) as [d'|]; [|done]. intros [= <-]. eauto.
Qed.

(** C10: when [save_logs] has stored the output [stdout] of a completed
    run, the stored file reads back as the line [Date: YYYY-MM-DD]
    followed by the lines of [stdout] and a line feed; [parse_log] skips
    every line that starts with [Date:] and every blank line; and
    parsing the stored file gives exactly what parsing [stdout] alone
    gives, the same mapping or the same exception. *)
Theorem saved_log_parses_as_stdout self today returncode stdout fs fs' :
  save_logs today (Completed returncode stdout) fs = (Return (), fs') →
  read_file (log_file today) fs' = (Return (log_entry today stdout), fs')
  ∧ PyStr.readlines (log_entry today stdout)
    = ("Date: " +:+ isoformat today +:+ PyStr.nl)
        :: PyStr.readlines (stdout +:+ PyStr.nl)
  ∧ PyStr.startswith "Date:" ("Date: " +:+ isoformat today +:+ PyStr.nl) = true
  ∧ (∀ m line,
       PyStr.startswith "Date:" line = true
       ∨ PyStr.truthy (PyStr.strip line) = false →
       parse_line self m line = Return m)
  ∧ parse_log self (log_file today) fs' = (parse_text self stdout, fs').
Proof.
  intros (d' & -> & Hw)%save_logs_completed.
  apply write_entry_lookup in Hw as [Hl _].
  split; [unfold read_file; by rewrite Hl|].
  split; [apply readlines_log_entry|]. split; [reflexivity|]. split.
  - intros m line [H|H]; rewrite parse_line_unfold.
    + by rewrite data_line_date.
    + rewrite truthy_strip in H. by rewrite data_line_blank.
  - rewrite (parse_log_file _ _ _ _ Hl). by rewrite parse_text_log_entry.
Qed.

Lemma saved_log_parses_as_stdout_witness :
  parse_log only_alice (log_file march_7)
    (Some [(log_file march_7, File (log_entry march_7 sa_output))])
  = (parse_text only_alice sa_output,
     Some [(log_file march_7, File (log_entry march_7 sa_output))]).
Proof.
  refine (proj2 (proj2 (proj2 (proj2 (saved_log_parses_as_stdout only_alice
                                        march_7 0 sa_output None _ _))))).
  reflexivity.
Defined.

(** ** Capture (C8) *)

(** C8, as stated, fails: the exit status is never looked at, so when
    the accounting command completes with status 1 and prints nothing,
    [save_logs] returns and stores a snapshot for the day, the date
    line followed by an empty line. *)
Lemma save_logs_ignores_exit_status :
  save_logs march_7 (Completed 1 EmptyString) None
  = (Return (),
     Some [("2024-03-07.log",
            File ("Date: 2024-03-07" +:+ PyStr.nl +:+ PyStr.nl))]).
Proof. vm_compute. reflexivity. Qed.

(** C8, amended: when the accounting command cannot be started,
    [save_logs] raises the exception [subprocess.run] raised and writes
    no snapshot: the directory is as it was, created empty if it was
    missing.  When the command completes, with whatever exit status,
    and the day's entry is not a directory, [save_logs] returns and the
    day's file holds the date line, the output and a line feed, the
    other entries being as they were. *)
Theorem save_logs_outcome today fs :
  (∀ e, save_logs today (CannotStart e) fs = (Raise e, Some (default [] fs)))
  ∧ (∀ returncode stdout,
       lookup_entry (log_file today) (default [] fs) ≠ Some Directory →
       ∃ d', save_logs today (Completed returncode stdout) fs = (Return (), Some d')
             ∧ lookup_entry (log_file today) d'
               = Some (File (log_entry today stdout))
             ∧ ∀ other, other ≠ log_file today →
                 lookup_entry other d' = lookup_entry other (default [] fs)).
Proof.
  split; [done|]. intros returncode stdout Hl.
  destruct (write_entry_succeeds _ (log_entry today stdout) _ Hl) as [d' Hw].
  exists d'. split.
  - unfold save_logs, mbind, io_bind, os_makedirs, subprocess_run, mret, io_ret,
      write_file. simpl. by rewrite Hw.
  - by apply write_entry_lookup.
Qed.

Lemma save_logs_outcome_witness :
  ∃ d', save_logs march_7 (Completed 1 sa_output) (Some nine_days) = (Return (), Some d')
        ∧ lookup_entry (log_file march_7) d'
          = Some (File (log_entry march_7 sa_output))
        ∧ ∀ other, other ≠ log_file march_7 →
            lookup_entry other d' = lookup_entry other (default [] (Some nine_days)).
Proof.
  refine (proj2 (save_logs_outcome march_7 (Some nine_days)) 1%Z sa_output _).
  vm_compute. discriminate.
Defined.

(** ** Lookups in the aggregate *)

Lemma aggregate_lookup (records : list usage) user :
  aggregate records !! user
  = match omap (.!! user) records with
    | [] => None
    | vs => Some (fsum zero vs)
    end.
Proof. unfold aggregate. by rewrite foldl_add_daily_lookup, lookup_empty. Qed.

Lemma elem_of_dom_aggregate (records : list usage) user :
  user ∈ dom (aggregate records) ↔ ∃ r, r ∈ records ∧ is_Some (r !! user).
Proof.
  rewrite elem_of_dom, aggregate_lookup.
  destruct (omap (.!! user) records) as [|v vs] eqn:Ho.
  - split; [by intros []|]. intros (r & Hin & [x Hx]).
    assert (x ∈ omap (.!! user) records) as Hel
      by (apply list_elem_of_omap; eauto).
    rewrite Ho in Hel. by apply elem_of_nil in Hel.
  - split; [|eauto]. intros _.
    assert (v ∈ omap (.!! user) records) as Hel by (rewrite Ho; left).
    apply list_elem_of_omap in Hel as (r & ? & ?). eauto.
Qed.

(** The loop over the listing returns when every file parses. *)
Lemma aggregate_files_returns self d files total :
  (∀ name content, lookup_entry name d = Some (File content) →
                   returns (parse_text self content)) →
  ∃ t, aggregate_files self total files (Some d) = (Return t, Some d).
Proof.
  intros Hok. revert total.
  induction files as [|file_name files IH]; intros total; [by eexists|].
  cbn [aggregate_files]. unfold mbind at 1, io_bind at 1, os_path_isfile.
  simpl. destruct (lookup_entry file_name d) as [[content|]|] eqn:Hl; [|done..].
  unfold mbind at 1, io_bind at 1. rewrite (parse_log_file _ _ _ _ Hl).
  destruct (Hok _ _ Hl) as [daily ->]. apply IH.
Qed.


(** ** Exact float arithmetic below [2^53] *)

Section FloatExact.
Local Open Scope Z_scope.

Lemma pow2_pos k : 0 < 2 ^ Z.max 0 k.
Proof. apply Z.pow_pos_nonneg; lia. Qed.

Lemma scaled_upper n d e k :
  0 < n → 0 < d → 0 <= k → Z.log2 n - Z.log2 d - k <= e →
  scaled_num n e < 2 ^ (k + 1) * scaled_den d e.
Proof.
  intros Hn Hd Hk He. unfold scaled_num, scaled_den.
  destruct (Z.log2_spec n Hn) as [_ Hn2]. destruct (Z.log2_spec d Hd) as [Hd1 _].
  pose proof (Z.log2_nonneg n). pose proof (Z.log2_nonneg d).
  pose proof (pow2_pos (- e)). pose proof (pow2_pos e).
  apply Z.lt_le_trans with (2 ^ Z.succ (Z.log2 n) * 2 ^ Z.max 0 (- e)).
  { apply Z.mul_lt_mono_pos_r; done. }
  apply Z.le_trans with (2 ^ (k + 1) * (2 ^ Z.log2 d * 2 ^ Z.max 0 e)).
  2:{ apply Z.mul_le_mono_nonneg_l; [apply Z.pow_nonneg; lia|].
      apply Z.mul_le_mono_nonneg_r; lia. }
  rewrite <- !Z.pow_add_r by lia. apply Z.pow_le_mono_r; lia.
Qed.

Lemma scaled_lower n d e :
  0 < n → 0 < d → e <= Z.log2 n - Z.log2 d - 53 →
  2 ^ 52 * scaled_den d e <= scaled_num n e.
Proof.
  intros Hn Hd He. unfold scaled_num, scaled_den.
  destruct (Z.log2_spec n Hn) as [Hn1 _]. destruct (Z.log2_spec d Hd) as [_ Hd2].
  pose proof (Z.log2_nonneg n). pose proof (Z.log2_nonneg d).
  pose proof (pow2_pos (- e)). pose proof (pow2_pos e).
  apply Z.le_trans with (2 ^ Z.log2 n * 2 ^ Z.max 0 (- e)).
  2:{ apply Z.mul_le_mono_nonneg_r; lia. }
  apply Z.le_trans with (2 ^ 52 * (2 ^ Z.succ (Z.log2 d) * 2 ^ Z.max 0 e)).
  { apply Z.mul_le_mono_nonneg_l; [lia|].
    apply Z.mul_le_mono_nonneg_r; lia. }
  rewrite <- !Z.pow_add_r by lia. apply Z.pow_le_mono_r; lia.
Qed.

Lemma scaled_step n d e :
  scaled_num n (e + 1) * scaled_den d e * 2
  = scaled_num n e * scaled_den d (e + 1).
Proof.
  unfold scaled_num, scaled_den.
  assert (2 ^ Z.max 0 (- (e + 1)) * 2 ^ Z.max 0 e * 2
          = 2 ^ Z.max 0 (- e) * 2 ^ Z.max 0 (e + 1)) as H.
  { change 2 with (2 ^ 1) at 3. rewrite <- !Z.pow_add_r by lia. f_equal. lia. }
  transitivity (n * d * (2 ^ Z.max 0 (- (e + 1)) * 2 ^ Z.max 0 e * 2)); [ring|].
  rewrite H. ring.
Qed.


Lemma div_half_even_exact q d : 0 < d → div_half_even (q * d) d = q.
Proof.
  intros Hd. unfold div_half_even.
  rewrite Z.div_mul, Z.mod_mul by lia.
  replace (2 * 0 <? d) with true; [done|]. symmetry. apply Z.ltb_lt. lia.
Qed.

(** A ratio whose value [m0 * 2^e0] is a binary64 value below [2^53]
    rounds to itself. *)
Lemma round_exact n d m0 e0 :
  0 < d → 0 < n → 0 <= m0 < 2 ^ 53 → emin <= e0 <= 0 →
  n * 2 ^ (- e0) = m0 * d →
  ∃ q e, round false n d = Ffin false q e
         ∧ 0 <= q < 2 ^ 53 ∧ emin <= e <= 0
         ∧ q * 2 ^ (e + 1074) = m0 * 2 ^ (e0 + 1074)
         ∧ (e = emin ∨ 2 ^ 52 <= q).
Proof.
  intros Hd Hn Hm0 He0 Hv. unfold round.
  replace (n =? 0) with false by (symmetry; apply Z.eqb_neq; lia).
  set (e1 := Z.max (Z.log2 n - Z.log2 d - prec) emin).
  set (e := if scaled_num n e1 / scaled_den d e1 <? 2 ^ prec then e1 else e1 + 1).
  assert (0 < 2 ^ (- e0)) as Hp0 by (apply Z.pow_pos_nonneg; lia).
  assert (n < 2 ^ 53 * d) as Hlt.
  { apply Z.le_lt_trans with (n * 2 ^ (- e0)); [nia|]. rewrite Hv. nia. }
  assert (Z.log2 n - Z.log2 d - 53 <= 0) as Hab.
  { destruct (Z.log2_spec n) as [Hn1 _]; [done|].
    destruct (Z.log2_spec d) as [_ Hd2]; [done|].
    pose proof (Z.log2_nonneg n). pose proof (Z.log2_nonneg d).
    assert (2 ^ Z.log2 n < 2 ^ (53 + Z.succ (Z.log2 d))) as Hpow.
    { rewrite Z.pow_add_r by lia. nia. }
    apply Z.pow_lt_mono_r_iff in Hpow; lia. }
  assert (0 < scaled_den d e1) as Hsd1.
  { unfold scaled_den. pose proof (pow2_pos e1). nia. }
  assert (scaled_num n e < 2 ^ 53 * scaled_den d e
          ∧ (e = emin ∨ 2 ^ 52 * scaled_den d e <= scaled_num n e)
          ∧ emin <= e <= 0) as (H1 & H2 & H3).
  { unfold e. destruct (_ <? 2 ^ prec) eqn:Hq.
    - apply Z.ltb_lt in Hq. split; [|split].
      + destruct (Z_lt_le_dec (scaled_num n e1) (2 ^ 53 * scaled_den d e1)); [done|].
        exfalso. assert (2 ^ 53 <= scaled_num n e1 / scaled_den d e1); [|unfold prec in *; lia].
        apply Z.div_le_lower_bound; [lia|]. by rewrite Z.mul_comm.
      + unfold e1, prec. destruct (Z.max_spec (Z.log2 n - Z.log2 d - 53) emin) as [[_ ->]|[_ ->]].
        * by left.
        * right. apply scaled_lower; lia.
      + unfold e1, prec, emin in *. lia.
    - apply Z.ltb_ge in Hq. unfold prec in *.
      assert (2 ^ 53 * scaled_den d e1 <= scaled_num n e1) as Hge.
      { etrans; [|apply (Z.mul_div_le _ (scaled_den d e1)); lia].
        rewrite (Z.mul_comm (scaled_den d e1)). apply Z.mul_le_mono_nonneg_r; lia. }
      assert (e1 <> 0) as Hne.
      { intros H0. rewrite H0 in Hge. unfold scaled_num, scaled_den in Hge.
        change (Z.max 0 0) with 0 in Hge. change (Z.max 0 (- 0)) with 0 in Hge.
        rewrite Z.pow_0_r in Hge. lia. }
      split; [|split].
      + apply (scaled_upper n d (e1 + 1) 52); unfold e1; lia.
      + right. pose proof (scaled_step n d e1) as Hs.
        assert (0 < scaled_den d (e1 + 1)) by (unfold scaled_den; pose proof (pow2_pos (e1 + 1)); nia).
        nia.
      + unfold e1, emin in *. lia. }
  clearbody e. clear e1 Hsd1.
  unfold scaled_num, scaled_den in *.
  replace (Z.max 0 e) with 0 in * by lia.
  replace (Z.max 0 (- e)) with (- e) in * by lia.
  rewrite Z.pow_0_r, Z.mul_1_r in *.
  assert (0 < 2 ^ (- e)) as Hpe by (apply Z.pow_pos_nonneg; lia).
  assert (e <= e0) as Hee.
  { destruct H2 as [->|H2]; [lia|].
    destruct (Z_le_gt_dec e e0); [done|]. exfalso.
    assert (2 ^ (- e0) = 2 ^ (- e) * 2 ^ (e - e0)) as Hsplit.
    { rewrite <- Z.pow_add_r by lia. f_equal. lia. }
    assert (2 <= 2 ^ (e - e0)).
    { change 2 with (2 ^ 1) at 1. apply Z.pow_le_mono_r; lia. }
    rewrite Hsplit in Hv. nia. }
  assert (n * 2 ^ (- e) = m0 * 2 ^ (e0 - e) * d) as Hexact.
  { replace (- e) with (- e0 + (e0 - e)) by lia.
    rewrite Z.pow_add_r by lia. rewrite Z.mul_assoc, Hv. ring. }
  assert (0 <= 2 ^ (e0 - e)) as Hpd by (apply Z.pow_nonneg; lia).
  set (q := m0 * 2 ^ (e0 - e)) in *.
  assert (0 <= q < 2 ^ 53) as Hq.
  { split; [unfold q; nia|]. rewrite Hexact in H1.
    apply Z.mul_lt_mono_pos_r in H1; lia. }
  rewrite Hexact, div_half_even_exact by done. unfold prec.
  replace (q =? 2 ^ 53) with false by (symmetry; apply Z.eqb_neq; lia).
  replace (emax <? e) with false by (symmetry; apply Z.ltb_ge; unfold emax; lia).
  exists q, e. split; [done|]. split; [done|]. split; [done|]. split.
  - unfold q. rewrite <- Z.mul_assoc, <- Z.pow_add_r by (unfold emin in *; lia).
    do 2 f_equal. lia.
  - destruct H2 as [->|H2]; [by left|right].
    rewrite Hexact in H2. apply Z.mul_le_mono_pos_r in H2; lia.
Qed.


Lemma round_rep n d m0 e0 :
  0 < d → 0 <= n → 0 <= m0 < 2 ^ 53 → emin <= e0 <= 0 →
  n * 2 ^ (- e0) = m0 * d →
  rep (round false n d) (m0 * 2 ^ (e0 + 1074)).
Proof.
  intros Hd Hn Hm0 He0 Hv. destruct (decide (n = 0)) as [->|Hne].
  - assert (m0 = 0) as -> by nia. exists 0, emin. unfold emin. by compute.
  - destruct (round_exact n d m0 e0) as (q & e & -> & ? & ? & ? & _); try done; [lia|].
    by exists q, e.
Qed.

Lemma rep_bound x v : rep x v → 0 <= v < 2 ^ 53 * 2 ^ 1074.
Proof.
  intros (m & e & -> & Hm & He & ->). unfold emin in *.
  assert (0 < 2 ^ (e + 1074)) by (apply Z.pow_pos_nonneg; lia).
  assert (2 ^ (e + 1074) <= 2 ^ 1074) by (apply Z.pow_le_mono_r; lia).
  split; [nia|]. apply Z.lt_le_trans with (2 ^ 53 * 2 ^ (e + 1074)); [nia|].
  apply Z.mul_le_mono_nonneg_l; lia.
Qed.

Lemma units_cross M e m0 e0 :
  emin <= e <= 0 → emin <= e0 <= 0 →
  M * 2 ^ (e + 1074) = m0 * 2 ^ (e0 + 1074) →
  M * 2 ^ (- e0) = m0 * 2 ^ (- e).
Proof.
  unfold emin. intros He He0 H.
  assert (0 < 2 ^ 1074) as Hp by (by compute).
  apply (Z.mul_cancel_r _ _ (2 ^ 1074)); [lia|].
  replace (2 ^ 1074) with (2 ^ (e + 1074) * 2 ^ (- e)) at 1
    by (rewrite <- Z.pow_add_r by lia; f_equal; lia).
  replace (2 ^ 1074) with (2 ^ (e0 + 1074) * 2 ^ (- e0))
    by (rewrite <- Z.pow_add_r by lia; f_equal; lia).
  transitivity (M * 2 ^ (e + 1074) * (2 ^ (- e0) * 2 ^ (- e))); [ring|].
  rewrite H. ring.
Qed.

Lemma num_nonpos m e : e <= 0 → num m e = m.
Proof. intros. unfold num. replace (Z.max 0 e) with 0 by lia. lia. Qed.

Lemma den_nonpos e : e <= 0 → den e = 2 ^ (- e).
Proof. intros. unfold den. f_equal. lia. Qed.

(** [fmod] is exact. *)
Lemma fmod_rep x y X Y :
  rep x X → rep y Y → 0 < Y → rep (fmod x y) (X mod Y).
Proof.
  intros (m1 & e1 & -> & Hm1 & He1 & ->) (m2 & e2 & -> & Hm2 & He2 & ->) HY.
  unfold emin in *.
  assert (0 < 2 ^ (e2 + 1074)) by (apply Z.pow_pos_nonneg; lia).
  assert (0 < m2) by nia.
  unfold fmod. replace (m2 =? 0) with false by (symmetry; apply Z.eqb_neq; lia).
  set (e := Z.min e1 e2).
  assert (0 < 2 ^ (e1 - e)) by (apply Z.pow_pos_nonneg; lia).
  assert (0 < 2 ^ (e2 - e)) by (apply Z.pow_pos_nonneg; lia).
  assert (0 < 2 ^ (e + 1074)) by (apply Z.pow_pos_nonneg; lia).
  set (r := (m1 * 2 ^ (e1 - e)) mod (m2 * 2 ^ (e2 - e))).
  assert (0 <= r < m2 * 2 ^ (e2 - e)) as Hr by (apply Z.mod_pos_bound; nia).
  assert (r <= m1 * 2 ^ (e1 - e)) as Hr' by (apply Z.mod_le; nia).
  assert (r < 2 ^ 53) as Hr53.
  { destruct (Z.min_spec e1 e2) as [[_ Hmin]|[_ Hmin]]; fold e in Hmin.
    - rewrite Hmin, Z.sub_diag, Z.pow_0_r in Hr'. lia.
    - rewrite Hmin, Z.sub_diag, Z.pow_0_r in Hr. lia. }
  rewrite num_nonpos, den_nonpos by lia.
  replace (m1 * 2 ^ (e1 + 1074)) with (m1 * 2 ^ (e1 - e) * 2 ^ (e + 1074))
    by (rewrite <- Z.mul_assoc, <- Z.pow_add_r by lia; do 2 f_equal; lia).
  replace (m2 * 2 ^ (e2 + 1074)) with (m2 * 2 ^ (e2 - e) * 2 ^ (e + 1074))
    by (rewrite <- Z.mul_assoc, <- Z.pow_add_r by lia; do 2 f_equal; lia).
  rewrite Z.mul_mod_distr_r by nia. fold r.
  apply round_rep; unfold emin; lia.
Qed.

(** A subtraction whose result is a binary64 value is exact. *)
Lemma sub_rep x y X Y m0 e0 :
  rep x X → rep y Y → Y <= X →
  0 <= m0 < 2 ^ 53 → emin <= e0 <= 0 → X - Y = m0 * 2 ^ (e0 + 1074) →
  rep (sub x y) (X - Y).
Proof.
  intros (m1 & e1 & -> & Hm1 & He1 & ->) (m2 & e2 & -> & Hm2 & He2 & ->) Hle Hm0 He0 Hv.
  unfold emin in *. unfold sub, neg, add. simpl negb.
  set (e := Z.min e1 e2).
  assert (0 < 2 ^ (e + 1074)) by (apply Z.pow_pos_nonneg; lia).
  set (M := signed false (m1 * 2 ^ (e1 - e)) + signed true (m2 * 2 ^ (e2 - e))).
  assert (m1 * 2 ^ (e1 + 1074) - m2 * 2 ^ (e2 + 1074) = M * 2 ^ (e + 1074)) as HM.
  { unfold M. simpl signed.
    replace (m1 * 2 ^ (e1 + 1074)) with (m1 * 2 ^ (e1 - e) * 2 ^ (e + 1074))
      by (rewrite <- Z.mul_assoc, <- Z.pow_add_r by lia; do 2 f_equal; lia).
    replace (m2 * 2 ^ (e2 + 1074)) with (m2 * 2 ^ (e2 - e) * 2 ^ (e + 1074))
      by (rewrite <- Z.mul_assoc, <- Z.pow_add_r by lia; do 2 f_equal; lia).
    ring. }
  rewrite HM in *.
  destruct (M =? 0) eqn:H0.
  - apply Z.eqb_eq in H0. rewrite H0. exists 0, emin. unfold emin. by compute.
  - apply Z.eqb_neq in H0. assert (0 < M) by nia.
    replace (M <? 0) with false by (symmetry; apply Z.ltb_ge; lia).
    rewrite Z.abs_eq, num_nonpos, den_nonpos by lia.
    rewrite Hv.
    apply round_rep; unfold emin;
      first [lia | apply Z.pow_pos_nonneg; lia | apply units_cross; unfold emin; lia].
Qed.

(** A division whose quotient is an integer below [2^53] is exact. *)
Lemma div_rep x y X Y k :
  rep x X → rep y Y → 0 < Y → X = k * Y → 0 <= k < 2 ^ 53 →
  rep (div x y) (k * 2 ^ 1074).
Proof.
  intros (m1 & e1 & -> & Hm1 & He1 & ->) (m2 & e2 & -> & Hm2 & He2 & ->) HY Hk Hk53.
  unfold emin in *.
  assert (0 < 2 ^ (e2 + 1074)) by (apply Z.pow_pos_nonneg; lia).
  assert (0 < 2 ^ (e1 + 1074)) by (apply Z.pow_pos_nonneg; lia).
  assert (0 < 2 ^ (- e1)) by (apply Z.pow_pos_nonneg; lia).
  assert (0 < 2 ^ (- e2)) by (apply Z.pow_pos_nonneg; lia).
  assert (0 < m2) by nia.
  unfold div. replace (m2 =? 0) with false by (symmetry; apply Z.eqb_neq; lia).
  simpl xorb. rewrite !num_nonpos, !den_nonpos by lia.
  change (k * 2 ^ 1074) with (k * 2 ^ (0 + 1074)).
  apply round_rep; unfold emin; try lia; try nia.
  change (2 ^ (- 0)) with 1. rewrite Z.mul_1_r.
  assert (m1 * 2 ^ (e1 + 1074) = (k * m2) * 2 ^ (e2 + 1074)) as Hk' by lia.
  apply units_cross in Hk'; unfold emin; try lia.
Qed.


Lemma rep_units_int m e k :
  emin <= e <= 0 → m * 2 ^ (e + 1074) = k * 2 ^ 1074 → m = k * 2 ^ (- e).
Proof.
  intros He H. change (k * 2 ^ 1074) with (k * 2 ^ (0 + 1074)) in H.
  apply units_cross in H; unfold emin in *; lia.
Qed.

(** [floor] of an integer value is that value. *)
Lemma floor_rep x k : rep x (k * 2 ^ 1074) → rep (floor x) (k * 2 ^ 1074).
Proof.
  intros (m & e & -> & Hm & He & Hv). symmetry in Hv.
  pose proof (rep_units_int _ _ _ He Hv) as Hmk. unfold emin in *.
  assert (0 < 2 ^ (- e)) by (apply Z.pow_pos_nonneg; lia).
  unfold floor. simpl signed. rewrite num_nonpos, den_nonpos by lia.
  rewrite Hmk, Z.div_mul by lia.
  destruct (k =? 0) eqn:Hk0.
  - apply Z.eqb_eq in Hk0 as ->. exists 0, emin. unfold emin. by compute.
  - apply Z.eqb_neq in Hk0. assert (0 < k) by nia.
    unfold of_Z. replace (k <? 0) with false by (symmetry; apply Z.ltb_ge; lia).
    rewrite Z.abs_eq by lia. rewrite <- Hv.
    apply round_rep; unfold emin; lia.
Qed.

(** [int] of a value is its integer part. *)
Lemma to_int_rep x v : rep x v → to_int x = Return (v / 2 ^ 1074).
Proof.
  intros (m & e & -> & Hm & He & ->). unfold emin in *.
  unfold to_int. simpl signed. rewrite num_nonpos, den_nonpos by lia.
  f_equal. replace (2 ^ 1074) with (2 ^ (- e) * 2 ^ (e + 1074))
    by (rewrite <- Z.pow_add_r by lia; f_equal; lia).
  rewrite Z.div_mul_cancel_r; [done| |];
    apply Z.neq_sym, Z.lt_neq, Z.pow_pos_nonneg; lia.
Qed.

Lemma nonzero_rep x v : rep x v → nonzero x = negb (v =? 0).
Proof.
  intros (m & e & -> & Hm & He & ->). unfold emin in *. simpl. f_equal.
  assert (0 < 2 ^ (e + 1074)) by (apply Z.pow_pos_nonneg; lia).
  destruct (m =? 0) eqn:H0.
  - apply Z.eqb_eq in H0 as ->. done.
  - apply Z.eqb_neq in H0. symmetry. apply Z.eqb_neq. nia.
Qed.

Lemma ltb_rep_zero x v : rep x v → ltb x zero = false.
Proof.
  intros (m & e & -> & Hm & He & ->). unfold ltb, zero. simpl signed.
  apply Z.ltb_ge. unfold num, den.
  pose proof (pow2_pos e). pose proof (pow2_pos (- emin)). nia.
Qed.

Lemma copysign_zero_rep y v : rep y v → copysign zero y = zero.
Proof. by intros (m & e & -> & _). Qed.

Lemma rep_zero : rep zero 0.
Proof. exists 0, emin. unfold emin. by compute. Qed.

Lemma ltb_half_rep_zero x : rep x 0 → ltb half x = false.
Proof.
  intros (m & e & -> & Hm & He & Hv). unfold emin in *.
  assert (0 < 2 ^ (e + 1074)) by (apply Z.pow_pos_nonneg; lia).
  assert (m = 0) as -> by nia.
  unfold ltb, half. simpl signed. apply Z.ltb_ge.
  unfold num, den. pose proof (pow2_pos (- e)). rewrite Z.mul_0_l. nia.
Qed.

Lemma copysign_zero_round n d : copysign zero (round false n d) = zero.
Proof.
  unfold round. destruct (n =? 0); [done|].
  repeat match goal with |- context [if ?b then _ else _] => destruct b end; done.
Qed.


Lemma div_rep_copysign x y X Y :
  rep x X → rep y Y → 0 < Y → copysign zero (div x y) = zero.
Proof.
  intros (m1 & e1 & -> & Hm1 & He1 & ->) (m2 & e2 & -> & Hm2 & He2 & ->) HY.
  unfold emin in *.
  assert (0 < 2 ^ (e2 + 1074)) by (apply Z.pow_pos_nonneg; lia).
  assert (0 < m2) by nia.
  unfold div. replace (m2 =? 0) with false by (symmetry; apply Z.eqb_neq; lia).
  apply copysign_zero_round.
Qed.

Lemma float_div_mod_fst vx wx :
  ltb wx zero = false → ltb (fmod vx wx) zero = false →
  (float_div_mod vx wx).1
  = let div_ := div (sub vx (fmod vx wx)) wx in
    if nonzero div_ then
      let f := floor div_ in
      if ltb half (sub div_ f) then add f one else f
    else copysign zero (div vx wx).
Proof.
  intros H1 H2. unfold float_div_mod. rewrite H1, H2.
  by destruct (nonzero (fmod vx wx)).
Qed.

(** [x // y] for a divisor that is a positive integer [c]: the result
    is a float whose [int] is the exact floor of the quotient. *)
Lemma floordiv_rep x y X c :
  rep x X → rep y (c * 2 ^ 1074) → 0 < c →
  ∃ f, floordiv x y = Return f ∧ to_int f = Return (X / (c * 2 ^ 1074)).
Proof.
  intros Hx Hy Hc. set (Y := c * 2 ^ 1074) in *.
  assert (0 < 2 ^ 1074) as Hp by (by compute).
  assert (0 < Y) as HY by (unfold Y; nia).
  pose proof (rep_bound _ _ Hx) as HX.
  set (k := X / Y).
  pose proof (Z.div_mod X Y ltac:(lia)) as Hdm. fold k in Hdm.
  pose proof (Z.mod_pos_bound X Y HY) as Hmb.
  assert (0 <= k) as Hk0 by (apply Z.div_pos; lia).
  assert (k * c < 2 ^ 53) as Hkc.
  { apply (Z.mul_lt_mono_pos_r (2 ^ 1074)); [done|]. unfold Y in *. nia. }
  assert (k < 2 ^ 53) as Hk53 by nia.
  pose proof (fmod_rep _ _ _ _ Hx Hy HY) as Hmod.
  assert (rep (sub x (fmod x y)) (X - X mod Y)) as Hsub.
  { apply (sub_rep _ _ _ _ (k * c) 0); try done; unfold emin; lia. }
  assert (rep (div (sub x (fmod x y)) y) (k * 2 ^ 1074)) as Hdiv.
  { eapply div_rep; try done; lia. }
  unfold floordiv. rewrite (nonzero_rep _ _ Hy).
  replace (Y =? 0) with false by (symmetry; apply Z.eqb_neq; lia). cbn [negb].
  rewrite float_div_mod_fst by eauto using ltb_rep_zero. cbv zeta.
  rewrite (nonzero_rep _ _ Hdiv).
  destruct (k * 2 ^ 1074 =? 0) eqn:Hkz; cbn [negb].
  - apply Z.eqb_eq in Hkz. assert (k = 0) as Hk by nia.
    rewrite (div_rep_copysign _ _ _ _ Hx Hy HY).
    eexists. split; [done|]. simpl. f_equal. fold Y. fold k. by rewrite Hk.
  - pose proof (floor_rep _ _ Hdiv) as Hfl.
    assert (rep (sub (div (sub x (fmod x y)) y) (floor (div (sub x (fmod x y)) y)))
                (k * 2 ^ 1074 - k * 2 ^ 1074)) as Hz.
    { apply (sub_rep _ _ _ _ 0 0); try done; unfold emin; lia. }
    rewrite Z.sub_diag in Hz. rewrite (ltb_half_rep_zero _ Hz).
    eexists. split; [done|]. rewrite (to_int_rep _ _ Hfl).
    f_equal. fold Y. fold k. apply Z.div_mul. lia.
Qed.

(** [x % y] is exact for non-negative operands. *)
Lemma rem_rep x y X Y :
  rep x X → rep y Y → 0 < Y → ∃ r, rem x y = Return r ∧ rep r (X mod Y).
Proof.
  intros Hx Hy HY. pose proof (fmod_rep _ _ _ _ Hx Hy HY) as Hmod.
  unfold rem. rewrite (nonzero_rep _ _ Hy).
  replace (Y =? 0) with false by (symmetry; apply Z.eqb_neq; lia). cbn [negb].
  rewrite (ltb_rep_zero _ _ Hy), (ltb_rep_zero _ _ Hmod). cbn [negb Bool.eqb].
  rewrite (nonzero_rep _ _ Hmod).
  destruct (X mod Y =? 0) eqn:Hz; cbn [negb].
  - apply Z.eqb_eq in Hz. rewrite Hz, (copysign_zero_rep _ _ Hy).
    eexists. split; [done|apply rep_zero].
  - eauto.
Qed.


Lemma rep_of_Z_3600 : rep (of_Z 3600) (3600 * 2 ^ 1074).
Proof. exists 7916483719987200, (-41). by vm_compute. Qed.

Lemma rep_of_Z_60 : rep (of_Z 60) (60 * 2 ^ 1074).
Proof. exists 8444249301319680, (-47). by vm_compute. Qed.

(** A non-negative binary64 value below [2^53] is a zero with a minus
    sign or has a value counted in units. *)
Lemma rep_below_two_53 x :
  is_binary64 x = true → nonneg x → ltb x two_53 = true →
  x = Ffin true 0 emin
  ∨ ∃ m e, x = Ffin false m e ∧ e <= 0 ∧ rep x (m * 2 ^ (e + 1074)).
Proof.
  destruct x as [|s|s m e]; intros Hb Hn Hlt.
  - done.
  - unfold nonneg in Hn. simpl in *. by destruct s.
  - apply nonneg_fin in Hn. unfold is_binary64, prec, emin, emax in Hb.
    apply andb_true_iff in Hb as [Hb Hc]. apply andb_true_iff in Hb as [Hb He2].
    apply andb_true_iff in Hb as [Hb He1]. apply andb_true_iff in Hb as [Hm1 Hm2].
    apply Z.leb_le in Hm1, He1, He2. apply Z.ltb_lt in Hm2.
    apply orb_true_iff in Hc. rewrite Z.eqb_eq, Z.leb_le in Hc.
    destruct s; simpl in Hn.
    + left. assert (m = 0) as -> by lia. destruct Hc as [->|?]; [done|lia].
    + right. exists m, e. split; [done|].
      assert (e <= 0) as He0.
      { destruct (Z_le_gt_dec e 0); [done|]. exfalso.
        destruct Hc as [->|Hc]; [lia|].
        unfold ltb, two_53, num, den in Hlt. simpl signed in Hlt.
        apply Z.ltb_lt in Hlt.
        replace (Z.max 0 e) with e in Hlt by lia.
        replace (Z.max 0 (- e)) with 0 in Hlt by lia.
        change (Z.max 0 (- 1)) with 0 in Hlt. change (Z.max 0 1) with 1 in Hlt.
        assert (2 ^ 1 <= 2 ^ e) by (apply Z.pow_le_mono_r; lia).
        change (2 ^ 0) with 1 in Hlt. change (2 ^ 1) with 2 in *. nia. }
      split; [done|]. exists m, e. unfold emin. repeat split; lia.
Qed.

Lemma whole_hours_units m e :
  emin <= e <= 0 →
  m * 2 ^ (e + 1074) / (3600 * 2 ^ 1074) = whole_hours (Ffin false m e).
Proof.
  intros He. unfold emin in *. unfold whole_hours. simpl signed.
  rewrite num_nonpos, den_nonpos by lia.
  replace (3600 * 2 ^ 1074) with (3600 * 2 ^ (- e) * 2 ^ (e + 1074))
    by (rewrite <- Z.mul_assoc, <- Z.pow_add_r by lia; do 2 f_equal; lia).
  assert (0 < 2 ^ (- e)) by (apply Z.pow_pos_nonneg; lia).
  assert (0 < 2 ^ (e + 1074)) by (apply Z.pow_pos_nonneg; lia).
  apply Z.div_mul_cancel_r; lia.
Qed.

Lemma whole_minutes_units m e :
  emin <= e <= 0 →
  (m * 2 ^ (e + 1074)) mod (3600 * 2 ^ 1074) / (60 * 2 ^ 1074)
  = whole_minutes (Ffin false m e).
Proof.
  intros He. unfold emin in *. unfold whole_minutes. simpl signed.
  rewrite num_nonpos, den_nonpos by lia.
  replace (3600 * 2 ^ 1074) with (3600 * 2 ^ (- e) * 2 ^ (e + 1074))
    by (rewrite <- Z.mul_assoc, <- Z.pow_add_r by lia; do 2 f_equal; lia).
  replace (60 * 2 ^ 1074) with (60 * 2 ^ (- e) * 2 ^ (e + 1074))
    by (rewrite <- Z.mul_assoc, <- Z.pow_add_r by lia; do 2 f_equal; lia).
  assert (0 < 2 ^ (- e)) by (apply Z.pow_pos_nonneg; lia).
  assert (0 < 2 ^ (e + 1074)) by (apply Z.pow_pos_nonneg; lia).
  rewrite Z.mul_mod_distr_r by lia.
  apply Z.div_mul_cancel_r; lia.
Qed.

End FloatExact.

(** ** Whole-number readings *)

Section WholeNumbers.
Local Open Scope Z_scope.

(** Two canonical floats of the same value are the same float. *)
Lemma canonical_unique m1 e1 m2 e2 :
  0 <= m1 < 2 ^ 53 → 0 <= m2 < 2 ^ 53 → emin <= e1 <= 0 → emin <= e2 <= 0 →
  (e1 = emin ∨ 2 ^ 52 <= m1) → (e2 = emin ∨ 2 ^ 52 <= m2) →
  m1 * 2 ^ (e1 + 1074) = m2 * 2 ^ (e2 + 1074) →
  m1 = m2 ∧ e1 = e2.
Proof.
  intros Hm1 Hm2 He1 He2 Hc1 Hc2 Hv. unfold emin in *.
  assert (e1 = e2) as ->.
  { destruct (Z.lt_trichotomy e1 e2) as [Hlt|[?|Hlt]]; [|done|]; exfalso.
    - assert (2 ^ (e2 + 1074) = 2 ^ (e2 - e1) * 2 ^ (e1 + 1074)) as Hs
        by (rewrite <- Z.pow_add_r by lia; f_equal; lia).
      assert (2 <= 2 ^ (e2 - e1))
        by (change 2 with (2 ^ 1) at 1; apply Z.pow_le_mono_r; lia).
      assert (0 < 2 ^ (e1 + 1074)) by (apply Z.pow_pos_nonneg; lia).
      rewrite Hs in Hv. destruct Hc2 as [?|?]; [lia|].
      assert (m1 = m2 * 2 ^ (e2 - e1)) by nia. nia.
    - assert (2 ^ (e1 + 1074) = 2 ^ (e1 - e2) * 2 ^ (e2 + 1074)) as Hs
        by (rewrite <- Z.pow_add_r by lia; f_equal; lia).
      assert (2 <= 2 ^ (e1 - e2))
        by (change 2 with (2 ^ 1) at 1; apply Z.pow_le_mono_r; lia).
      assert (0 < 2 ^ (e2 + 1074)) by (apply Z.pow_pos_nonneg; lia).
      rewrite Hs in Hv. destruct Hc1 as [?|?]; [lia|].
      assert (m2 = m1 * 2 ^ (e1 - e2)) by nia. nia. }
  split; [|done].
  assert (0 < 2 ^ (e2 + 1074)) by (apply Z.pow_pos_nonneg; lia). nia.
Qed.

(** The float of a whole number below [2^53], in canonical form. *)
Lemma of_Z_canonical z :
  0 <= z < 2 ^ 53 →
  ∃ m e, of_Z z = Ffin false m e ∧ 0 <= m < 2 ^ 53 ∧ emin <= e <= 0
         ∧ m * 2 ^ (e + 1074) = z * 2 ^ 1074 ∧ (e = emin ∨ 2 ^ 52 <= m).
Proof.
  intros Hz. unfold of_Z.
  replace (z <? 0) with false by (symmetry; apply Z.ltb_ge; lia).
  rewrite Z.abs_eq by lia. destruct (decide (z = 0)) as [->|Hne].
  - exists 0, emin. split; [done|]. split; [by compute|].
    split; [by compute|]. split; [by rewrite !Z.mul_0_l|by left].
  - destruct (round_exact z 1 z 0) as (q & e & -> & Hq & He & Hv & Hc);
      unfold emin; try lia.
    exists q, e. change (2 ^ (0 + 1074)) with (2 ^ 1074) in Hv. done.
Qed.

(** Adding whole numbers is exact as long as the sum stays below
    [2^53]. *)
Lemma add_of_Z a b :
  0 <= a → 0 <= b → a + b < 2 ^ 53 → add (of_Z a) (of_Z b) = of_Z (a + b).
Proof.
  intros Ha Hb Hab.
  destruct (of_Z_canonical a) as (m1 & e1 & -> & Hm1 & He1 & Hv1 & _); [lia|].
  destruct (of_Z_canonical b) as (m2 & e2 & -> & Hm2 & He2 & Hv2 & _); [lia|].
  destruct (of_Z_canonical (a + b)) as (m & e & -> & Hm & He & Hv & Hc); [lia|].
  unfold emin in *. unfold add. set (e' := Z.min e1 e2).
  assert (0 < 2 ^ (e' + 1074)) by (apply Z.pow_pos_nonneg; lia).
  simpl signed.
  set (M := m1 * 2 ^ (e1 - e') + m2 * 2 ^ (e2 - e')).
  assert (M * 2 ^ (e' + 1074) = m * 2 ^ (e + 1074)) as HM.
  { rewrite Hv, Z.mul_add_distr_r, <- Hv1, <- Hv2. unfold M.
    rewrite Z.mul_add_distr_r, <- !Z.mul_assoc, <- !Z.pow_add_r by lia.
    do 2 f_equal; f_equal; lia. }
  assert (0 < 2 ^ (e + 1074)) by (apply Z.pow_pos_nonneg; lia).
  assert (0 <= 2 ^ (e1 - e')) by (apply Z.pow_nonneg; lia).
  assert (0 <= 2 ^ (e2 - e')) by (apply Z.pow_nonneg; lia).
  assert (0 <= M) by (unfold M; nia).
  destruct (M =? 0) eqn:HM0.
  - apply Z.eqb_eq in HM0. rewrite HM0 in HM. assert (m = 0) as -> by nia.
    destruct Hc as [->|?]; [done|lia].
  - apply Z.eqb_neq in HM0.
    replace (M <? 0) with false by (symmetry; apply Z.ltb_ge; lia).
    rewrite Z.abs_eq, num_nonpos, den_nonpos by lia.
    destruct (round_exact M (2 ^ (- e')) m e) as (q & e'' & -> & ? & ? & Hq & ?);
      unfold emin;
      first [lia | apply Z.pow_pos_nonneg; lia
            | apply units_cross; unfold emin; lia | idtac].
    destruct (canonical_unique q e'' m e) as [-> ->]; unfold emin; try done; lia.
Qed.

Lemma fsum_of_Z a zs :
  0 <= a → Forall (λ z, 0 <= z) zs → a + foldr Z.add 0 zs < 2 ^ 53 →
  fsum (of_Z a) (of_Z <$> zs) = of_Z (a + foldr Z.add 0 zs).
Proof.
  intros Ha Hzs. revert a Ha. induction Hzs as [|z zs Hz Hzs IH]; intros a Ha Hlt.
  - simpl. by rewrite Z.add_0_r.
  - simpl in *. assert (0 <= foldr Z.add 0 zs).
    { clear -Hzs. induction Hzs; simpl; lia. }
    unfold fsum in *. simpl. rewrite add_of_Z by lia.
    rewrite IH by lia. f_equal. lia.
Qed.


Lemma omap_int_record user (days : list (gmap string Z)) :
  omap (.!! user) (int_record <$> days) = of_Z <$> omap (.!! user) days.
Proof.
  induction days as [|day days IH]; [done|].
  cbn [fmap list_fmap omap list_omap]. unfold int_record at 1.
  rewrite lookup_fmap. destruct (day !! user); simpl; by rewrite IH.
Qed.

Lemma int_total_omap user (days : list (gmap string Z)) :
  int_total user days = foldr Z.add 0 (omap (.!! user) days).
Proof.
  induction days as [|day days IH]; [done|].
  cbn [int_total foldr omap list_omap]. fold (int_total user days).
  rewrite IH. by destruct (day !! user).
Qed.

Lemma int_total_perm user (days days' : list (gmap string Z)) :
  days ≡ₚ days' → int_total user days = int_total user days'.
Proof.
  induction 1 as [|day ? ? ? IH|day1 day2 ?|? ? ? ? IH1 ? IH2]; simpl; lia.
Qed.

(** The total of whole-number records: every user has the float of its
    integer total. *)
Lemma aggregate_int_lookup user (days : list (gmap string Z)) :
  (∀ day u z, day ∈ days → day !! u = Some z → 0 <= z) →
  int_total user days < 2 ^ 53 →
  aggregate (int_record <$> days) !! user
  = match omap (.!! user) days with
    | [] => None
    | _ => Some (of_Z (int_total user days))
    end.
Proof.
  intros Hpos Hlt. rewrite aggregate_lookup, omap_int_record.
  rewrite int_total_omap in *.
  assert (Forall (λ z, 0 <= z) (omap (.!! user) days)) as Hall.
  { apply Forall_forall. intros z (day & Hin & Hz)%list_elem_of_omap. eauto. }
  destruct (omap (.!! user) days) as [|z zs] eqn:Ho; [done|].
  rewrite <- Ho in *. destruct (of_Z <$> omap (.!! user) days) eqn:Hf.
  { rewrite Ho in Hf. done. }
  rewrite <- Hf. f_equal. change zero with (of_Z 0).
  by rewrite fsum_of_Z.
Qed.

Lemma aggregate_int_perm (days days' : list (gmap string Z)) :
  days ≡ₚ days' →
  (∀ day user z, day ∈ days → day !! user = Some z → 0 <= z) →
  (∀ user, int_total user days < 2 ^ 53) →
  aggregate (int_record <$> days) = aggregate (int_record <$> days').
Proof.
  intros Hp Hpos Hlt. apply map_eq. intros user.
  assert (∀ day u z, day ∈ days' → day !! u = Some z → 0 <= z) as Hpos'.
  { intros day u z Hin. rewrite <- Hp in Hin. eauto. }
  assert (int_total user days' < 2 ^ 53) as Hlt'
    by (by rewrite <- (int_total_perm user _ _ Hp)).
  rewrite (aggregate_int_lookup user days), (aggregate_int_lookup user days') by done.
  rewrite (int_total_perm user _ _ Hp).
  assert (omap (.!! user) days ≡ₚ omap (.!! user) days') as Ho by (by rewrite Hp).
  destruct (omap (.!! user) days), (omap (.!! user) days'); try done.
  - by apply Permutation_nil_cons in Ho.
  - symmetry in Ho. by apply Permutation_nil_cons in Ho.
Qed.

End WholeNumbers.

(** ** Formatting (C6) *)

(** C6, as stated, fails at the far end of the non-negative values.  A
    line [alice inf] is accepted by [float] and gives the non-negative
    value [inf]; [inf // 3600] is a NaN, [int] of it raises
    [ValueError], and nothing is rendered.  And for the non-negative
    value 1e30 the quotient is rounded to a float before [int]
    truncates it: the hours rendered are 277777777777777796739760128,
    the floor of [1e30 / 3600] being 277777777777777783301284677. *)
Lemma human_readable_time_far_end :
  parse_text only_alice ("alice inf" +:+ PyStr.nl)
  = Return {[ "alice" := Finf false ]}
  ∧ nonneg (Finf false)
  ∧ _human_readable_time (Finf false) = Raise ValueError
  ∧ of_string "1e30" = Return f1e30
  ∧ is_binary64 f1e30 = true ∧ nonneg f1e30
  ∧ _human_readable_time f1e30
    = Return "277777777777777796739760128 hours 24 minutes"
  ∧ whole_hours f1e30 = 277777777777777783301284677%Z.
Proof. repeat split; by vm_compute. Qed.

(** C6, amended: for every non-negative float below [2^53] (285
    million years of CPU time) the formatter returns the text made of
    the exact whole hours, the floor of the value divided by 3600,
    [" hours "], the exact whole minutes left, the floor of (the value
    modulo 3600) divided by 60, and [" minutes"]; nothing is rounded
    up: 5400 gives ["1 hours 30 minutes"], 59 gives
    ["0 hours 0 minutes"] and 3659.999 gives ["1 hours 0 minutes"]. *)
Theorem human_readable_time_floor (seconds : pyfloat) :
  is_binary64 seconds = true → nonneg seconds → ltb seconds two_53 = true →
  _human_readable_time seconds
  = Return (pretty (whole_hours seconds) +:+ " hours "
            +:+ pretty (whole_minutes seconds) +:+ " minutes")
  ∧ (of_string "5400" ≫= _human_readable_time) = Return "1 hours 30 minutes"
  ∧ (of_string "59" ≫= _human_readable_time) = Return "0 hours 0 minutes"
  ∧ (of_string "3659.999" ≫= _human_readable_time) = Return "1 hours 0 minutes".
Proof.
  intros Hb Hn Hlt. split; [|repeat split; by vm_compute].
  destruct (rep_below_two_53 _ Hb Hn Hlt) as [->|(m & e & -> & He & Hrep)];
    [by vm_compute|].
  assert (emin <= e <= 0)%Z as He'.
  { destruct Hrep as (m' & e' & [= <- <-] & _ & ? & _). done. }
  destruct (floordiv_rep _ _ _ 3600 Hrep rep_of_Z_3600) as (h & Hh & Hhi); [lia|].
  destruct (rem_rep _ _ _ _ Hrep rep_of_Z_3600) as (r & Hr & Hrr); [by compute|].
  destruct (floordiv_rep _ _ _ 60 Hrr rep_of_Z_60) as (mi & Hmi & Hmii); [lia|].
  unfold _human_readable_time. rewrite Hh. cbn [mbind result_bind].
  rewrite Hhi. cbn [mbind result_bind]. rewrite Hr. cbn [mbind result_bind].
  rewrite Hmi. cbn [mbind result_bind]. rewrite Hmii. cbn [mbind result_bind].
  by rewrite whole_hours_units, whole_minutes_units.
Qed.

Lemma human_readable_time_floor_witness :
  _human_readable_time f5400
  = Return (pretty (whole_hours f5400) +:+ " hours "
            +:+ pretty (whole_minutes f5400) +:+ " minutes").
Proof.
  refine (proj1 (human_readable_time_floor f5400 _ _ _)); by vm_compute.
Defined.

(** * More of the code *)

(** ** The registry scan of [__init__] *)

Lemma split_on_go_length sep cur s :
  length (PyStr.split_on_go sep cur s) = S (count_char sep s).
Proof.
  revert cur. induction s as [|a s IH]; intros cur; [done|].
  simpl. destruct (Ascii.eqb a sep); simpl; by rewrite IH.
Qed.

Lemma split_on_fields line :
  (is_Some (PyStr.split_on ":" line !! 0) ∧ is_Some (PyStr.split_on ":" line !! 5))
  ↔ 5 ≤ count_char ":" line.
Proof.
  rewrite !lookup_lt_is_Some. unfold PyStr.split_on.
  rewrite split_on_go_length. lia.
Qed.

Lemma scan_passwd_line_returns isdir alive line :
  returns (scan_passwd_line isdir alive line) ↔ 5 ≤ count_char ":" line.
Proof.
  rewrite <- split_on_fields. unfold scan_passwd_line.
  destruct (PyStr.split_on ":" line !! 0) as [username|];
    destruct (PyStr.split_on ":" line !! 5) as [home|].
  - split; [eauto|]. intros _. destruct (_ && _); apply returns_Return.
  - split; [by intros ?%returns_Raise | by intros [_ [? ?]]].
  - split; [by intros ?%returns_Raise | by intros [[? ?] _]].
  - split; [by intros ?%returns_Raise | by intros [[? ?] _]].
Qed.

Lemma scan_passwd_line_raises isdir alive line e :
  scan_passwd_line isdir alive line = Raise e → e = IndexError.
Proof.
  unfold scan_passwd_line. repeat case_match; congruence.
Qed.

Lemma scan_passwd_returns isdir alive lines :
  returns (scan_passwd isdir alive lines)
  ↔ Forall (λ line, 5 ≤ count_char ":" line) lines.
Proof.
  revert alive. induction lines as [|line lines IH]; intros alive.
  - split; [constructor | intros; apply returns_Return].
  - cbn [scan_passwd]. rewrite Forall_cons, <- (scan_passwd_line_returns isdir alive).
    destruct (scan_passwd_line isdir alive line) as [e|alive'] eqn:Hl; simpl.
    + split; [by intros ?%returns_Raise | by intros [?%returns_Raise _]].
    + rewrite IH. split; [split; [apply returns_Return | done] | tauto].
Qed.

Lemma scan_passwd_raises isdir alive lines e :
  scan_passwd isdir alive lines = Raise e → e = IndexError.
Proof.
  revert alive. induction lines as [|line lines IH]; intros alive; [done|].
  cbn [scan_passwd].
  destruct (scan_passwd_line isdir alive line) as [e'|alive'] eqn:Hl; simpl.
  - intros [= <-]. by eapply scan_passwd_line_raises.
  - apply IH.
Qed.

(** X1: [__init__] returns exactly when every line of the registry
    holds five colons at least, so that it splits into the six fields
    the scan reads; any other line, a blank one included, makes it raise
    [IndexError], and it raises nothing else. *)
Theorem init_returns_iff isdir passwd :
  (returns (__init__ isdir passwd)
   ↔ Forall (λ line, 5 ≤ count_char ":" line) (PyStr.readlines passwd))
  ∧ (∀ e, __init__ isdir passwd = Raise e → e = IndexError)
  ∧ (∀ line, length (PyStr.split_on ":" line) = S (count_char ":" line)).
Proof.
  split; [|split].
  - rewrite <- (scan_passwd_returns isdir []). unfold __init__.
    destruct (scan_passwd isdir [] _) as [e|alive]; simpl.
    + split; by intros ?%returns_Raise.
    + split; intros _; apply returns_Return.
  - intros e. unfold __init__.
    destruct (scan_passwd isdir [] _) as [e'|alive] eqn:Hs; simpl; [|done].
    intros [= <-]. by eapply scan_passwd_raises.
  - intros line. apply split_on_go_length.
Qed.

(** The names the scan adds: one for every line whose sixth field is an
    existing directory with [home] in its path. *)
Lemma scan_passwd_elem isdir alive lines alive' user :
  scan_passwd isdir alive lines = Return alive' →
  user ∈ alive' ↔
  user ∈ alive ∨
  ∃ line username home_directory,
    line ∈ lines
    ∧ PyStr.split_on ":" line !! 0 = Some username
    ∧ PyStr.split_on ":" line !! 5 = Some home_directory
    ∧ isdir home_directory = true
    ∧ PyStr.contains "home" home_directory = true
    ∧ user = PyStr.take 8 username.
Proof.
  revert alive. induction lines as [|line lines IH]; intros alive Hs.
  - injection Hs as <-. split; [by left|].
    intros [?|(? & ? & ? & []%elem_of_nil & _)]. done.
  - cbn [scan_passwd] in Hs. unfold scan_passwd_line in Hs.
    destruct (PyStr.split_on ":" line !! 0) as [username|] eqn:H0; [|done].
    destruct (PyStr.split_on ":" line !! 5) as [home|] eqn:H5; [|done].
    destruct (isdir home) eqn:Hd; cbn [andb] in Hs.
    1: destruct (PyStr.contains "home" home) eqn:Hc.
    all: cbn [mbind result_bind] in Hs.
    all: rewrite (IH _ Hs); clear IH Hs.
    + rewrite elem_of_app, list_elem_of_singleton. split.
      * intros [[?| ->]|(l & u & h & Hin & ?)]; [by left|right..].
        -- exists line, username, home. split; [left|done].
        -- exists l, u, h. split; [by right|done].
      * intros [?|(l & u & h & Hin & Hu & Hh & Hi & Hco & ->)]; [by left; left|].
        apply elem_of_cons in Hin as [->|Hin]; [|right; eauto 10].
        left; right. congruence.
    + split.
      * intros [?|(l & u & h & Hin & ?)]; [by left|right].
        exists l, u, h. split; [by right|done].
      * intros [?|(l & u & h & Hin & Hu & Hh & Hi & Hco & ->)]; [by left|].
        apply elem_of_cons in Hin as [->|Hin]; [|right; eauto 10]. congruence.
    + split.
      * intros [?|(l & u & h & Hin & ?)]; [by left|right].
        exists l, u, h. split; [by right|done].
      * intros [?|(l & u & h & Hin & Hu & Hh & Hi & Hco & ->)]; [by left|].
        apply elem_of_cons in Hin as [->|Hin]; [|right; eauto 10]. congruence.
Qed.

(** X2: the allow list [__init__] builds holds exactly the first eight
    characters of the first field of every registry line whose sixth
    field names an existing directory and has [home] in it; an account
    whose home path lacks [home], or does not exist, is never listed. *)
Theorem init_alive_users isdir passwd self :
  __init__ isdir passwd = Return self →
  ∀ user, user ∈ ALIVE_USERS self ↔
    ∃ line username home_directory,
      line ∈ PyStr.readlines passwd
      ∧ PyStr.split_on ":" line !! 0 = Some username
      ∧ PyStr.split_on ":" line !! 5 = Some home_directory
      ∧ isdir home_directory = true
      ∧ PyStr.contains "home" home_directory = true
      ∧ user = PyStr.take 8 username.
Proof.
  unfold __init__.
  destruct (scan_passwd isdir [] _) as [e|alive] eqn:Hs; [done|]. simpl.
  intros [= <-] user. simpl.
  rewrite (scan_passwd_elem _ _ _ _ user Hs). split; [|by right].
  by intros [[]%elem_of_nil|?].
Qed.

Lemma init_alive_users_witness :
  "averylon" ∈ ALIVE_USERS registry_example ↔
    ∃ line username home_directory,
      line ∈ PyStr.readlines passwd_example
      ∧ PyStr.split_on ":" line !! 0 = Some username
      ∧ PyStr.split_on ":" line !! 5 = Some home_directory
      ∧ (λ _ : string, true) home_directory = true
      ∧ PyStr.contains "home" home_directory = true
      ∧ "averylon" = PyStr.take 8 username.
Proof.
  apply (init_alive_users (λ _, true) passwd_example registry_example).
  vm_compute. reflexivity.
Defined.

(** ** Writing a snapshot twice *)

Lemma save_logs_unfold today returncode stdout fs :
  save_logs today (Completed returncode stdout) fs
  = match write_entry (log_file today) (log_entry today stdout) (default [] fs) with
    | Some d' => (Return (), Some d')
    | None => (Raise IsADirectoryError, Some (default [] fs))
    end.
Proof.
  unfold save_logs, mbind, io_bind, os_makedirs, subprocess_run, mret, io_ret,
    write_file. simpl. by destruct (write_entry _ _ _).
Qed.

Lemma write_entry_twice name c1 c2 d d1 :
  write_entry name c1 d = Some d1 →
  write_entry name c2 d1 = write_entry name c2 d.
Proof.
  revert d1. induction d as [|[n e] d IH]; intros d1 Hw.
  - injection Hw as <-. simpl. by rewrite String.eqb_refl.
  - simpl in Hw. destruct (String.eqb n name) eqn:Hn.
    + destruct e as [c|]; [|done]. injection Hw as <-. simpl. by rewrite Hn.
    + destruct (write_entry name c1 d) as [d0|] eqn:Hd; [|done].
      injection Hw as <-. simpl. rewrite Hn. by rewrite (IH d0).
Qed.

Lemma write_entry_listdir name content d d' :
  write_entry name content d = Some d' →
  listdir d' = if decide (name ∈ listdir d) then listdir d else listdir d ++ [name].
Proof.
  unfold listdir. revert d'. induction d as [|[n e] d IH]; intros d' Hw.
  - injection Hw as <-. rewrite decide_False by apply not_elem_of_nil. done.
  - simpl in Hw. destruct (String.eqb n name) eqn:Hn.
    + apply String.eqb_eq in Hn as ->. destruct e as [c|]; [|done].
      injection Hw as <-. rewrite fmap_cons. simpl.
      rewrite decide_True by left. done.
    + apply String.eqb_neq in Hn.
      destruct (write_entry name content d) as [d0|] eqn:Hd; [|done].
      injection Hw as <-. rewrite !fmap_cons. simpl. rewrite (IH d0) by done.
      destruct (decide (name ∈ d.*1)) as [Hin|Hin].
      * rewrite decide_True by (by right). done.
      * rewrite decide_False; [done|].
        intros [?|?]%elem_of_cons; [by apply Hn|done].
Qed.

Lemma write_entry_isfile name content d d' :
  write_entry name content d = Some d' →
  Forall (λ ne, isfile ne.2 = true) d → Forall (λ ne, isfile ne.2 = true) d'.
Proof.
  revert d'. induction d as [|[n e] d IH]; intros d' Hw Hall.
  - injection Hw as <-. by repeat constructor.
  - inversion Hall as [|? ? He Hd]; subst. simpl in Hw.
    destruct (String.eqb n name).
    + destruct e as [c|]; [|done]. injection Hw as <-. by constructor.
    + destruct (write_entry name content d) as [d0|]; [|done].
      injection Hw as <-. constructor; [done|]. by apply IH.
Qed.

(** X3: a second snapshot taken on the same day replaces the first: the
    directory ends exactly as if the second alone had been taken, it
    lists the same names as after the first, and the day's file holds
    the second output only. *)
Theorem save_logs_same_day_replaces today rc1 out1 rc2 out2 fs d1 :
  save_logs today (Completed rc1 out1) fs = (Return (), Some d1) →
  ∃ d2,
    save_logs today (Completed rc2 out2) (Some d1) = (Return (), Some d2)
    ∧ save_logs today (Completed rc2 out2) fs = (Return (), Some d2)
    ∧ listdir d2 = listdir d1
    ∧ read_file (log_file today) (Some d2)
      = (Return (log_entry today out2), Some d2).
Proof.
  intros H1. apply save_logs_completed in H1 as (d & [= <-] & Hw1).
  pose proof (write_entry_lookup _ _ _ _ Hw1) as [Hl1 _].
  destruct (write_entry_succeeds (log_file today) (log_entry today out2) d1)
    as [d2 Hw2]; [by rewrite Hl1|].
  exists d2. rewrite !save_logs_unfold. simpl (default [] (Some d1)).
  rewrite Hw2. rewrite <- (write_entry_twice _ _ (log_entry today out2) _ _ Hw1), Hw2.
  split; [done|]. split; [done|]. split.
  - rewrite (write_entry_listdir _ _ _ _ Hw2). rewrite decide_True; [done|].
    rewrite (write_entry_listdir _ _ _ _ Hw1).
    destruct (decide (_ ∈ _)); [done|]. apply elem_of_app. right. left.
  - apply write_entry_lookup in Hw2 as [Hl2 _]. unfold read_file. by rewrite Hl2.
Qed.

Lemma save_logs_same_day_replaces_witness :
  ∃ d2,
    save_logs march_7 (Completed 1 sa_output)
      (Some [(log_file march_7, File (log_entry march_7 EmptyString))])
    = (Return (), Some d2)
    ∧ save_logs march_7 (Completed 1 sa_output) None = (Return (), Some d2)
    ∧ listdir d2 = listdir [(log_file march_7, File (log_entry march_7 EmptyString))]
    ∧ read_file (log_file march_7) (Some d2)
      = (Return (log_entry march_7 sa_output), Some d2).
Proof.
  apply (save_logs_same_day_replaces march_7 0 EmptyString 1 sa_output None).
  reflexivity.
Defined.

(** ** File names and days *)

Lemma compare_digit_char x y :
  Ascii.compare (digit_char x) (digit_char y) = Nat.compare (x mod 10) (y mod 10).
Proof.
  unfold digit_char.
  pose proof (Nat.mod_upper_bound x 10 ltac:(lia)) as Hx.
  pose proof (Nat.mod_upper_bound y 10 ltac:(lia)) as Hy.
  revert Hx Hy. generalize (x mod 10) (y mod 10). intros i j Hi Hj.
  do 10 (destruct i as [|i]; [do 10 (destruct j as [|j]; [reflexivity|]); lia|]).
  lia.
Qed.

Lemma string_compare_cons c1 s1 c2 s2 :
  String.compare (String c1 s1) (String c2 s2)
  = match Ascii.compare c1 c2 with
    | Eq => String.compare s1 s2
    | r => r
    end.
Proof. reflexivity. Qed.

Lemma string_compare_same c s1 s2 :
  String.compare (String c s1) (String c s2) = String.compare s1 s2.
Proof.
  rewrite string_compare_cons. unfold Ascii.compare. by rewrite N.compare_refl.
Qed.

Lemma string_compare_refl s : String.compare s s = Eq.
Proof. induction s as [|c s IH]; [done|]. by rewrite string_compare_same. Qed.

(** The comparison of two file names is the comparison of the digits of
    their dates, the year first. *)
Lemma log_file_compare a b :
  String.compare (log_file a) (log_file b)
  = match Nat.compare ((year a / 1000) mod 10) ((year b / 1000) mod 10) with
    | Eq =>
    match Nat.compare ((year a / 100) mod 10) ((year b / 100) mod 10) with
    | Eq =>
    match Nat.compare ((year a / 10) mod 10) ((year b / 10) mod 10) with
    | Eq =>
    match Nat.compare (year a mod 10) (year b mod 10) with
    | Eq =>
    match Nat.compare ((month a / 10) mod 10) ((month b / 10) mod 10) with
    | Eq =>
    match Nat.compare (month a mod 10) (month b mod 10) with
    | Eq =>
    match Nat.compare ((day a / 10) mod 10) ((day b / 10) mod 10) with
    | Eq => Nat.compare (day a mod 10) (day b mod 10)
    | r => r end | r => r end | r => r end | r => r end
    | r => r end | r => r end | r => r end.
Proof.
  unfold log_file, isoformat. rewrite !string_app_cons.
  change (EmptyString +:+ ?s) with s.
  rewrite !string_compare_cons, !compare_digit_char.
  replace (Ascii.compare "-" "-") with Eq by reflexivity.
  rewrite string_compare_refl.
  repeat (destruct (_ ?= _); try reflexivity).
Qed.

Lemma digits4 n :
  n < 10 * 1000 →
  n = 1000 * ((n / 1000) mod 10) + 100 * ((n / 100) mod 10)
      + 10 * ((n / 10) mod 10) + n mod 10.
Proof.
  intros Hn.
  replace (n / 1000) with (n / 10 / 10 / 10)
    by (by rewrite !Nat.Div0.div_div).
  replace (n / 100) with (n / 10 / 10) by (by rewrite !Nat.Div0.div_div).
  pose proof (Nat.div_mod_eq n 10). pose proof (Nat.div_mod_eq (n / 10) 10).
  pose proof (Nat.div_mod_eq (n / 10 / 10) 10).
  pose proof (Nat.div_mod_eq (n / 10 / 10 / 10) 10). lia.
Qed.

Lemma digits2 n : n < 100 → n = 10 * ((n / 10) mod 10) + n mod 10.
Proof.
  intros Hn. pose proof (Nat.div_mod_eq n 10).
  pose proof (Nat.div_mod_eq (n / 10) 10). lia.
Qed.

(** Comparing numbers of four digits, or of two, digit by digit. *)
Lemma lex_digits4 n m (K : comparison) :
  n < 10 * 1000 → m < 10 * 1000 →
  match (n / 1000) mod 10 ?= (m / 1000) mod 10 with
  | Eq =>
    match (n / 100) mod 10 ?= (m / 100) mod 10 with
    | Eq =>
      match (n / 10) mod 10 ?= (m / 10) mod 10 with
      | Eq => match n mod 10 ?= m mod 10 with Eq => K | r => r end
      | r => r end
    | r => r end
  | r => r end
  = match n ?= m with Eq => K | r => r end.
Proof.
  intros Hn Hm. pose proof (digits4 n Hn) as En. pose proof (digits4 m Hm) as Em.
  pose proof (Nat.mod_upper_bound (n / 100) 10 ltac:(lia)) as A2.
  pose proof (Nat.mod_upper_bound (n / 10) 10 ltac:(lia)) as A1.
  pose proof (Nat.mod_upper_bound n 10 ltac:(lia)) as A0.
  pose proof (Nat.mod_upper_bound (m / 100) 10 ltac:(lia)) as B2.
  pose proof (Nat.mod_upper_bound (m / 10) 10 ltac:(lia)) as B1.
  pose proof (Nat.mod_upper_bound m 10 ltac:(lia)) as B0.
  revert En Em A2 A1 A0 B2 B1 B0.
  generalize ((n / 1000) mod 10) ((n / 100) mod 10) ((n / 10) mod 10) (n mod 10).
  generalize ((m / 1000) mod 10) ((m / 100) mod 10) ((m / 10) mod 10) (m mod 10).
  intros b3 b2 b1 b0 a3 a2 a1 a0 En Em A2 A1 A0 B2 B1 B0.
  destruct (Nat.compare_spec a3 b3); [|destruct (Nat.compare_spec n m); first [reflexivity | lia]..].
  destruct (Nat.compare_spec a2 b2); [|destruct (Nat.compare_spec n m); first [reflexivity | lia]..].
  destruct (Nat.compare_spec a1 b1); [|destruct (Nat.compare_spec n m); first [reflexivity | lia]..].
  destruct (Nat.compare_spec a0 b0); destruct (Nat.compare_spec n m); first [reflexivity | lia].
Qed.

Lemma lex_digits2 n m (K : comparison) :
  n < 100 → m < 100 →
  match (n / 10) mod 10 ?= (m / 10) mod 10 with
  | Eq => match n mod 10 ?= m mod 10 with Eq => K | r => r end
  | r => r end
  = match n ?= m with Eq => K | r => r end.
Proof.
  intros Hn Hm. pose proof (digits2 n Hn) as En. pose proof (digits2 m Hm) as Em.
  pose proof (Nat.mod_upper_bound n 10 ltac:(lia)) as A0.
  pose proof (Nat.mod_upper_bound m 10 ltac:(lia)) as B0.
  revert En Em A0 B0.
  generalize ((n / 10) mod 10) (n mod 10) ((m / 10) mod 10) (m mod 10).
  intros a1 a0 b1 b0 En Em A0 B0.
  destruct (Nat.compare_spec a1 b1); [|destruct (Nat.compare_spec n m); first [reflexivity | lia]..].
  destruct (Nat.compare_spec a0 b0); destruct (Nat.compare_spec n m); first [reflexivity | lia].
Qed.

Lemma compare_digits2 n m :
  n < 100 → m < 100 →
  match (n / 10) mod 10 ?= (m / 10) mod 10 with
  | Eq => n mod 10 ?= m mod 10
  | r => r end
  = (n ?= m).
Proof.
  intros Hn Hm.
  transitivity (match n ?= m with Eq => Eq | r => r end);
    [|by destruct (n ?= m)].
  rewrite <- (lex_digits2 n m Eq) by done.
  repeat destruct (_ ?= _); reflexivity.
Qed.

Lemma log_file_order a b :
  valid_date a → valid_date b →
  match String.compare (log_file a) (log_file b) with
  | Lt => earlier a b
  | Eq => a = b
  | Gt => earlier b a
  end.
Proof.
  intros (Hy & Hm & Hd) (Hy' & Hm' & Hd'). rewrite log_file_compare.
  rewrite lex_digits4, lex_digits2, compare_digits2 by lia.
  unfold earlier. destruct a as [ya ma da], b as [yb mb db]. simpl in *.
  destruct (Nat.compare_spec ya yb); [|lia..].
  destruct (Nat.compare_spec ma mb); [|lia..].
  destruct (Nat.compare_spec da db); [|lia..]. by subst.
Qed.

Lemma earlier_asym a b : earlier a b → ¬ (earlier b a ∨ b = a).
Proof.
  unfold earlier. destruct a, b; simpl. intros H [H'|[= -> -> ->]]; lia.
Qed.

(** X4: for two calendar dates, the names of their snapshot files
    compare in code-point order as the days do in time, which is what
    lets [files.sort()] put the oldest snapshots first; and different
    days have different file names. *)
Theorem log_file_chronological a b :
  valid_date a → valid_date b →
  (String.le (log_file a) (log_file b) ↔ earlier a b ∨ a = b)
  ∧ (log_file a = log_file b → a = b).
Proof.
  intros Ha Hb. pose proof (log_file_order a b Ha Hb) as Ho.
  unfold String.le, String.leb. split.
  - destruct (String.compare (log_file a) (log_file b)).
    + split; [by right | done].
    + split; [by left | done].
    + split; [done|]. intros H. by apply earlier_asym in Ho.
  - intros He. rewrite He, string_compare_refl in Ho. done.
Qed.

Lemma log_file_chronological_witness :
  (String.le (log_file march_7) (log_file {| year := 2024; month := 11; day := 2 |})
   ↔ earlier march_7 {| year := 2024; month := 11; day := 2 |}
     ∨ march_7 = {| year := 2024; month := 11; day := 2 |})
  ∧ (log_file march_7 = log_file {| year := 2024; month := 11; day := 2 |}
     → march_7 = {| year := 2024; month := 11; day := 2 |}).
Proof.
  apply (log_file_chronological march_7 {| year := 2024; month := 11; day := 2 |});
    unfold valid_date; cbn [year month day march_7]; lia.
Defined.

(** X5: when the directory holds one snapshot file for each of a list
    of calendar days, named as [save_logs] names them,
    [clear_previous_logs] keeps the files of the seven latest days:
    seven of them are left, or all when there were fewer, and every day
    whose file was removed is before every day whose file was kept. *)
Theorem clear_previous_logs_keeps_latest_days (d : logdir) (days : list date) :
  snapshot_store d → Forall valid_date days → listdir d = log_file <$> days →
  ∃ d', clear_previous_logs (Some d) = (Return (), Some d')
    ∧ length d' = Nat.min 7 (length days)
    ∧ ∀ a b, a ∈ days → b ∈ days →
        log_file a ∉ listdir d' → log_file b ∈ listdir d' → earlier a b.
Proof.
  intros Hs Hv Hl. exists (survivors d).
  split; [by apply clear_previous_logs_run|]. destruct Hs as [Hnd Hall]. split.
  - rewrite survivors_length by done.
    replace (length d) with (length (listdir d))
      by (unfold listdir; apply length_fmap).
    by rewrite Hl, length_fmap.
  - intros a b Ha Hb Hna Hkb.
    assert (log_file a ∈ listdir d) as Hin
      by (rewrite Hl; by apply list_elem_of_fmap_2).
    destruct (survivors_newest d _ _ Hnd Hin Hna Hkb) as [Hle Hne].
    assert (valid_date a) as Hva by (by eapply Forall_forall in Hv).
    assert (valid_date b) as Hvb by (by eapply Forall_forall in Hv).
    pose proof (log_file_order a b Hva Hvb) as Ho.
    unfold String.le, String.leb in Hle.
    destruct (String.compare (log_file a) (log_file b)); [|done..].
    by subst.
Qed.

Lemma clear_previous_logs_keeps_latest_days_witness :
  ∃ d', clear_previous_logs (Some nine_days) = (Return (), Some d')
    ∧ length d' = Nat.min 7 (length nine_dates)
    ∧ ∀ a b, a ∈ nine_dates → b ∈ nine_dates →
        log_file a ∉ listdir d' → log_file b ∈ listdir d' → earlier a b.
Proof.
  apply (clear_previous_logs_keeps_latest_days nine_days nine_dates).
  - split; by_evaluation.
  - unfold nine_dates. cbn [fmap list_fmap].
    repeat (apply Forall_cons; split;
            [unfold valid_date; cbn [year month day]; lia|]).
    by apply Forall_nil.
  - reflexivity.
Defined.

(** ** Retention on any directory *)

Lemma lookup_entry_filter (P : string → Prop) `{!∀ x, Decision (P x)} name (d : logdir) :
  P name → lookup_entry name (filter (λ ne, P ne.1) d) = lookup_entry name d.
Proof.
  intros HP. induction d as [|[n e] d IH]; [done|].
  rewrite filter_cons. simpl. destruct (decide (P n)) as [Hn|Hn]; simpl.
  - by rewrite IH.
  - rewrite IH. destruct (String.eqb n name) eqn:He; [|done].
    apply String.eqb_eq in He as ->. done.
Qed.

Lemma remove_all_app names1 names2 fs :
  remove_all (names1 ++ names2) fs
  = match remove_all names1 fs with
    | (Return _, fs') => remove_all names2 fs'
    | (Raise e, fs') => (Raise e, fs')
    end.
Proof.
  revert fs. induction names1 as [|name names1 IH]; intros fs; [done|].
  cbn [app remove_all]. unfold mbind, io_bind.
  destruct (os_remove name fs) as [[e|[]] fs1]; [done|]. apply IH.
Qed.

(** Removing names that are all regular files, each once. *)
Lemma remove_all_files (names : list string) (d : logdir) :
  NoDup names →
  Forall (λ name, ∃ content, lookup_entry name d = Some (File content)) names →
  remove_all names (Some d)
  = (Return (), Some (filter (λ ne, ne.1 ∉ names) d)).
Proof.
  revert d. induction names as [|name names IH]; intros d Hnd Hf.
  - simpl. unfold mret, io_ret. do 2 f_equal. symmetry. clear Hnd Hf.
    induction d as [|x d IHd]; [done|].
    rewrite filter_cons_True; [|apply not_elem_of_nil]. by f_equal.
  - apply NoDup_cons in Hnd as [Hnotin Hnd].
    inversion Hf as [|? ? [c Hc] Hf']; subst.
    cbn [remove_all]. unfold mbind, io_bind, os_remove. rewrite Hc.
    rewrite IH; [|done|].
    + do 2 f_equal. rewrite list_filter_filter.
      apply list_filter_iff. intros [n e]. simpl.
      rewrite not_elem_of_cons. tauto.
    + apply Forall_forall. intros x Hx.
      eapply Forall_forall in Hf' as [cx Hcx]; [|exact Hx].
      exists cx. rewrite <- Hcx.
      pose proof (lookup_entry_filter (λ n, n ≠ name) x d) as Hlf.
      simpl in Hlf. apply Hlf. by intros ->.
Qed.

(** X6: what [clear_previous_logs] does on any directory, sub-directories
    included.  It never asks whether an entry is a file: a missing
    directory makes it raise [FileNotFoundError]; seven entries or
    fewer, of any kind, are left alone; with more, the entries to go
    are all but the last seven of the sorted listing, sub-directories
    counting among the seven; when they are all files they are removed,
    and when one of them is a sub-directory the run stops there with
    [IsADirectoryError], the files sorted before it being gone
    already. *)
Theorem clear_previous_logs_any_entries (d : logdir) :
  NoDup (listdir d) →
  clear_previous_logs None = (Raise FileNotFoundError, None)
  ∧ (length d ≤ 7 → clear_previous_logs (Some d) = (Return (), Some d))
  ∧ (7 < length d →
     Forall (λ name, ∃ content, lookup_entry name d = Some (File content))
            (take (length d - 7) (sort_names (listdir d))) →
     clear_previous_logs (Some d)
     = (Return (),
        Some (filter (λ ne, ne.1 ∉ take (length d - 7) (sort_names (listdir d))) d)))
  ∧ (∀ before name after,
       7 < length d →
       take (length d - 7) (sort_names (listdir d)) = before ++ name :: after →
       Forall (λ name, ∃ content, lookup_entry name d = Some (File content)) before →
       lookup_entry name d = Some Directory →
       clear_previous_logs (Some d)
       = (Raise IsADirectoryError, Some (filter (λ ne, ne.1 ∉ before) d))).
Proof.
  intros Hnd.
  assert (length (listdir d) = length d) as Hl
    by (unfold listdir; apply length_fmap).
  assert (length (sort_names (listdir d)) = length d) as Hsl
    by (by rewrite sort_names_perm).
  assert (NoDup (take (length d - 7) (sort_names (listdir d)))) as Hndt.
  { eapply NoDup_Permutation_proper in Hnd; [|apply sort_names_perm].
    rewrite <- (take_drop (length d - 7)) in Hnd.
    by apply NoDup_app in Hnd as [? _]. }
  split; [done|]. split; [|split].
  - intros Hlen. unfold clear_previous_logs, mbind, io_bind. simpl.
    rewrite Hl. by replace (7 <? length d) with false
      by (symmetry; apply Nat.ltb_ge; lia).
  - intros Hlen Hf. unfold clear_previous_logs, mbind, io_bind. simpl.
    rewrite Hl, Hsl. replace (7 <? length d) with true
      by (symmetry; apply Nat.ltb_lt; lia).
    by apply remove_all_files.
  - intros before name after Hlen Ht Hf Hdir.
    unfold clear_previous_logs, mbind, io_bind. simpl.
    rewrite Hl, Hsl. replace (7 <? length d) with true
      by (symmetry; apply Nat.ltb_lt; lia).
    rewrite Ht in *. apply NoDup_app in Hndt as (Hndb & Hdisj & _).
    rewrite remove_all_app, remove_all_files by done.
    cbn [remove_all]. unfold mbind, io_bind, os_remove.
    pose proof (lookup_entry_filter (λ n, n ∉ before) name d) as Hlf.
    simpl in Hlf. rewrite Hlf, Hdir; [done|].
    intros Hin. apply (Hdisj _ Hin). left.
Qed.

Lemma clear_previous_logs_any_entries_witness :
  clear_previous_logs (Some nine_with_folder)
  = (Raise IsADirectoryError,
     Some (filter (λ ne, ne.1 ∉ ["2024-01-01.log"]) nine_with_folder)).
Proof.
  refine (proj2 (proj2 (proj2 (clear_previous_logs_any_entries nine_with_folder _)))
            ["2024-01-01.log"] "2024-01-02.log" [] _ _ _ _).
  - by_evaluation.
  - simpl. lia.
  - reflexivity.
  - repeat constructor. by eexists.
  - reflexivity.
Defined.

(** ** The order of the listing *)

Lemma sort_names_unique files files' :
  files ≡ₚ files' → sort_names files = sort_names files'.
Proof.
  intros Hp. apply (StronglySorted_unique String.le);
    [apply sort_names_sorted..|].
  by rewrite !sort_names_perm.
Qed.

Lemma survivors_Permutation (d d' : logdir) : d ≡ₚ d' → survivors d ≡ₚ survivors d'.
Proof.
  intros Hp. assert (listdir d ≡ₚ listdir d') as Hl by (unfold listdir; by rewrite Hp).
  unfold survivors. rewrite (sort_names_unique _ _ Hl), <- (Permutation_length Hl).
  destruct (7 <? length (listdir d)); [|done]. by rewrite Hp.
Qed.

(** X17: which snapshots [clear_previous_logs] keeps does not depend on
    the order in which [os.listdir] hands the names out: over two
    listings of the same directory of snapshot files it leaves the same
    files. *)
Theorem clear_previous_logs_listing_order (d d' : logdir) :
  snapshot_store d → d ≡ₚ d' →
  ∃ kept kept',
    clear_previous_logs (Some d) = (Return (), Some kept)
    ∧ clear_previous_logs (Some d') = (Return (), Some kept')
    ∧ kept ≡ₚ kept'.
Proof.
  intros Hs Hp. assert (snapshot_store d') as Hs'.
  { destruct Hs as [Hnd Hall]. split.
    - unfold listdir in *. by rewrite <- Hp.
    - by rewrite <- Hp. }
  exists (survivors d), (survivors d').
  split; [by apply clear_previous_logs_run|].
  split; [by apply clear_previous_logs_run|]. by apply survivors_Permutation.
Qed.

Lemma clear_previous_logs_listing_order_witness :
  ∃ kept kept',
    clear_previous_logs (Some nine_days) = (Return (), Some kept)
    ∧ clear_previous_logs (Some (reverse nine_days)) = (Return (), Some kept')
    ∧ kept ≡ₚ kept'.
Proof.
  apply (clear_previous_logs_listing_order nine_days (reverse nine_days)).
  - split; by_evaluation.
  - symmetry. apply reverse_Permutation.
Defined.

(** ** The aggregation loop *)

Lemma aggregate_files_eq self total files d :
  aggregate_files self total files (Some d)
  = (merge_texts self total (contents_of d files), Some d).
Proof.
  revert total. induction files as [|file_name files IH]; intros total; [done|].
  cbn [aggregate_files]. unfold mbind at 1, io_bind at 1, os_path_isfile.
  unfold contents_of. cbn [omap list_omap]. simpl (Some d ≫= _).
  destruct (lookup_entry file_name d) as [[content|]|] eqn:Hl; simpl.
  2,3: apply IH.
  unfold mbind at 1, io_bind at 1. rewrite (parse_log_file _ _ _ _ Hl).
  destruct (parse_text self content) as [e|daily]; [done|]. apply IH.
Qed.

Lemma aggregate_cpu_usage_eq self d :
  aggregate_cpu_usage self (Some d)
  = (total ← merge_texts self ∅ (contents_of d (listdir d));
     Return (with_total self total, total), Some d).
Proof.
  unfold aggregate_cpu_usage, mbind at 1, io_bind at 1, os_listdir.
  unfold mbind at 1, io_bind at 1. rewrite aggregate_files_eq.
  by destruct (merge_texts _ _ _).
Qed.

Lemma merge_texts_returns self total texts :
  returns (merge_texts self total texts)
  ↔ Forall (λ content, returns (parse_text self content)) texts.
Proof.
  revert total. induction texts as [|content texts IH]; intros total.
  - split; [constructor | intros; apply returns_Return].
  - cbn [merge_texts]. rewrite Forall_cons.
    destruct (parse_text self content) as [e|daily]; simpl.
    + split; [by intros ?%returns_Raise | by intros [?%returns_Raise _]].
    + rewrite IH. split; [split; [apply returns_Return | done] | tauto].
Qed.

Lemma merge_texts_raises self total texts e :
  merge_texts self total texts = Raise e → e = ValueError.
Proof.
  revert total. induction texts as [|content texts IH]; intros total; [done|].
  cbn [merge_texts]. destruct (parse_text self content) as [e'|daily] eqn:Hp; simpl.
  - intros [= <-]. by eapply parse_lines_raises.
  - apply IH.
Qed.

Lemma merge_texts_culprit self total texts e :
  merge_texts self total texts = Raise e →
  ∃ content, content ∈ texts ∧ ¬ returns (parse_text self content).
Proof.
  revert total. induction texts as [|content texts IH]; intros total; [done|].
  cbn [merge_texts]. destruct (parse_text self content) as [e'|daily] eqn:Hp; simpl.
  - intros _. exists content. split; [left|]. rewrite Hp. apply returns_Raise.
  - intros (c & Hin & Hbad)%IH. exists c. split; [by right|done].
Qed.

Lemma elem_of_contents_of d files content :
  content ∈ contents_of d files
  ↔ ∃ name, name ∈ files ∧ lookup_entry name d = Some (File content).
Proof.
  unfold contents_of. rewrite list_elem_of_omap. split.
  - intros (name & Hin & Hc). exists name. split; [done|].
    destruct (lookup_entry name d) as [[c|]|]; simplify_eq/=. done.
  - intros (name & Hin & Hl). exists name. split; [done|]. by rewrite Hl.
Qed.

Lemma lookup_entry_listdir name d e :
  lookup_entry name d = Some e → name ∈ listdir d.
Proof.
  unfold listdir. induction d as [|[n e'] d IH]; [done|]. simpl.
  destruct (String.eqb n name) eqn:Hn.
  - apply String.eqb_eq in Hn as ->. intros _. left.
  - intros H. right. by apply IH.
Qed.

(** X7: [aggregate_cpu_usage] only reads: whether it returns or
    raises, the log directory is afterwards what it was before, and so
    it is after [parse_log] on any path; and when the directory is
    missing it raises [FileNotFoundError]. *)
Theorem aggregate_cpu_usage_only_reads self fs :
  (aggregate_cpu_usage self fs).2 = fs
  ∧ (∀ file_path, (parse_log self file_path fs).2 = fs)
  ∧ aggregate_cpu_usage self None = (Raise FileNotFoundError, None).
Proof.
  split; [|split; [|done]].
  - destruct fs as [d|]; [|done]. by rewrite aggregate_cpu_usage_eq.
  - intros file_path. unfold parse_log, mbind, io_bind, read_file, pure_result.
    destruct fs as [d|]; [|done].
    by destruct (lookup_entry file_path d) as [[content|]|].
Qed.

(** X8: the aggregation is all or nothing.  Over an existing directory
    it raises exactly when some regular file of the directory does not
    parse, the exception is [ValueError], and no total comes back for
    the files that did parse. *)
Theorem aggregate_cpu_usage_all_or_nothing self d :
  (aggregate_cpu_usage self (Some d) = (Raise ValueError, Some d)
   ↔ ∃ name content,
       lookup_entry name d = Some (File content)
       ∧ ¬ returns (parse_text self content))
  ∧ (∀ e fs', aggregate_cpu_usage self (Some d) = (Raise e, fs') →
       e = ValueError ∧ fs' = Some d).
Proof.
  rewrite aggregate_cpu_usage_eq.
  pose proof (merge_texts_returns self ∅ (contents_of d (listdir d))) as Hr.
  destruct (merge_texts self ∅ (contents_of d (listdir d))) as [e|total] eqn:Hm;
    simpl.
  - pose proof (merge_texts_raises _ _ _ _ Hm) as ->. split.
    + split; [intros _ | done].
      apply merge_texts_culprit in Hm as (content & Hin & Hbad).
      apply elem_of_contents_of in Hin as (name & _ & Hl). eauto.
    + by intros e fs' [= <- <-].
  - split; [|done]. split; [done|].
    intros (name & content & Hl & Hbad). exfalso. apply Hbad.
    assert (Forall (λ content, returns (parse_text self content))
              (contents_of d (listdir d))) as Hall
      by (apply Hr, returns_Return).
    eapply Forall_forall in Hall; [exact Hall|].
    apply elem_of_contents_of. exists name. split; [|done].
    by eapply lookup_entry_listdir.
Qed.

(** The loop reads [self] for its allow list only. *)
Lemma parse_lines_with_total self t m lines :
  parse_lines (with_total self t) m lines = parse_lines self m lines.
Proof.
  revert m. induction lines as [|line lines IH]; intros m; [done|].
  cbn [parse_lines]. change (parse_line (with_total self t) m line)
    with (parse_line self m line).
  destruct (parse_line self m line); [done|]. apply IH.
Qed.

Lemma merge_texts_with_total self t total texts :
  merge_texts (with_total self t) total texts = merge_texts self total texts.
Proof.
  revert total. induction texts as [|content texts IH]; intros total; [done|].
  cbn [merge_texts]. unfold parse_text. rewrite parse_lines_with_total.
  destruct (parse_lines self ∅ _); [done|]. apply IH.
Qed.

(** X9: the total is rebuilt from the files on every call, never
    added to: what [total_usage] held before the call has no effect on
    the outcome, and calling [aggregate_cpu_usage] again right after a
    call that returned gives the same total once more. *)
Theorem aggregate_cpu_usage_repeatable self fs :
  (∀ previous, aggregate_cpu_usage (with_total self previous) fs
               = aggregate_cpu_usage self fs)
  ∧ (∀ self' total fs',
       aggregate_cpu_usage self fs = (Return (self', total), fs') →
       aggregate_cpu_usage self' fs' = (Return (self', total), fs')).
Proof.
  assert (∀ previous, aggregate_cpu_usage (with_total self previous) fs
                      = aggregate_cpu_usage self fs) as Hsame.
  { intros previous. destruct fs as [d|]; [|done].
    rewrite !aggregate_cpu_usage_eq, merge_texts_with_total. done. }
  split; [done|]. intros self' total fs' Ha.
  pose proof Ha as Ha'.
  apply aggregate_cpu_usage_spec in Ha' as (-> & Ht & Hu & _).
  assert (self' = with_total self total) as ->.
  { destruct self'. simpl in *. unfold with_total. by subst. }
  by rewrite Hsame.
Qed.

Lemma contents_of_cons d name files :
  contents_of d (name :: files)
  = match lookup_entry name d ≫= file_content with
    | Some content => content :: contents_of d files
    | None => contents_of d files
    end.
Proof. reflexivity. Qed.

Lemma contents_of_ext d1 d2 files :
  (∀ name, name ∈ files → lookup_entry name d1 = lookup_entry name d2) →
  contents_of d1 files = contents_of d2 files.
Proof.
  intros H. unfold contents_of. induction files as [|name files IH]; [done|].
  cbn [omap list_omap]. rewrite (H name) by left.
  rewrite IH; [done|]. intros n Hn. apply H. by right.
Qed.

(** In a directory that lists every name once, the texts read are those
    of its regular files, in listing order. *)
Lemma contents_of_listdir d :
  NoDup (listdir d) →
  contents_of d (listdir d) = omap (λ ne, file_content ne.2) d.
Proof.
  unfold listdir. induction d as [|[n e] d IH]; intros Hnd; [done|].
  rewrite fmap_cons in Hnd. apply NoDup_cons in Hnd as [Hn Hnd]. simpl in Hn.
  rewrite fmap_cons.
  assert (contents_of ((n, e) :: d) d.*1 = omap (λ ne, file_content ne.2) d) as Hrest.
  2:{ rewrite contents_of_cons, Hrest. cbn [lookup_entry omap list_omap snd].
      by rewrite String.eqb_refl. }
  rewrite <- IH by done. apply (contents_of_ext ((n, e) :: d) d).
  intros name Hin. simpl. destruct (String.eqb n name) eqn:He; [|done].
  apply String.eqb_eq in He as ->. done.
Qed.

Lemma omap_file_content_filter (d : logdir) :
  omap (λ ne, file_content ne.2) (filter (λ ne, isfile ne.2 = true) d)
  = omap (λ ne, file_content ne.2) d.
Proof.
  induction d as [|[n [c|]] d IH]; [done|..].
  - rewrite filter_cons_True by done. cbn [omap list_omap]. simpl. by rewrite IH.
  - rewrite filter_cons_False by done. cbn [omap list_omap]. simpl. exact IH.
Qed.

(** X10: sub-directories of the log directory count for nothing in the
    total: the outcome, the total or the exception, is the one the
    same directory gives with its regular files alone. *)
Theorem aggregate_cpu_usage_skips_directories self d :
  NoDup (listdir d) →
  (aggregate_cpu_usage self (Some d)).1
  = (aggregate_cpu_usage self (Some (filter (λ ne, isfile ne.2 = true) d))).1.
Proof.
  intros Hnd. rewrite !aggregate_cpu_usage_eq. cbn [fst].
  rewrite !contents_of_listdir, omap_file_content_filter; [done| |done].
  eapply sublist_NoDup; [exact Hnd|]. unfold listdir.
  apply fmap_sublist, sublist_filter.
Qed.

Lemma aggregate_cpu_usage_skips_directories_witness :
  (aggregate_cpu_usage only_alice (Some two_days_and_folder)).1
  = (aggregate_cpu_usage only_alice
       (Some (filter (λ ne, isfile ne.2 = true) two_days_and_folder))).1.
Proof.
  apply (aggregate_cpu_usage_skips_directories only_alice two_days_and_folder).
  by_evaluation.
Defined.
(** ** Order of aggregation (C5) *)

(** C5, as stated, fails: float addition rounds, so the total depends
    on the order in which the days are added.  Over the three files
    [alice 0.1], [alice 0.2], [alice 0.3] listed in date order the
    total is [0.1 + 0.2 + 0.3 = 0.6000000000000001]; with the same
    files listed in the opposite order it is [0.3 + 0.2 + 0.1 = 0.6]. *)
Lemma aggregate_cpu_usage_depends_on_order :
  three_days_reversed ≡ₚ three_days
  ∧ aggregate_cpu_usage only_alice (Some three_days)
    = (Return (with_total only_alice {[ "alice" := f0_6_up ]},
               {[ "alice" := f0_6_up ]}),
       Some three_days)
  ∧ aggregate_cpu_usage only_alice (Some three_days_reversed)
    = (Return (with_total only_alice {[ "alice" := f0_6 ]},
               {[ "alice" := f0_6 ]}),
       Some three_days_reversed)
  ∧ [ ({[ "alice" := f0_3 ]} : usage); {[ "alice" := f0_2 ]}; {[ "alice" := f0_1 ]} ]
    ≡ₚ [ {[ "alice" := f0_1 ]}; {[ "alice" := f0_2 ]}; {[ "alice" := f0_3 ]} ]
  ∧ aggregate [ {[ "alice" := f0_1 ]}; {[ "alice" := f0_2 ]}; {[ "alice" := f0_3 ]} ]
    ≠ aggregate [ {[ "alice" := f0_3 ]}; {[ "alice" := f0_2 ]}; {[ "alice" := f0_1 ]} ].
Proof.
  split; [apply reverse_Permutation|].
  split; [vm_compute; reflexivity|].
  split; [vm_compute; reflexivity|].
  split; [apply (reverse_Permutation [_; _; _])|].
  intros H. apply (f_equal (.!! "alice")) in H. vm_compute in H. discriminate.
Qed.

Lemma lookup_entry_elem_of name (d : logdir) e :
  lookup_entry name d = Some e → (name, e) ∈ d.
Proof.
  induction d as [|[n e'] d IH]; [done|]. simpl.
  destruct (String.eqb n name) eqn:Hn.
  - apply String.eqb_eq in Hn as ->. intros [= ->]. left.
  - intros H. right. by apply IH.
Qed.

Lemma contents_of_parse self d files :
  (∀ name content, (name, File content) ∈ d → returns (parse_text self content)) →
  Forall (λ content, returns (parse_text self content)) (contents_of d files).
Proof.
  intros Hok. apply Forall_forall. intros content Hin.
  apply elem_of_contents_of in Hin as (name & _ & Hl).
  eapply Hok. by apply lookup_entry_elem_of.
Qed.

(** When every text parses, the loop returns the merge of the records,
    one for each text, in the order of the texts. *)
Lemma merge_texts_records self total texts :
  Forall (λ content, returns (parse_text self content)) texts →
  merge_texts self total texts
  = Return (foldl add_daily total
              (omap (λ content, to_option (parse_text self content)) texts)).
Proof.
  intros Hall. revert total. induction Hall as [|content texts [r Hr] _ IH];
    intros total; [done|].
  cbn [merge_texts omap list_omap]. rewrite Hr. cbn [mbind result_bind to_option].
  apply IH.
Qed.

Lemma aggregate_cpu_usage_records self d :
  (∀ name content, (name, File content) ∈ d → returns (parse_text self content)) →
  aggregate_cpu_usage self (Some d)
  = (Return (with_total self (aggregate (records_of self d)),
             aggregate (records_of self d)), Some d).
Proof.
  intros Hok. rewrite aggregate_cpu_usage_eq.
  by rewrite (merge_texts_records self ∅ _ (contents_of_parse self d _ Hok)).
Qed.

(** In a directory that lists every name once, the records are those of
    its regular files, one for each, in listing order. *)
Lemma records_of_files self d :
  NoDup (listdir d) →
  (∀ name content, (name, File content) ∈ d → returns (parse_text self content)) →
  Forall2 (λ ne r, ∃ content, ne.2 = File content ∧ parse_text self content = Return r)
          (filter (λ ne, isfile ne.2 = true) d) (records_of self d).
Proof.
  intros Hnd. unfold records_of. rewrite (contents_of_listdir d Hnd). clear Hnd.
  induction d as [|[n [content|]] d IH]; intros Hok.
  - constructor.
  - rewrite filter_cons_True by done. cbn [omap list_omap snd file_content].
    destruct (Hok n content) as [r Hr]; [left|]. rewrite Hr. cbn [to_option].
    constructor; [by exists content|]. apply IH. intros ? ? ?. eapply Hok. by right.
  - rewrite filter_cons_False by done. cbn [omap list_omap snd file_content].
    apply IH. intros ? ? ?. eapply Hok. by right.
Qed.

(** Two listings of one directory give the same records, in another
    order. *)
Lemma records_of_Permutation self (d d' : logdir) :
  NoDup (listdir d) → d ≡ₚ d' → records_of self d ≡ₚ records_of self d'.
Proof.
  intros Hnd Hp. assert (NoDup (listdir d')) as Hnd'
    by (unfold listdir in *; by rewrite <- Hp).
  unfold records_of. rewrite !contents_of_listdir by done. by rewrite Hp.
Qed.

Lemma dom_aggregate_Permutation (records records' : list usage) :
  records ≡ₚ records' → dom (aggregate records) = dom (aggregate records').
Proof.
  intros Hp. apply set_eq. intros user.
  rewrite !elem_of_dom_aggregate. by setoid_rewrite Hp.
Qed.

(** C5, amended: over an existing directory whose regular files all
    parse, [aggregate_cpu_usage] returns, and what it returns is the
    merge of the records of those files, one record for each file, in
    the order of the listing: the empty mapping for an empty directory,
    and for each user the sum of its values in the records that mention
    it, added as floats from the left in that order starting at 0.  For
    every permutation of a sequence of records the set of users of the
    merge is the same, and so is the whole mapping when the values are
    whole non-negative numbers whose total for each user is below
    [2^53], every sum being exact then.  So for two listings of one
    directory, in any two orders, [aggregate_cpu_usage] returns totals
    with the same users, and the same totals when the values are such
    whole numbers; for other values the sums may differ from one order
    to another. *)
Theorem aggregate_order self :
  aggregate_cpu_usage self (Some []) = (Return (with_total self ∅, ∅), Some [])
  ∧ (∀ d,
       (∀ name content, (name, File content) ∈ d →
                        returns (parse_text self content)) →
       aggregate_cpu_usage self (Some d)
       = (Return (with_total self (aggregate (records_of self d)),
                  aggregate (records_of self d)), Some d)
       ∧ (NoDup (listdir d) →
          Forall2 (λ ne r, ∃ content, ne.2 = File content
                                      ∧ parse_text self content = Return r)
                  (filter (λ ne, isfile ne.2 = true) d) (records_of self d)))
  ∧ (∀ (records : list usage) user,
       aggregate records !! user
       = match omap (.!! user) records with
         | [] => None
         | vs => Some (fsum zero vs)
         end)
  ∧ (∀ records records' : list usage,
       records ≡ₚ records' → dom (aggregate records) = dom (aggregate records'))
  ∧ (∀ days days' : list (gmap string Z),
       days ≡ₚ days' →
       (∀ day user z, day ∈ days → day !! user = Some z → (0 <= z)%Z) →
       (∀ user, (int_total user days < 2 ^ 53)%Z) →
       aggregate (int_record <$> days) = aggregate (int_record <$> days'))
  ∧ (∀ d d' : logdir,
       NoDup (listdir d) → d ≡ₚ d' →
       (∀ name content, (name, File content) ∈ d →
                        returns (parse_text self content)) →
       ∃ total total',
         aggregate_cpu_usage self (Some d)
         = (Return (with_total self total, total), Some d)
         ∧ aggregate_cpu_usage self (Some d')
           = (Return (with_total self total', total'), Some d')
         ∧ records_of self d ≡ₚ records_of self d'
         ∧ dom total = dom total'
         ∧ (∀ days : list (gmap string Z),
              records_of self d = int_record <$> days →
              (∀ day user z, day ∈ days → day !! user = Some z → (0 <= z)%Z) →
              (∀ user, (int_total user days < 2 ^ 53)%Z) →
              total = total')).
Proof.
  split; [done|]. split.
  { intros d Hok. split; [by apply aggregate_cpu_usage_records|].
    intros Hnd. by apply records_of_files. }
  split; [apply aggregate_lookup|]. split; [apply dom_aggregate_Permutation|].
  split; [apply aggregate_int_perm|].
  intros d d' Hnd Hp Hok.
  assert (∀ name content, (name, File content) ∈ d' →
                          returns (parse_text self content)) as Hok'.
  { intros name content Hin. rewrite <- Hp in Hin. by eapply Hok. }
  pose proof (records_of_Permutation self d d' Hnd Hp) as Hr.
  exists (aggregate (records_of self d)), (aggregate (records_of self d')).
  split; [by apply aggregate_cpu_usage_records|].
  split; [by apply aggregate_cpu_usage_records|]. split; [done|].
  split; [by apply dom_aggregate_Permutation|].
  intros days Hd Hpos Hlt. rewrite Hd in Hr |- *.
  symmetry in Hr. change (int_record <$> days) with (map int_record days) in Hr.
  apply Permutation_map_inv in Hr as (days' & -> & Hdays).
  by apply aggregate_int_perm.
Qed.

Lemma aggregate_order_witness :
  ∃ total total',
    aggregate_cpu_usage only_alice (Some three_days)
    = (Return (with_total only_alice total, total), Some three_days)
    ∧ aggregate_cpu_usage only_alice (Some three_days_reversed)
      = (Return (with_total only_alice total', total'), Some three_days_reversed)
    ∧ dom total = dom total'.
Proof.
  destruct (proj2 (proj2 (proj2 (proj2 (proj2 (aggregate_order only_alice)))))
              three_days three_days_reversed)
    as (total & total' & Ha & Hb & _ & Hdom & _).
  - by_evaluation.
  - symmetry. apply reverse_Permutation.
  - intros name content Hin. unfold three_days in Hin.
    apply elem_of_cons in Hin as [[= _ ->]|Hin];
      [exists {[ "alice" := add zero f0_1 ]}; vm_compute; reflexivity|].
    apply elem_of_cons in Hin as [[= _ ->]|Hin];
      [exists {[ "alice" := add zero f0_2 ]}; vm_compute; reflexivity|].
    apply elem_of_cons in Hin as [[= _ ->]|Hin];
      [exists {[ "alice" := add zero f0_3 ]}; vm_compute; reflexivity|].
    apply elem_of_nil in Hin. destruct Hin.
  - exists total, total'. exact (conj Ha (conj Hb Hdom)).
Defined.


(** ** Finite floats stay finite *)

Section FloatFinite.
Local Open Scope Z_scope.

Lemma round_sign s n d :
  round s n d
  = match round false n d with
    | Ffin _ m e => Ffin s m e
    | Finf _ => Finf s
    | Fnan => Fnan
    end.
Proof.
  unfold round. destruct (n =? 0); [done|].
  destruct (_ <? 2 ^ prec); destruct (_ =? 2 ^ prec); destruct (emax <? _); done.
Qed.

(** The exponent [round] settles on before it rounds the mantissa: the
    scaled ratio is below [2^53], and not below [2^52] unless the
    exponent is the least one. *)
Lemma round_scaled n d :
  0 < n → 0 < d →
  let e1 := Z.max (Z.log2 n - Z.log2 d - prec) emin in
  let e := if scaled_num n e1 / scaled_den d e1 <? 2 ^ prec then e1 else e1 + 1 in
  scaled_num n e < 2 ^ 53 * scaled_den d e
  ∧ (e = emin ∨ 2 ^ 52 * scaled_den d e <= scaled_num n e)
  ∧ emin <= e ∧ 0 < scaled_den d e ∧ 0 < scaled_num n e.
Proof.
  intros Hn Hd e1 e.
  assert (∀ k, 0 < scaled_den d k) as Hsd.
  { intros k. unfold scaled_den. pose proof (pow2_pos k). nia. }
  assert (∀ k, 0 < scaled_num n k) as Hsn.
  { intros k. unfold scaled_num. pose proof (pow2_pos (- k)). nia. }
  assert (scaled_num n e < 2 ^ 53 * scaled_den d e
          ∧ (e = emin ∨ 2 ^ 52 * scaled_den d e <= scaled_num n e)
          ∧ emin <= e) as (H1 & H2 & H3); [|done].
  unfold e. destruct (_ <? 2 ^ prec) eqn:Hq.
  - apply Z.ltb_lt in Hq. split; [|split].
    + destruct (Z_lt_le_dec (scaled_num n e1) (2 ^ 53 * scaled_den d e1)); [done|].
      exfalso. assert (2 ^ 53 <= scaled_num n e1 / scaled_den d e1);
        [|unfold prec in *; lia].
      apply Z.div_le_lower_bound; [apply Hsd|]. by rewrite Z.mul_comm.
    + unfold e1, prec.
      destruct (Z.max_spec (Z.log2 n - Z.log2 d - 53) emin) as [[_ ->]|[_ ->]].
      * by left.
      * right. apply scaled_lower; lia.
    + unfold e1. lia.
  - apply Z.ltb_ge in Hq. unfold prec in *.
    assert (2 ^ 53 * scaled_den d e1 <= scaled_num n e1) as Hge.
    { etrans; [|apply (Z.mul_div_le _ (scaled_den d e1)); apply Hsd].
      rewrite (Z.mul_comm (scaled_den d e1)).
      apply Z.mul_le_mono_nonneg_r; [|done]. pose proof (Hsd e1). lia. }
    split; [|split].
    + apply (scaled_upper n d (e1 + 1) 52); unfold e1; lia.
    + right. pose proof (scaled_step n d e1) as Hs.
      pose proof (Hsd e1). pose proof (Hsd (e1 + 1)). nia.
    + unfold e1. lia.
Qed.

(** Rounding half to even is within a half of the ratio. *)
Lemma div_half_even_near n d :
  0 <= n → 0 < d →
  2 * div_half_even n d * d <= 2 * n + d
  ∧ 2 * n <= 2 * div_half_even n d * d + d
  ∧ 0 <= div_half_even n d.
Proof.
  intros Hn Hd. unfold div_half_even.
  pose proof (Z.div_mod n d ltac:(lia)) as Hdm.
  pose proof (Z.mod_pos_bound n d Hd) as Hr.
  assert (0 <= n / d) by (apply Z.div_pos; lia).
  destruct (2 * (n mod d) <? d) eqn:H1; [apply Z.ltb_lt in H1; nia|].
  apply Z.ltb_ge in H1.
  destruct (d <? 2 * (n mod d)) eqn:H2; [apply Z.ltb_lt in H2; nia|].
  apply Z.ltb_ge in H2. destruct (Z.even (n / d)); nia.
Qed.

Lemma max_float_units e m :
  0 <= m < 2 ^ 53 → emin <= e <= emax →
  m * 2 ^ (e + 1074) <= max_float * 2 ^ 1074.
Proof.
  intros Hm He. unfold emin, emax, max_float in *.
  assert (0 < 2 ^ (e + 1074)) by (apply Z.pow_pos_nonneg; lia).
  assert (2 ^ (e + 1074) <= 2 ^ (971 + 1074)) by (apply Z.pow_le_mono_r; lia).
  rewrite <- Z.mul_assoc, <- Z.pow_add_r by lia.
  apply Z.mul_le_mono_nonneg; lia.
Qed.

Lemma scaled_units n d e x y :
  emin <= e → 0 <= x * d → 0 <= y * n →
  x * scaled_den d e <= y * scaled_num n e →
  x * 2 ^ (e + 1074) * d <= y * n * 2 ^ 1074.
Proof.
  unfold emin, scaled_num, scaled_den. intros He Hx Hy H.
  set (a := Z.max 0 e) in *. set (b := Z.max 0 (- e)) in *.
  assert (0 < 2 ^ (1074 - b)) as HP by (apply Z.pow_pos_nonneg; lia).
  replace (2 ^ (e + 1074)) with (2 ^ a * 2 ^ (1074 - b))
    by (rewrite <- Z.pow_add_r by lia; f_equal; lia).
  replace (2 ^ 1074) with (2 ^ b * 2 ^ (1074 - b))
    by (rewrite <- Z.pow_add_r by lia; f_equal; lia).
  revert HP H. generalize (2 ^ (1074 - b)) (2 ^ a) (2 ^ b). intros P A B HP H.
  replace (x * (A * P) * d) with (x * (d * A) * P) by ring.
  replace (y * n * (B * P)) with (y * (n * B) * P) by ring.
  apply Z.mul_le_mono_nonneg_r; lia.
Qed.

(** A ratio that does not exceed the largest finite value rounds to a
    finite float, which is at most twice the ratio. *)
Lemma round_finite s n d :
  0 <= n → 0 < d → n <= max_float * d →
  ∃ m e, round s n d = Ffin s m e ∧ 0 <= m < 2 ^ 53 ∧ emin <= e <= emax
         ∧ m * 2 ^ (e + 1074) * d <= 2 * n * 2 ^ 1074.
Proof.
  intros Hn Hd Hmax.
  enough (∃ m e, round false n d = Ffin false m e ∧ 0 <= m < 2 ^ 53
                 ∧ emin <= e <= emax
                 ∧ m * 2 ^ (e + 1074) * d <= 2 * n * 2 ^ 1074)
    as (m & e & Hr & ?); [rewrite round_sign, Hr; eauto|].
  destruct (decide (n = 0)) as [->|Hn0].
  { exists 0, emin. split; [done|]. unfold emin, emax. lia. }
  assert (0 < n) as Hn' by lia.
  pose proof (round_scaled n d Hn' Hd) as Hs. cbv zeta in Hs.
  unfold round. replace (n =? 0) with false by (symmetry; apply Z.eqb_neq; lia).
  set (e1 := Z.max (Z.log2 n - Z.log2 d - prec) emin) in *.
  set (e := if scaled_num n e1 / scaled_den d e1 <? 2 ^ prec then e1 else e1 + 1) in *.
  destruct Hs as (H1 & H2 & H3 & Hsd & Hsn). clearbody e. clear e1.
  pose proof (div_half_even_near (scaled_num n e) (scaled_den d e)
                ltac:(lia) Hsd) as (Ha & Hb & Hc).
  set (m0 := div_half_even (scaled_num n e) (scaled_den d e)) in *.
  clearbody m0.
  assert (m0 <= 2 ^ 53) as Hm0 by nia.
  assert (m0 * scaled_den d e <= 2 * scaled_num n e) as Hval.
  { destruct (decide (m0 = 0)) as [->|]; [lia|]. nia. }
  apply scaled_units in Hval; [|lia|nia|lia].
  assert (n * 2 ^ 1074 <= (2 ^ 53 - 1) * (2 ^ 2045 * d)) as Hmax'.
  { unfold max_float in Hmax.
    replace (2 ^ 2045) with (2 ^ 971 * 2 ^ 1074) by (by rewrite <- Z.pow_add_r).
    assert (0 < 2 ^ 1074) by (apply Z.pow_pos_nonneg; lia).
    transitivity (((2 ^ 53 - 1) * 2 ^ 971 * d) * 2 ^ 1074); [|apply Z.eq_le_incl; ring].
    apply Z.mul_le_mono_nonneg_r; lia. }
  assert (0 < 2 ^ 2045 * d) as HW
    by (apply Z.mul_pos_pos; [apply Z.pow_pos_nonneg; lia | done]).
  unfold prec. destruct (m0 =? 2 ^ 53) eqn:Hm.
  - apply Z.eqb_eq in Hm. subst m0.
    assert (e + 1 <= emax) as He.
    { unfold emax. destruct (Z_le_gt_dec (e + 1) 971); [done|]. exfalso.
      assert ((2 ^ 54 - 1) * scaled_den d e <= 2 * scaled_num n e) as Hup by lia.
      apply scaled_units in Hup; [|lia|nia|lia].
      assert (2 ^ 2045 <= 2 ^ (e + 1074)) as Hp by (apply Z.pow_le_mono_r; lia).
      assert (2 ^ 2045 * d <= 2 ^ (e + 1074) * d) as Hpd
        by (apply Z.mul_le_mono_nonneg_r; lia).
      replace ((2 ^ 54 - 1) * 2 ^ (e + 1074) * d)
        with ((2 ^ 54 - 1) * (2 ^ (e + 1074) * d)) in Hup by ring.
      replace (2 * n * 2 ^ 1074) with (2 * (n * 2 ^ 1074)) in Hup by ring.
      clear Hval. revert HW Hmax' Hup Hpd.
      generalize (2 ^ 2045 * d) (2 ^ (e + 1074) * d) (n * 2 ^ 1074).
      intros W P N HW Hmax' Hup Hpd. lia. }
    replace (emax <? e + 1) with false by (symmetry; apply Z.ltb_ge; lia).
    exists (2 ^ (53 - 1)), (e + 1). split; [done|]. split; [lia|]. split; [lia|].
    replace (2 ^ (53 - 1) * 2 ^ (e + 1 + 1074)) with (2 ^ 53 * 2 ^ (e + 1074));
      [done|].
    unfold emin in *. rewrite <- !Z.pow_add_r by lia. f_equal. lia.
  - apply Z.eqb_neq in Hm.
    assert (e <= emax) as He.
    { unfold emax. destruct (Z_le_gt_dec e 971); [done|]. exfalso.
      destruct H2 as [->|H2]; [unfold emin in *; lia|].
      assert (2 ^ 52 * scaled_den d e <= 1 * scaled_num n e) as Hlo by lia.
      apply scaled_units in Hlo; [|lia|nia|lia].
      assert (2 * 2 ^ 2045 <= 2 ^ (e + 1074)) as Hp.
      { change (2 * 2 ^ 2045) with (2 ^ 2046). apply Z.pow_le_mono_r; lia. }
      assert (2 * 2 ^ 2045 * d <= 2 ^ (e + 1074) * d) as Hpd
        by (apply Z.mul_le_mono_nonneg_r; lia).
      replace (2 * 2 ^ 2045 * d) with (2 * (2 ^ 2045 * d)) in Hpd by ring.
      replace (2 ^ 52 * 2 ^ (e + 1074) * d)
        with (2 ^ 52 * (2 ^ (e + 1074) * d)) in Hlo by ring.
      replace (1 * n * 2 ^ 1074) with (n * 2 ^ 1074) in Hlo by ring.
      clear Hval. revert HW Hmax' Hlo Hpd.
      generalize (2 ^ 2045 * d) (2 ^ (e + 1074) * d) (n * 2 ^ 1074).
      intros W P N HW Hmax' Hlo Hpd. lia. }
    replace (emax <? e) with false by (symmetry; apply Z.ltb_ge; lia).
    exists m0, e. split; [done|]. split; [lia|]. split; [lia|]. done.
Qed.

Lemma num_den_units m e :
  emin <= e → num m e * 2 ^ 1074 = m * 2 ^ (e + 1074) * den e.
Proof.
  unfold emin, num, den. intros He.
  rewrite <- !Z.mul_assoc, <- !Z.pow_add_r by lia. do 2 f_equal. lia.
Qed.

Lemma den_pos e : 0 < den e.
Proof. unfold den. apply Z.pow_pos_nonneg; lia. Qed.

Lemma units_pos : 0 < 2 ^ 1074.
Proof. by apply Z.pow_pos_nonneg. Qed.

Lemma max_float_large : 2 ^ 60 * 2 ^ 1074 <= max_float * 2 ^ 1074.
Proof.
  apply Z.mul_le_mono_nonneg_r; [apply Z.pow_nonneg; lia|].
  unfold max_float.
  transitivity (1 * 2 ^ 971); [|apply Z.mul_le_mono_nonneg_r; lia].
  rewrite Z.mul_1_l. apply Z.pow_le_mono_r; lia.
Qed.

Lemma mag_in_range x : in_range x → 0 <= mag x <= max_float * 2 ^ 1074.
Proof.
  intros (s & m & e & -> & Hm & He). simpl. split.
  - apply Z.mul_nonneg_nonneg; [lia|]. apply Z.pow_nonneg. lia.
  - by apply max_float_units.
Qed.

Lemma abs_smag x : Z.abs (smag x) = Z.abs (mag x).
Proof. destruct x as [| |[] m e]; simpl; lia. Qed.

Lemma in_range_neg x : in_range x → in_range (neg x).
Proof. intros (s & m & e & -> & ?). by exists (negb s), m, e. Qed.

Lemma smag_neg x : smag (neg x) = - smag x.
Proof. destruct x as [| |[] m e]; simpl; lia. Qed.

(** A sum whose exact value does not exceed the largest finite value is
    finite, and at most twice that value. *)
Lemma add_fin x y :
  in_range x → in_range y →
  Z.abs (smag x + smag y) <= max_float * 2 ^ 1074 →
  in_range (add x y) ∧ mag (add x y) <= 2 * Z.abs (smag x + smag y).
Proof.
  intros (s1 & m1 & e1 & -> & Hm1 & He1) (s2 & m2 & e2 & -> & Hm2 & He2) Hsum.
  unfold add. set (e := Z.min e1 e2).
  set (M := signed s1 (m1 * 2 ^ (e1 - e)) + signed s2 (m2 * 2 ^ (e2 - e))).
  assert (emin <= e) as He by (unfold e; lia).
  assert (0 < 2 ^ (e + 1074)) as Hp
    by (apply Z.pow_pos_nonneg; unfold emin in *; lia).
  assert (M * 2 ^ (e + 1074) = smag (Ffin s1 m1 e1) + smag (Ffin s2 m2 e2)) as HM.
  { unfold M, smag. rewrite Z.mul_add_distr_r, <- !signed_mul.
    rewrite <- !Z.mul_assoc, <- !Z.pow_add_r by (unfold e, emin in *; lia).
    do 4 f_equal; lia. }
  rewrite <- HM in *. clear HM. rewrite Z.abs_mul, (Z.abs_eq (2 ^ _)) in * by lia.
  destruct (M =? 0) eqn:H0.
  { split; [exists (s1 && s2), 0, emin; unfold emin, emax; split; [done|lia]|].
    simpl. lia. }
  destruct (round_finite (M <? 0) (num (Z.abs M) e) (den e))
    as (m & e' & -> & Hm & He' & Hv).
  - unfold num. apply Z.mul_nonneg_nonneg; [lia|]. apply Z.pow_nonneg. lia.
  - apply den_pos.
  - pose proof units_pos. pose proof (den_pos e).
    apply (Z.mul_le_mono_pos_r _ _ (2 ^ 1074)); [done|].
    rewrite num_den_units by done.
    transitivity (max_float * 2 ^ 1074 * den e); [|apply Z.eq_le_incl; ring].
    apply Z.mul_le_mono_nonneg_r; lia.
  - split; [by exists (M <? 0), m, e'|]. simpl.
    pose proof (den_pos e).
    apply (Z.mul_le_mono_pos_r _ _ (den e)); [done|].
    etrans; [exact Hv|]. rewrite <- Z.mul_assoc, num_den_units by done.
    apply Z.eq_le_incl. ring.
Qed.

(** [fmod] by a positive float with no integer bits to spare is exact,
    so it is finite, below the divisor and not above the dividend. *)
Lemma fmod_fin s1 m1 e1 s2 m2 e2 :
  0 <= m1 < 2 ^ 53 → emin <= e1 <= emax → 0 < m2 < 2 ^ 53 → emin <= e2 <= 0 →
  ∃ q e,
    fmod (Ffin s1 m1 e1) (Ffin s2 m2 e2) = Ffin s1 q e
    ∧ 0 <= q < 2 ^ 53 ∧ emin <= e <= 0
    ∧ q * 2 ^ (e + 1074) <= m1 * 2 ^ (e1 + 1074)
    ∧ q * 2 ^ (e + 1074) < m2 * 2 ^ (e2 + 1074).
Proof.
  intros Hm1 He1 Hm2 He2. unfold emin, emax in *. unfold fmod.
  replace (m2 =? 0) with false by (symmetry; apply Z.eqb_neq; lia).
  set (e := Z.min e1 e2).
  assert (0 < 2 ^ (e1 - e)) by (apply Z.pow_pos_nonneg; lia).
  assert (0 < 2 ^ (e2 - e)) by (apply Z.pow_pos_nonneg; lia).
  assert (0 < 2 ^ (e + 1074)) by (apply Z.pow_pos_nonneg; lia).
  set (r := (m1 * 2 ^ (e1 - e)) mod (m2 * 2 ^ (e2 - e))).
  assert (0 <= r < m2 * 2 ^ (e2 - e)) as Hr by (apply Z.mod_pos_bound; nia).
  assert (r <= m1 * 2 ^ (e1 - e)) as Hr' by (apply Z.mod_le; nia).
  assert (r < 2 ^ 53) as Hr53.
  { destruct (Z.min_spec e1 e2) as [[_ Hmin]|[_ Hmin]]; fold e in Hmin.
    - rewrite Hmin, Z.sub_diag, Z.pow_0_r in Hr'. lia.
    - rewrite Hmin, Z.sub_diag, Z.pow_0_r in Hr. lia. }
  assert (r * 2 ^ (e + 1074) <= m1 * 2 ^ (e1 + 1074)) as Hle.
  { replace (m1 * 2 ^ (e1 + 1074)) with (m1 * 2 ^ (e1 - e) * 2 ^ (e + 1074))
      by (rewrite <- Z.mul_assoc, <- Z.pow_add_r by lia; do 2 f_equal; lia).
    apply Z.mul_le_mono_nonneg_r; lia. }
  assert (r * 2 ^ (e + 1074) < m2 * 2 ^ (e2 + 1074)) as Hlt.
  { replace (m2 * 2 ^ (e2 + 1074)) with (m2 * 2 ^ (e2 - e) * 2 ^ (e + 1074))
      by (rewrite <- Z.mul_assoc, <- Z.pow_add_r by lia; do 2 f_equal; lia).
    apply Z.mul_lt_mono_pos_r; lia. }
  rewrite num_nonpos, den_nonpos by lia. rewrite round_sign.
  destruct (decide (r = 0)) as [Hr0|Hr0].
  - rewrite Hr0 in *. exists 0, (-1074). split; [done|]. lia.
  - destruct (round_exact r (2 ^ (- e)) r e) as (q & e' & -> & Hq & He' & Hv & _);
      [apply Z.pow_pos_nonneg; lia | lia | lia | unfold emin; lia | reflexivity |].
    exists q, e'. unfold emin in *. split; [done|]. rewrite Hv. lia.
Qed.

(** Dividing by a float that is 16 at least gives a finite float, an
    eighth of the dividend at most. *)
Lemma div_fin x s2 m2 e2 :
  in_range x → 0 <= m2 < 2 ^ 53 → emin <= e2 <= emax →
  16 * 2 ^ 1074 <= m2 * 2 ^ (e2 + 1074) →
  in_range (div x (Ffin s2 m2 e2)) ∧ 8 * mag (div x (Ffin s2 m2 e2)) <= mag x.
Proof.
  intros Hx Hm2 He2 Hy. pose proof (mag_in_range _ Hx) as Hmx.
  destruct Hx as (s1 & m1 & e1 & -> & Hm1 & He1). simpl in Hmx.
  pose proof units_pos as HU.
  assert (0 < 2 ^ (e2 + 1074)) by (apply Z.pow_pos_nonneg; unfold emin in *; lia).
  assert (0 < m2) as Hm2' by nia.
  unfold div. replace (m2 =? 0) with false by (symmetry; apply Z.eqb_neq; lia).
  pose proof (den_pos e1). pose proof (den_pos e2).
  pose proof (num_den_units m1 e1 ltac:(lia)) as U1.
  pose proof (num_den_units m2 e2 ltac:(lia)) as U2.
  set (X := m1 * 2 ^ (e1 + 1074)) in *. set (Y := m2 * 2 ^ (e2 + 1074)) in *.
  assert (0 <= num m1 e1)
    by (unfold num; apply Z.mul_nonneg_nonneg; [lia|apply Z.pow_nonneg; lia]).
  assert (0 < num m2 e2)
    by (unfold num; apply Z.mul_pos_pos; [lia|apply Z.pow_pos_nonneg; lia]).
  set (n := num m1 e1 * den e2). set (d := den e1 * num m2 e2).
  assert (0 <= n) by (unfold n; nia). assert (0 < d) by (unfold d; nia).
  assert (n * Y = d * X) as Hnd.
  { apply (Z.mul_cancel_r _ _ (2 ^ 1074)); [lia|]. unfold n, d.
    transitivity (num m1 e1 * 2 ^ 1074 * den e2 * Y); [ring|]. rewrite U1.
    transitivity (den e1 * (num m2 e2 * 2 ^ 1074) * X); [|ring]. rewrite U2. ring. }
  destruct (round_finite (xorb s1 s2) n d) as (m & e & -> & Hm & He & Hv);
    [done|done| |].
  - apply (Z.mul_le_mono_pos_r _ _ Y); [lia|]. rewrite Hnd.
    transitivity (d * (max_float * 2 ^ 1074)); [apply Z.mul_le_mono_nonneg_l; lia|].
    transitivity (d * (max_float * Y)); [|apply Z.eq_le_incl; ring].
    apply Z.mul_le_mono_nonneg_l; [lia|].
    apply Z.mul_le_mono_nonneg_l; [unfold max_float|]; lia.
  - split; [by exists (xorb s1 s2), m, e|]. simpl.
    set (R := m * 2 ^ (e + 1074)) in *.
    assert (0 <= R)
      by (unfold R; apply Z.mul_nonneg_nonneg; [lia|apply Z.pow_nonneg; unfold emin in *; lia]).
    assert (R * Y <= 2 * X * 2 ^ 1074) as HRY.
    { apply (Z.mul_le_mono_pos_r _ _ d); [done|].
      transitivity (R * d * Y); [apply Z.eq_le_incl; ring|].
      transitivity (2 * n * 2 ^ 1074 * Y); [apply Z.mul_le_mono_nonneg_r; lia|].
      transitivity (2 * (n * Y) * 2 ^ 1074); [apply Z.eq_le_incl; ring|].
      rewrite Hnd. apply Z.eq_le_incl. ring. }
    assert (R * (16 * 2 ^ 1074) <= R * Y) by (apply Z.mul_le_mono_nonneg_l; lia).
    apply (Z.mul_le_mono_pos_r _ _ (2 * 2 ^ 1074)); [lia|]. lia.
Qed.

(** [floor] of a finite float that is not the largest one is finite. *)
Lemma floor_fin x :
  in_range x → mag x + 2 ^ 1074 <= max_float * 2 ^ 1074 →
  in_range (floor x) ∧ mag (floor x) <= 2 * (mag x + 2 ^ 1074).
Proof.
  intros Hx Hb. pose proof (mag_in_range _ Hx) as Hmx.
  destruct Hx as (s & m & e & -> & Hm & He). simpl in *.
  pose proof units_pos as HU. pose proof (den_pos e) as Hd.
  pose proof (num_den_units m e ltac:(lia)) as Hu.
  set (X := m * 2 ^ (e + 1074)) in *.
  assert (0 <= num m e)
    by (unfold num; apply Z.mul_nonneg_nonneg; [lia|apply Z.pow_nonneg; lia]).
  unfold floor. set (z := signed s (num m e) / den e).
  assert (Z.abs z * den e <= num m e + den e) as Hz.
  { unfold z. pose proof (Z.div_mod (signed s (num m e)) (den e) ltac:(lia)) as Hdm.
    pose proof (Z.mod_pos_bound (signed s (num m e)) (den e) Hd) as Hr.
    destruct s; simpl in *; nia. }
  assert (Z.abs z * 2 ^ 1074 <= X + 2 ^ 1074) as Hz'.
  { apply (Z.mul_le_mono_pos_r _ _ (den e)); [done|].
    transitivity ((num m e + den e) * 2 ^ 1074);
      [|rewrite Z.mul_add_distr_r, Hu; apply Z.eq_le_incl; ring].
    transitivity (Z.abs z * den e * 2 ^ 1074); [apply Z.eq_le_incl; ring|].
    apply Z.mul_le_mono_nonneg_r; lia. }
  destruct (z =? 0) eqn:Hz0.
  { split; [exists s, 0, emin; unfold emin, emax; split; [done|lia]|]. simpl. lia. }
  unfold of_Z.
  destruct (round_finite (z <? 0) (Z.abs z) 1) as (m' & e' & -> & Hm' & He' & Hv);
    [lia|lia| |].
  - rewrite Z.mul_1_r. apply (Z.mul_le_mono_pos_r _ _ (2 ^ 1074)); [done|]. lia.
  - split; [by exists (z <? 0), m', e'|]. simpl. lia.
Qed.

Lemma finite_in_range x : in_range x → finite x = true.
Proof. by intros (s & m & e & -> & _). Qed.

Lemma finite_copysign_zero y : finite (copysign zero y) = true.
Proof. by destruct y. Qed.

Lemma in_range_one : in_range one ∧ mag one = 2 ^ 1074.
Proof.
  split; [exists false, (2 ^ 52), (-52); unfold emin, emax; split; [done|lia]|].
  unfold one, mag. by rewrite <- Z.pow_add_r.
Qed.

(** The last stage of [_float_div_mod]: the quotient pushed to a whole
    number. *)
Lemma floor_stage_fin d' other :
  in_range d' → 4 * mag d' <= max_float * 2 ^ 1074 + 8 * 2 ^ 1074 →
  finite (if nonzero d'
          then if ltb half (sub d' (floor d')) then add (floor d') one else floor d'
          else copysign zero other) = true.
Proof.
  intros Hd Hb. pose proof units_pos. pose proof max_float_large.
  pose proof (mag_in_range _ Hd).
  destruct (nonzero d'); [|apply finite_copysign_zero].
  destruct (floor_fin d' Hd) as [Hf Hfm]; [lia|].
  destruct (ltb half _); [|by apply finite_in_range].
  destruct in_range_one as [Hone Honem]. pose proof (mag_in_range _ Hf).
  destruct (add_fin (floor d') one Hf Hone) as [Ha _]; [|by apply finite_in_range].
  assert (Z.abs (smag (floor d') + smag one) <= mag (floor d') + mag one) as Habs.
  { pose proof (abs_smag (floor d')). pose proof (abs_smag one). lia. }
  lia.
Qed.

Lemma float_div_mod_fst_cases vx wx :
  ∃ d', (d' = div (sub vx (fmod vx wx)) wx
         ∨ d' = sub (div (sub vx (fmod vx wx)) wx) one)
        ∧ (float_div_mod vx wx).1
          = if nonzero d'
            then if ltb half (sub d' (floor d')) then add (floor d') one else floor d'
            else copysign zero (div vx wx).
Proof.
  unfold float_div_mod. destruct (nonzero (fmod vx wx)); [destruct (negb _)|];
    eexists; (split; [|reflexivity]); auto.
Qed.

(** [x // y] of a finite [x] by a positive [y] between 16 and [2^53]
    is a finite float. *)
Lemma floordiv_fin x m2 e2 :
  in_range x → 0 <= m2 < 2 ^ 53 → emin <= e2 <= 0 →
  16 * 2 ^ 1074 <= m2 * 2 ^ (e2 + 1074) →
  ∃ f, floordiv x (Ffin false m2 e2) = Return f ∧ finite f = true.
Proof.
  intros Hx Hm2 He2 Hy. pose proof units_pos as HU. pose proof max_float_large as HL.
  assert (0 < 2 ^ (e2 + 1074)) by (apply Z.pow_pos_nonneg; unfold emin in *; lia).
  assert (0 < m2) as Hm2' by nia.
  unfold floordiv. simpl nonzero.
  replace (m2 =? 0) with false by (symmetry; apply Z.eqb_neq; lia). cbn [negb].
  eexists. split; [done|].
  destruct (float_div_mod_fst_cases x (Ffin false m2 e2)) as (d' & Hd' & ->).
  pose proof (mag_in_range _ Hx) as Hmx. pose proof Hx as Hx'.
  destruct Hx' as (s1 & m1 & e1 & -> & Hm1 & He1).
  destruct (fmod_fin s1 m1 e1 false m2 e2) as (q & e & Hmod & Hq & He & Hle & _);
    [lia|done|lia|done|].
  rewrite Hmod in Hd'.
  assert (in_range (Ffin s1 q e)) as Hmr
    by (exists s1, q, e; unfold emin, emax in *; split; [done|lia]).
  destruct (add_fin (Ffin s1 m1 e1) (neg (Ffin s1 q e)) Hx (in_range_neg _ Hmr))
    as [Hsub _].
  { rewrite smag_neg. simpl in *.
    assert (0 <= q * 2 ^ (e + 1074))
      by (apply Z.mul_nonneg_nonneg; [lia|apply Z.pow_nonneg; unfold emin in *; lia]).
    destruct s1; simpl; lia. }
  fold (sub (Ffin s1 m1 e1) (Ffin s1 q e)) in Hsub.
  pose proof (mag_in_range _ Hsub) as Hms.
  destruct (div_fin _ false m2 e2 Hsub) as [Hdiv Hdm];
    [lia|unfold emax; lia|done|].
  pose proof (mag_in_range _ Hdiv) as Hmd.
  set (dv := div (sub (Ffin s1 m1 e1) (Ffin s1 q e)) (Ffin false m2 e2)) in *.
  destruct Hd' as [->| ->]; [apply floor_stage_fin; [done|lia]|].
  destruct in_range_one as [Hone Honem].
  pose proof (abs_smag dv). pose proof (abs_smag one).
  destruct (add_fin dv (neg one) Hdiv (in_range_neg _ Hone)) as [Ha Hb];
    [rewrite smag_neg; lia|].
  fold (sub dv one) in Ha, Hb. rewrite smag_neg in Hb.
  apply floor_stage_fin; [done|lia].
Qed.

(** [x % y] under the same conditions is a finite float in range. *)
Lemma rem_fin x m2 e2 :
  in_range x → 0 < m2 < 2 ^ 53 → emin <= e2 <= 0 →
  ∃ r, rem x (Ffin false m2 e2) = Return r ∧ in_range r.
Proof.
  intros Hx Hm2 He2. pose proof units_pos as HU. pose proof max_float_large as HL.
  unfold rem. simpl nonzero.
  replace (m2 =? 0) with false by (symmetry; apply Z.eqb_neq; lia). cbn [negb].
  eexists. split; [done|].
  destruct Hx as (s1 & m1 & e1 & -> & Hm1 & He1).
  destruct (fmod_fin s1 m1 e1 false m2 e2) as (q & e & -> & Hq & He & _ & Hlt);
    [done..|].
  assert (in_range (Ffin s1 q e)) as Hmr
    by (exists s1, q, e; unfold emin, emax in *; split; [done|lia]).
  assert (in_range (Ffin false m2 e2)) as Hyr
    by (exists false, m2, e2; unfold emin, emax in *; split; [done|lia]).
  destruct (nonzero (Ffin s1 q e)).
  2:{ exists false, 0, emin. unfold emin, emax. split; [done|lia]. }
  destruct (negb _); [|done].
  apply (add_fin _ _ Hmr Hyr).
  pose proof (abs_smag (Ffin s1 q e)). pose proof (abs_smag (Ffin false m2 e2)).
  simpl mag in *.
  assert (0 <= q * 2 ^ (e + 1074))
    by (apply Z.mul_nonneg_nonneg; [lia|apply Z.pow_nonneg; unfold emin in *; lia]).
  assert (m2 * 2 ^ (e2 + 1074) <= 2 ^ 53 * 2 ^ 1074).
  { assert (0 < 2 ^ (e2 + 1074)) by (apply Z.pow_pos_nonneg; unfold emin in *; lia).
    assert (2 ^ (e2 + 1074) <= 2 ^ 1074) by (apply Z.pow_le_mono_r; lia).
    apply Z.mul_le_mono_nonneg; lia. }
  lia.
Qed.

Lemma to_int_finite f : finite f = true → returns (to_int f).
Proof. destruct f; [done..|]. intros _. apply returns_Return. Qed.

Lemma is_binary64_in_range s m e : is_binary64 (Ffin s m e) = true → in_range (Ffin s m e).
Proof.
  unfold is_binary64, prec. intros Hb.
  apply andb_true_iff in Hb as [Hb _]. apply andb_true_iff in Hb as [Hb He2].
  apply andb_true_iff in Hb as [Hb He1]. apply andb_true_iff in Hb as [Hm1 Hm2].
  apply Z.leb_le in Hm1, He1, He2. apply Z.ltb_lt in Hm2.
  exists s, m, e. split; [done|]. lia.
Qed.

(** The formatter returns on every finite float in range. *)
Lemma human_readable_time_returns x :
  in_range x → returns (_human_readable_time x).
Proof.
  intros Hx. unfold _human_readable_time.
  replace (of_Z 3600) with (Ffin false 7916483719987200 (-41))
    by (vm_compute; reflexivity).
  replace (of_Z 60) with (Ffin false 8444249301319680 (-47))
    by (vm_compute; reflexivity).
  destruct (floordiv_fin x 7916483719987200 (-41) Hx) as (h & -> & Hh);
    [lia | unfold emin; lia | by vm_compute |].
  cbn [mbind result_bind].
  destruct (to_int_finite h Hh) as [hours ->]. cbn [mbind result_bind].
  destruct (rem_fin x 7916483719987200 (-41) Hx) as (r & -> & Hr);
    [lia | unfold emin; lia |].
  cbn [mbind result_bind].
  destruct (floordiv_fin r 8444249301319680 (-47) Hr) as (mi & -> & Hmi);
    [lia | unfold emin; lia | by vm_compute |].
  cbn [mbind result_bind].
  destruct (to_int_finite mi Hmi) as [minutes ->]. cbn [mbind result_bind].
  apply returns_Return.
Qed.

End FloatFinite.

(** ** Every float the program computes is a binary64 value *)

Section Binary64.
Local Open Scope Z_scope.

Lemma round_binary64 s n d : 0 <= n → 0 < d → is_binary64 (round s n d) = true.
Proof.
  intros Hn Hd. destruct (decide (n = 0)) as [->|Hn0]; [done|].
  assert (0 < n) as Hn' by lia.
  pose proof (round_scaled n d Hn' Hd) as Hs. cbv zeta in Hs.
  unfold round. replace (n =? 0) with false by (symmetry; apply Z.eqb_neq; lia).
  set (e1 := Z.max (Z.log2 n - Z.log2 d - prec) emin) in *.
  set (e := if scaled_num n e1 / scaled_den d e1 <? 2 ^ prec then e1 else e1 + 1) in *.
  destruct Hs as (H1 & H2 & H3 & Hsd & Hsn). clearbody e. clear e1.
  pose proof (div_half_even_near (scaled_num n e) (scaled_den d e)
                ltac:(lia) Hsd) as (Ha & Hb & Hc).
  set (m0 := div_half_even (scaled_num n e) (scaled_den d e)) in *.
  clearbody m0.
  assert (m0 <= 2 ^ 53) as Hm0 by nia.
  assert (e = emin ∨ 2 ^ 52 <= m0) as Hnorm.
  { destruct H2 as [?|H2]; [by left|right]. nia. }
  unfold prec. destruct (m0 =? 2 ^ 53) eqn:Hm.
  - destruct (emax <? e + 1) eqn:He; [done|]. apply Z.ltb_ge in He.
    unfold is_binary64, prec. unfold emin, emax in *.
    repeat (apply andb_true_iff; split); try (apply Z.leb_le; lia);
      try (apply Z.ltb_lt; lia).
    apply orb_true_iff. right. apply Z.leb_le. lia.
  - apply Z.eqb_neq in Hm. destruct (emax <? e) eqn:He; [done|].
    apply Z.ltb_ge in He. unfold is_binary64, prec. unfold emax in *.
    repeat (apply andb_true_iff; split); try (apply Z.leb_le; lia);
      try (apply Z.ltb_lt; lia).
    apply orb_true_iff. destruct Hnorm as [->|?]; [left|right].
    + apply Z.eqb_refl.
    + apply Z.leb_le. lia.
Qed.

(** Whatever its operands, a sum is a binary64 value. *)
Lemma add_binary64 x y : is_binary64 (add x y) = true.
Proof.
  destruct x as [|s1|s1 m1 e1], y as [|s2|s2 m2 e2]; try done.
  - simpl. by destruct (Bool.eqb s1 s2).
  - unfold add. destruct (_ =? 0); [done|].
    apply round_binary64; [|apply den_pos].
    unfold num. apply Z.mul_nonneg_nonneg; [lia|]. apply Z.pow_nonneg. lia.
Qed.

Lemma fsum_binary64 start v vs : is_binary64 (fsum start (v :: vs)) = true.
Proof.
  unfold fsum. simpl. generalize (add start v) (add_binary64 start v).
  induction vs as [|w vs IH]; intros acc Hacc; [done|].
  simpl. apply IH, add_binary64.
Qed.

Lemma is_binary64_nonneg_mantissa s m e :
  is_binary64 (Ffin s m e) = true → 0 <= m.
Proof.
  unfold is_binary64. intros Hb. repeat (apply andb_true_iff in Hb as [Hb _]).
  by apply Z.leb_le.
Qed.

(** A quotient of binary64 values is one. *)
Lemma div_binary64 x y :
  is_binary64 x = true → is_binary64 y = true → is_binary64 (div x y) = true.
Proof.
  destruct x as [|s1|s1 m1 e1], y as [|s2|s2 m2 e2]; try done.
  intros Hx%is_binary64_nonneg_mantissa Hy%is_binary64_nonneg_mantissa.
  unfold div. destruct (m2 =? 0) eqn:H0; [by destruct (m1 =? 0)|].
  apply Z.eqb_neq in H0. pose proof (den_pos e1). pose proof (den_pos e2).
  assert (0 < 2 ^ Z.max 0 e1) by (apply Z.pow_pos_nonneg; lia).
  assert (0 < 2 ^ Z.max 0 e2) by (apply Z.pow_pos_nonneg; lia).
  apply round_binary64; unfold num; nia.
Qed.

End Binary64.

(** The values of a merge are sums, hence binary64 values. *)
Lemma aggregate_binary64 (records : list usage) user cpu_time :
  aggregate records !! user = Some cpu_time → is_binary64 cpu_time = true.
Proof.
  rewrite aggregate_lookup. destruct (omap (.!! user) records) as [|v vs]; [done|].
  intros Heq. assert (cpu_time = fsum zero (v :: vs)) as -> by congruence.
  apply fsum_binary64.
Qed.

Lemma merge_texts_foldl self total texts t :
  merge_texts self total texts = Return t →
  ∃ records, t = foldl add_daily total records.
Proof.
  revert total. induction texts as [|content texts IH]; intros total.
  - intros [= <-]. by exists [].
  - cbn [merge_texts]. destruct (parse_text self content) as [e|daily]; [done|].
    simpl. intros (records & ->)%IH. by exists (daily :: records).
Qed.

(** ** The formatter on every float *)

Lemma human_readable_time_not_finite x :
  finite x = false → _human_readable_time x = Raise ValueError.
Proof.
  destruct x as [|s|s m e]; [| |done]; intros _.
  - vm_compute. reflexivity.
  - destruct s; vm_compute; reflexivity.
Qed.

(** The formatter on a binary64 value: it returns on a finite one and
    raises [ValueError] on the others. *)
Lemma human_readable_time_cases x :
  is_binary64 x = true →
  (finite x = true ∧ returns (_human_readable_time x))
  ∨ (finite x = false ∧ _human_readable_time x = Raise ValueError).
Proof.
  intros Hb. destruct (finite x) eqn:Hf.
  - left. split; [done|]. destruct x as [| |s m e]; [done..|].
    by apply human_readable_time_returns, is_binary64_in_range.
  - right. split; [done|]. by apply human_readable_time_not_finite.
Qed.

(** X11: on a binary64 value [_human_readable_time] returns exactly
    when the value is finite, however large and whatever its sign: no
    step of [//], [%] or [int] overflows or divides by zero; on a NaN
    or an infinity it raises [ValueError]. *)
Theorem human_readable_time_total (seconds : pyfloat) :
  is_binary64 seconds = true →
  (returns (_human_readable_time seconds) ↔ finite seconds = true)
  ∧ (finite seconds = false → _human_readable_time seconds = Raise ValueError).
Proof.
  intros Hb. split; [|apply human_readable_time_not_finite].
  destruct (finite seconds) eqn:Hf.
  - split; [done|]. intros _. destruct seconds as [| |s m e]; [done..|].
    by apply human_readable_time_returns, is_binary64_in_range.
  - rewrite human_readable_time_not_finite by done.
    split; [by intros ?%returns_Raise | done].
Qed.

Lemma human_readable_time_total_witness :
  returns (_human_readable_time f1e30) ↔ finite f1e30 = true.
Proof.
  refine (proj1 (human_readable_time_total f1e30 _)). reflexivity.
Defined.

(** ** The chart: [generate_graph] *)

Section Hours.
Local Open Scope Z_scope.

Lemma of_Z_3600 : of_Z 3600 = Ffin false 7916483719987200 (-41).
Proof. vm_compute. reflexivity. Qed.

(** Whole hours come out exactly. *)
Lemma div_3600_of_Z k :
  0 <= k → 3600 * k < 2 ^ 53 → div (of_Z (3600 * k)) (of_Z 3600) = of_Z k.
Proof.
  intros Hk Hlt. destruct (decide (k = 0)) as [->|Hk0]; [by vm_compute|].
  destruct (of_Z_canonical (3600 * k)) as (m1 & e1 & -> & Hm1 & He1 & Hv1 & _); [lia|].
  destruct (of_Z_canonical k) as (m & e & -> & Hm & He & Hv & Hc); [lia|].
  rewrite of_Z_3600. unfold emin in *. unfold div.
  replace (7916483719987200 =? 0) with false by reflexivity. simpl xorb.
  rewrite !num_nonpos, !den_nonpos by lia. change (- -41) with 41.
  assert (0 < 2 ^ (e1 + 1074)) by (apply Z.pow_pos_nonneg; lia).
  assert (0 < 2 ^ (- e1)) by (apply Z.pow_pos_nonneg; lia).
  assert (0 < m1) by nia.
  assert (m1 * 2 ^ 41 = k * (2 ^ (- e1) * 7916483719987200)) as Hnd.
  { apply (Z.mul_cancel_r _ _ (2 ^ (e1 + 1074))); [lia|].
    transitivity (m1 * 2 ^ (e1 + 1074) * 2 ^ 41); [ring|]. rewrite Hv1.
    transitivity (k * 7916483719987200 * (2 ^ (- e1) * 2 ^ (e1 + 1074))); [|ring].
    rewrite <- Z.pow_add_r by lia. replace (- e1 + (e1 + 1074)) with 1074 by lia.
    change 7916483719987200 with (3600 * 2 ^ 41). ring. }
  destruct (round_exact (m1 * 2 ^ 41) (2 ^ (- e1) * 7916483719987200) k 0)
    as (q & e' & -> & Hq & He' & Hqv & Hqc);
    [lia | nia | lia | unfold emin; lia | rewrite Hnd; change (2 ^ (- 0)) with 1; ring |].
  change (2 ^ (0 + 1074)) with (2 ^ 1074) in Hqv.
  destruct (canonical_unique q e' m e) as [-> ->]; unfold emin in *; try done; lia.
Qed.

Lemma div_3600_in_range x : in_range x → in_range (div x (of_Z 3600)).
Proof.
  intros Hx. rewrite of_Z_3600.
  apply div_fin; [done | lia | unfold emin, emax; lia | by vm_compute].
Qed.

Lemma div_3600_nonneg x :
  is_binary64 x = true → nonneg x → nonneg (div x (of_Z 3600)).
Proof.
  rewrite of_Z_3600. destruct x as [|s|s m e]; [done|by destruct s|].
  intros Hb%is_binary64_nonneg_mantissa Hn%nonneg_fin. unfold div.
  replace (7916483719987200 =? 0) with false by reflexivity.
  rewrite xorb_false_r. pose proof (den_pos e).
  assert (0 < 2 ^ Z.max 0 e) by (apply Z.pow_pos_nonneg; lia).
  destruct s; simpl in Hn.
  - assert (m = 0) as -> by lia. unfold num. rewrite !Z.mul_0_l.
    unfold round. replace (0 =? 0) with true by reflexivity. by apply nonneg_fin.
  - apply round_nonneg.
    + apply Z.mul_nonneg_nonneg; [unfold num; nia|by vm_compute].
    + apply Z.mul_pos_pos; [apply den_pos|by vm_compute].
Qed.

End Hours.

(** X12: the chart shows the users of the total, each with its seconds
    divided by 3600 as floats divide: the division never fails; finite
    seconds give finite hours and seconds that are not negative give
    hours that are not negative; and a whole number of hours below
    [2^53] seconds comes out exactly. *)
Theorem cpu_time_in_hours_spec (total_usage : usage) :
  dom (cpu_time_in_hours total_usage) = dom total_usage
  ∧ (∀ user cpu_time,
       total_usage !! user = Some cpu_time →
       cpu_time_in_hours total_usage !! user = Some (div cpu_time (of_Z 3600))
       ∧ (is_binary64 cpu_time = true →
          is_binary64 (div cpu_time (of_Z 3600)) = true
          ∧ (finite cpu_time = true → finite (div cpu_time (of_Z 3600)) = true)
          ∧ (nonneg cpu_time → nonneg (div cpu_time (of_Z 3600)))))
  ∧ (∀ user k,
       (0 <= k)%Z → (3600 * k < 2 ^ 53)%Z →
       total_usage !! user = Some (of_Z (3600 * k)) →
       cpu_time_in_hours total_usage !! user = Some (of_Z k)).
Proof.
  unfold cpu_time_in_hours. split; [apply dom_fmap_L|]. split.
  - intros user cpu_time Hu. rewrite lookup_fmap, Hu. split; [done|].
    intros Hb. split; [by apply div_binary64|]. split; [|by apply div_3600_nonneg].
    destruct cpu_time as [| |s m e]; [done..|]. intros _.
    by apply finite_in_range, div_3600_in_range, is_binary64_in_range.
  - intros user k Hk Hlt Hu. rewrite lookup_fmap, Hu. simpl.
    by rewrite div_3600_of_Z.
Qed.

(** ** The table of [send_metrics] *)

Lemma add_rows_returns rows items :
  returns (add_rows rows items)
  ↔ Forall (λ uc, returns (_human_readable_time uc.2)) items.
Proof.
  revert rows. induction items as [|uc items IH]; intros rows.
  - split; [constructor | intros; apply returns_Return].
  - cbn [add_rows]. unfold add_row. rewrite Forall_cons.
    destruct (_human_readable_time uc.2) as [e|cell]; simpl.
    + split; [by intros ?%returns_Raise | by intros [?%returns_Raise _]].
    + rewrite IH. split; [split; [apply returns_Return | done] | tauto].
Qed.

Lemma add_rows_lookup items rows rows' user :
  NoDup items.*1 → add_rows rows items = Return rows' →
  rows' !! user
  = match (list_to_map items : usage) !! user with
    | Some cpu_time => to_option (_human_readable_time cpu_time)
    | None => rows !! user
    end.
Proof.
  revert rows. induction items as [|[k c] items IH]; intros rows Hnd Ha.
  - by injection Ha as <-.
  - rewrite fmap_cons in Hnd. apply NoDup_cons in Hnd as [Hk Hnd].
    cbn [add_rows] in Ha. unfold add_row in Ha. cbn [fst snd] in Ha.
    destruct (_human_readable_time c) as [e|cell] eqn:Hc; [done|].
    cbn [mbind result_bind] in Ha. rewrite (IH _ Hnd Ha).
    rewrite list_to_map_cons. destruct (decide (k = user)) as [->|Hne].
    + rewrite (not_elem_of_list_to_map_1 _ _ Hk), !lookup_insert_eq, Hc.
      reflexivity.
    + rewrite !lookup_insert_ne by done. reflexivity.
Qed.

Lemma table_rows_lookup total_usage rows user :
  table_rows total_usage = Return rows →
  rows !! user
  = total_usage !! user ≫= λ cpu_time, to_option (_human_readable_time cpu_time).
Proof.
  intros Ht. unfold table_rows in Ht.
  rewrite (add_rows_lookup _ _ _ user (NoDup_fst_map_to_list _) Ht).
  rewrite list_to_map_to_list, lookup_empty. by destruct (total_usage !! user).
Qed.

Lemma table_rows_returns total_usage :
  returns (table_rows total_usage)
  ↔ ∀ user cpu_time, total_usage !! user = Some cpu_time →
                     returns (_human_readable_time cpu_time).
Proof.
  unfold table_rows. rewrite add_rows_returns, Forall_forall. split.
  - intros H user c Hu. by apply (H (user, c)), elem_of_map_to_list.
  - intros H [user c] Hin%elem_of_map_to_list. by eapply H.
Qed.

Lemma table_rows_finite total_usage :
  (∀ user cpu_time, total_usage !! user = Some cpu_time →
                    is_binary64 cpu_time = true) →
  returns (table_rows total_usage)
  ↔ ∀ user cpu_time, total_usage !! user = Some cpu_time → finite cpu_time = true.
Proof.
  intros Hb. rewrite table_rows_returns. split; intros H user c Hu.
  - destruct (human_readable_time_cases c (Hb _ _ Hu)) as [[? _]|[_ Hr]]; [done|].
    specialize (H _ _ Hu). rewrite Hr in H. destruct (returns_Raise _ H).
  - destruct (human_readable_time_cases c (Hb _ _ Hu)) as [[_ ?]|[Hf _]]; [done|].
    rewrite (H _ _ Hu) in Hf. done.
Qed.

Lemma table_rows_raises total_usage e :
  (∀ user cpu_time, total_usage !! user = Some cpu_time →
                    is_binary64 cpu_time = true) →
  table_rows total_usage = Raise e → e = ValueError.
Proof.
  intros Hb. unfold table_rows.
  assert (Forall (λ uc, is_binary64 uc.2 = true) (map_to_list total_usage)) as Hall.
  { apply Forall_forall. intros [u c] Hin%elem_of_map_to_list. by eapply Hb. }
  revert Hall. generalize (map_to_list total_usage) (∅ : gmap string string).
  intros items. induction items as [|[u c] items IH]; intros rows Hall; [done|].
  apply Forall_cons in Hall as [Hc Hall]. cbn [snd] in Hc.
  cbn [add_rows]. unfold add_row. cbn [fst snd].
  destruct (human_readable_time_cases c Hc) as [[_ [cell ->]]|[_ ->]];
    cbn [mbind result_bind].
  - by apply IH.
  - congruence.
Qed.

(** X13: the table has one row for every user of the total, showing
    what [_human_readable_time] makes of its seconds; when the totals
    are binary64 values, as sums are, the table is built exactly when
    every total is finite, and a single NaN or infinite total makes the
    loop raise [ValueError] with no table at all. *)
Theorem table_rows_spec (total_usage : usage) :
  (∀ user cpu_time, total_usage !! user = Some cpu_time →
                    is_binary64 cpu_time = true) →
  (returns (table_rows total_usage)
   ↔ ∀ user cpu_time, total_usage !! user = Some cpu_time → finite cpu_time = true)
  ∧ (∀ e, table_rows total_usage = Raise e → e = ValueError)
  ∧ (∀ rows, table_rows total_usage = Return rows →
       dom rows = dom total_usage
       ∧ ∀ user cpu_time, total_usage !! user = Some cpu_time →
           ∃ cell, _human_readable_time cpu_time = Return cell
                   ∧ rows !! user = Some cell).
Proof.
  intros Hb. split; [by apply table_rows_finite|]. split.
  - intros e. by apply table_rows_raises.
  - intros rows Ht.
    assert (∀ user c, total_usage !! user = Some c →
              ∃ cell, _human_readable_time c = Return cell ∧ rows !! user = Some cell)
      as Hrow.
    { intros user c Hu. rewrite (table_rows_lookup _ _ user Ht), Hu.
      cbn [mbind option_bind].
      assert (returns (_human_readable_time c)) as [cell Hc].
      { eapply table_rows_returns; [|exact Hu]. rewrite Ht. apply returns_Return. }
      exists cell. rewrite Hc. split; reflexivity. }
    split; [|done]. apply set_eq. intros user. rewrite !elem_of_dom.
    rewrite (table_rows_lookup _ _ user Ht).
    destruct (total_usage !! user) as [c|] eqn:Hu; cbn [mbind option_bind].
    + destruct (Hrow _ _ Hu) as (cell & -> & _). split; intros _; by eexists.
    + split; by intros [? ?].
Qed.

Lemma table_rows_spec_witness :
  returns (table_rows {[ "alice" := f5400 ]})
  ↔ ∀ user cpu_time, ({[ "alice" := f5400 ]} : usage) !! user = Some cpu_time →
                     finite cpu_time = true.
Proof.
  refine (proj1 (table_rows_spec {[ "alice" := f5400 ]} _)).
  intros user cpu_time Hu. apply lookup_singleton_Some in Hu as [_ <-]. reflexivity.
Defined.

(** ** The three steps of [send_metrics] *)

Lemma lookup_entry_isfile name (d : logdir) :
  Forall (λ ne, isfile ne.2 = true) d → lookup_entry name d ≠ Some Directory.
Proof.
  induction d as [|[n e] d IH]; intros Hall; [done|].
  inversion Hall as [|? ? He Hd]; subst. simpl in *.
  destruct (String.eqb n name); [|by apply IH]. by destruct e.
Qed.

Lemma snapshot_store_write name content d d' :
  snapshot_store d → write_entry name content d = Some d' →
  snapshot_store d'
  ∧ length d' = if decide (name ∈ listdir d) then length d else S (length d).
Proof.
  intros [Hnd Hall] Hw. pose proof (write_entry_listdir _ _ _ _ Hw) as Hl.
  assert (∀ x : logdir, length x = length (listdir x)) as Hlen
    by (intros x; unfold listdir; by rewrite length_fmap).
  split; [split|].
  - rewrite Hl. destruct (decide (name ∈ listdir d)); [done|].
    apply NoDup_app. split; [done|]. split; [|apply NoDup_singleton].
    intros x Hx ->%list_elem_of_singleton. done.
  - by eapply write_entry_isfile.
  - rewrite (Hlen d'), Hl, (Hlen d).
    destruct (decide (name ∈ listdir d)); [done|].
    rewrite length_app. simpl. lia.
Qed.

(** On a directory of snapshot files, with the command completed: the
    old snapshots go, the day's is written, and the rest only reads. *)
Lemma send_metrics_eq self today returncode stdout d :
  snapshot_store d →
  ∃ d', write_entry (log_file today) (log_entry today stdout) (survivors d) = Some d'
    ∧ send_metrics self today (Completed returncode stdout) (Some d)
      = (st ← (aggregate_cpu_usage self (Some d')).1;
         rows ← table_rows st.2;
         Return (st.1, rows), Some d').
Proof.
  intros Hs. pose proof (survivors_store d Hs) as [_ Hfiles].
  destruct (write_entry_succeeds (log_file today) (log_entry today stdout)
              (survivors d)) as [d' Hw]; [by apply lookup_entry_isfile|].
  exists d'. split; [done|].
  unfold send_metrics. unfold mbind at 1, io_bind at 1.
  rewrite (clear_previous_logs_run d Hs). unfold mbind at 1, io_bind at 1.
  rewrite save_logs_unfold. simpl (default [] (Some _)). rewrite Hw.
  unfold mbind at 1, io_bind at 1. rewrite aggregate_cpu_usage_eq. cbn [fst].
  destruct (merge_texts self ∅ _) as [e|total]; [done|].
  cbn [mbind result_bind]. unfold mbind at 1, io_bind at 1, pure_result.
  cbn [fst snd]. by destruct (table_rows total).
Qed.

(** X14: [send_metrics] clears before it saves, so it cannot start on
    a host where the log directory does not exist yet: the listing in
    [clear_previous_logs] raises [FileNotFoundError] and the directory
    is still missing afterwards, although [save_logs], which would have
    created it and written the day's snapshot, comes next. *)
Theorem send_metrics_needs_directory self today run :
  send_metrics self today run None = (Raise FileNotFoundError, None)
  ∧ (∀ e, clear_previous_logs None = (Raise e, None) → e = FileNotFoundError)
  ∧ (∀ returncode stdout,
       save_logs today (Completed returncode stdout) None
       = (Return (), Some [(log_file today, File (log_entry today stdout))])).
Proof.
  split; [|split].
  - unfold send_metrics, mbind at 1, io_bind at 1. reflexivity.
  - intros e. unfold clear_previous_logs, mbind, io_bind, os_listdir. congruence.
  - intros returncode stdout. by rewrite save_logs_unfold.
Qed.

(** X15: over a directory of snapshot files, with the command
    completed, [send_metrics] leaves a directory of snapshot files that
    holds what [clear_previous_logs] kept together with the day's
    snapshot, whatever happens later in the run: eight files at most,
    and eight exactly when there were seven or more and none of them
    was of that day.  The report that follows is computed over that
    directory, not over seven days. *)
Theorem send_metrics_keeps_eight self today returncode stdout d :
  snapshot_store d →
  ∃ kept d',
    clear_previous_logs (Some d) = (Return (), Some kept)
    ∧ (send_metrics self today (Completed returncode stdout) (Some d)).2 = Some d'
    ∧ snapshot_store d' ∧ length d' ≤ 8
    ∧ lookup_entry (log_file today) d' = Some (File (log_entry today stdout))
    ∧ (∀ other, other ≠ log_file today →
         lookup_entry other d' = lookup_entry other kept)
    ∧ (7 ≤ length d → log_file today ∉ listdir d → length d' = 8)
    ∧ (send_metrics self today (Completed returncode stdout) (Some d)).1
      = (st ← (aggregate_cpu_usage self (Some d')).1;
         rows ← table_rows st.2;
         Return (st.1, rows)).
Proof.
  intros Hs. destruct (send_metrics_eq self today returncode stdout d Hs)
    as (d' & Hw & ->).
  exists (survivors d), d'. split; [by apply clear_previous_logs_run|].
  split; [done|].
  destruct (snapshot_store_write _ _ _ _ (survivors_store d Hs) Hw) as [Hs' Hlen].
  pose proof (survivors_length d (proj1 Hs)) as Hsl.
  destruct (write_entry_lookup _ _ _ _ Hw) as [Hl Ho].
  split; [done|]. split.
  { rewrite Hlen. destruct (decide _); lia. }
  split; [done|]. split; [done|]. split; [|done].
  intros H7 Hnew. rewrite Hlen, decide_False; [lia|].
  intros Hin. apply Hnew.
  pose proof (survivors_sublist d) as Hsub.
  apply (fmap_sublist fst) in Hsub. by eapply elem_of_sublist.
Qed.

Lemma send_metrics_keeps_eight_witness :
  ∃ kept d',
    clear_previous_logs (Some nine_days) = (Return (), Some kept)
    ∧ (send_metrics only_alice march_7 (Completed 0 sa_output) (Some nine_days)).2
      = Some d'
    ∧ snapshot_store d' ∧ length d' ≤ 8
    ∧ lookup_entry (log_file march_7) d' = Some (File (log_entry march_7 sa_output))
    ∧ (∀ other, other ≠ log_file march_7 →
         lookup_entry other d' = lookup_entry other kept)
    ∧ (7 ≤ length nine_days → log_file march_7 ∉ listdir nine_days → length d' = 8)
    ∧ (send_metrics only_alice march_7 (Completed 0 sa_output) (Some nine_days)).1
      = (st ← (aggregate_cpu_usage only_alice (Some d')).1;
         rows ← table_rows st.2;
         Return (st.1, rows)).
Proof.
  apply (send_metrics_keeps_eight only_alice march_7 0 sa_output nine_days).
  split; by_evaluation.
Defined.

Lemma merge_texts_binary64 self texts total user cpu_time :
  merge_texts self ∅ texts = Return total →
  total !! user = Some cpu_time → is_binary64 cpu_time = true.
Proof.
  intros (records & ->)%merge_texts_foldl. apply aggregate_binary64.
Qed.

(** X16: what comes out of [send_metrics] once the three steps on the
    directory are done.  Over a directory of snapshot files, with the
    command completed, it raises nothing but [ValueError]; it gets to
    the end of the table exactly when every file left in the directory
    parses and every total is finite; and the rows are then those of
    the total over that directory. *)
Theorem send_metrics_result self today returncode stdout d r fs' :
  snapshot_store d →
  send_metrics self today (Completed returncode stdout) (Some d) = (r, fs') →
  (∀ e, r = Raise e → e = ValueError)
  ∧ (returns r
     ↔ ∃ self' total,
         aggregate_cpu_usage self fs' = (Return (self', total), fs')
         ∧ ∀ user cpu_time, total !! user = Some cpu_time → finite cpu_time = true)
  ∧ (∀ self' rows, r = Return (self', rows) →
       aggregate_cpu_usage self fs' = (Return (self', total_usage self'), fs')
       ∧ table_rows (total_usage self') = Return rows).
Proof.
  intros Hs. destruct (send_metrics_eq self today returncode stdout d Hs)
    as (d' & _ & ->).
  intros [= <- <-]. rewrite aggregate_cpu_usage_eq. cbn [fst].
  destruct (merge_texts self ∅ (contents_of d' (listdir d'))) as [e|total] eqn:Hm;
    cbn [mbind result_bind fst snd].
  { split; [|split].
    - intros e' [= <-]. by eapply merge_texts_raises.
    - split; [by intros ?%returns_Raise | by intros (? & ? & ? & _)].
    - done. }
  assert (∀ user c, total !! user = Some c → is_binary64 c = true) as Hb
    by (intros user c; by eapply merge_texts_binary64).
  pose proof (table_rows_finite total Hb) as Hfin.
  destruct (table_rows total) as [e|rows] eqn:Ht; cbn [mbind result_bind].
  - split; [|split].
    + intros e' [= <-]. by eapply table_rows_raises.
    + split; [by intros ?%returns_Raise|].
      intros (self' & total' & [= _ <-] & Hall). apply Hfin in Hall.
      by apply returns_Raise in Hall.
    + done.
  - split; [done|]. split.
    + split; [|intros; apply returns_Return]. intros _.
      exists (with_total self total), total. split; [done|].
      apply Hfin, returns_Return.
    + intros self' rows' [= <- <-]. done.
Qed.

Lemma send_metrics_result_witness :
  returns (Return (with_total only_alice {[ "alice" := f3600 ]},
                   ({[ "alice" := "1 hours 0 minutes" ]} : gmap string string)))
  ↔ ∃ self' total,
      aggregate_cpu_usage only_alice
        (Some [(log_file march_7, File (log_entry march_7 sa_output))])
      = (Return (self', total),
         Some [(log_file march_7, File (log_entry march_7 sa_output))])
      ∧ ∀ user cpu_time, total !! user = Some cpu_time → finite cpu_time = true.
Proof.
  refine (proj1 (proj2 (send_metrics_result only_alice march_7 0 sa_output []
                          _ _ _ _))).
  - split; by_evaluation.
  - vm_compute. reflexivity.
Defined.
